(** * arxiv-readability-analysis: the PDF-to-text pipeline of [pdf_to_text.py]

    A shallow embedding of [extract_arxiv_id], [preserve_equations],
    [get_paper_metadata], [calculate_readability] and [process_pdfs], and
    the properties of the specification that concern them.

    Python strings are sequences of code points.  The embedding uses
    [string], whose characters are the 8-bit [ascii]: they are read as the
    code points U+0000 to U+00FF, and the character classes of the [re]
    module ([\d], [\w], [\s]) and of [str.strip] and [str.split] are the
    Unicode ones restricted to that range. *)

From Stdlib Require Import Bool Arith Lia List Ascii String ZArith QArith.
From Stdlib Require Import DecimalString DecimalNat DecimalFacts Permutation.
Import ListNotations.

Local Open Scope string_scope.
Local Open Scope list_scope.
Local Open Scope nat_scope.

(* ================================================================== *)
(** ** Characters *)

Module Char.

Definition code (c : ascii) : nat := nat_of_ascii c.

Definition between (lo hi : nat) (c : ascii) : bool :=
  (lo <=? code c) && (code c <=? hi).

Definition one_of (l : list nat) (c : ascii) : bool :=
  existsb (Nat.eqb (code c)) l.

(** The line feed, Python's ['\n']. *)
Definition newline : ascii := ascii_of_nat 10.

(** [\d]: the decimal digits (category Nd); below U+0100 these are
    [0] to [9]. *)
Definition is_digit (c : ascii) : bool := between 48 57 c.

(** [[A-Z]]. *)
Definition is_upper (c : ascii) : bool := between 65 90 c.

(** [\w]: the alphanumeric characters and the underscore.  Below U+0100
    the alphanumerics are the ASCII letters and digits, the letters
    U+00AA, U+00B5, U+00BA, U+00C0-U+00D6, U+00D8-U+00F6, U+00F8-U+00FF,
    the superscript digits U+00B2, U+00B3, U+00B9 and the fractions
    U+00BC-U+00BE. *)
Definition is_word (c : ascii) : bool :=
  between 48 57 c || between 65 90 c || between 97 122 c
  || Nat.eqb (code c) 95
  || one_of [170; 178; 179; 181; 185; 186; 188; 189; 190] c
  || between 192 214 c || between 216 246 c || between 248 255 c.

(** [\s], and the whitespace of [str.strip] and [str.split]: TAB, LF, VT,
    FF, CR, the separators U+001C-U+001F, the space, U+0085, U+00A0. *)
Definition is_space (c : ascii) : bool :=
  between 9 13 c || between 28 32 c || one_of [133; 160] c.

(** [[\w-]]. *)
Definition is_word_or_hyphen (c : ascii) : bool :=
  is_word c || Nat.eqb (code c) 45.

(** [[.!?]]. *)
Definition is_terminator (c : ascii) : bool := one_of [46; 33; 63] c.

(** [.] under [re.DOTALL]. *)
Definition any (_ : ascii) : bool := true.

End Char.

(* ================================================================== *)
(** ** Strings: the [str] methods the program calls *)

Module Str.

(** [len(s)] is [String.length]; [s + t] is [String.append]. *)

(** The first [n] characters of [s], [s[:n]]. *)
Fixpoint take (n : nat) (s : string) : string :=
  match n, s with
  | S n', String c s' => String c (take n' s')
  | _, _ => ""
  end.

(** [s.startswith(p)], returning what follows the prefix. *)
Fixpoint strip_prefix (p s : string) : option string :=
  match p with
  | "" => Some s
  | String c p' =>
      match s with
      | String d s' => if Ascii.eqb c d then strip_prefix p' s' else None
      | "" => None
      end
  end.

Definition startswith (s p : string) : bool :=
  match strip_prefix p s with Some _ => true | None => false end.

(** [s.endswith(p)]. *)
Fixpoint endswith (s p : string) : bool :=
  String.eqb s p
  || match s with
     | String _ s' => endswith s' p
     | "" => false
     end.

(** [s.lstrip()], [s.rstrip()] and [s.strip()]. *)
Fixpoint lstrip (s : string) : string :=
  match s with
  | String c s' => if Char.is_space c then lstrip s' else s
  | "" => ""
  end.

Fixpoint rstrip (s : string) : string :=
  match s with
  | String c s' =>
      match rstrip s' with
      | "" => if Char.is_space c then "" else String c ""
      | r => String c r
      end
  | "" => ""
  end.

Definition strip (s : string) : string := rstrip (lstrip s).

(** [s.split()]: the maximal runs of non-whitespace characters. *)
Fixpoint split (s : string) : list string :=
  match s with
  | "" => []
  | String c s' =>
      if Char.is_space c then split s'
      else
        match s' with
        | String d _ =>
            if Char.is_space d then String c "" :: split s'
            else
              match split s' with
              | w :: ws => String c w :: ws
              | [] => [String c ""]
              end
        | "" => [String c ""]
        end
  end.

(** [s.split(sep)[0]] for a one-character separator: what precedes the
    first [sep], or all of [s]. *)
Fixpoint before_first (sep : ascii) (s : string) : string :=
  match s with
  | String c s' => if Ascii.eqb c sep then "" else String c (before_first sep s')
  | "" => ""
  end.

(** [sep.join(l)]. *)
Definition join (sep : string) (l : list string) : string := String.concat sep l.

(** [str(n)] for a non-negative integer. *)
Definition of_nat (n : nat) : string := NilEmpty.string_of_uint (Nat.to_uint n).

End Str.

(* ================================================================== *)
(** ** Regular expressions: a backtracking matcher in continuation style

    A position of the subject is a pair [(b, s)]: [s] holds the characters
    from the position on, [b] those before it, nearest first.  A
    continuation is run at the position where the piece before it stopped;
    a piece tries its alternatives in the order of Python's [re] (greedy:
    longest first, lazy: shortest first) and keeps the first on which its
    continuation succeeds. *)

Module Re.

Section Pieces.
Context {R : Type}.

Definition cont : Type := string -> string -> option R.

(** One character of a class. *)
Definition chr (p : ascii -> bool) (k : cont) : cont :=
  fun b s =>
    match s with
    | String c s' => if p c then k (String c b) s' else None
    | "" => None
    end.

(** A literal. *)
Fixpoint lit (l : string) (k : cont) : cont :=
  match l with
  | "" => k
  | String c l' => chr (Ascii.eqb c) (lit l' k)
  end.

(** [p{n}]. *)
Fixpoint rep (n : nat) (p : ascii -> bool) (k : cont) : cont :=
  match n with
  | O => k
  | S n' => chr p (rep n' p k)
  end.

(** [p{0,n}], greedy. *)
Fixpoint upto (n : nat) (p : ascii -> bool) (k : cont) : cont :=
  match n with
  | O => k
  | S n' =>
      fun b s =>
        match chr p (upto n' p k) b s with
        | Some r => Some r
        | None => k b s
        end
  end.

(** [p{lo,hi}], greedy. *)
Definition range (lo hi : nat) (p : ascii -> bool) (k : cont) : cont :=
  rep lo p (upto (hi - lo) p k).

(** [p*], greedy. *)
Fixpoint star (p : ascii -> bool) (k : cont) (b s : string) {struct s}
  : option R :=
  match s with
  | String c s' =>
      if p c then
        match star p k (String c b) s' with
        | Some r => Some r
        | None => k b s
        end
      else k b s
  | "" => k b s
  end.

(** [p+], greedy. *)
Definition plus (p : ascii -> bool) (k : cont) : cont := chr p (star p k).

(** [p*?], lazy. *)
Fixpoint lazy_star (p : ascii -> bool) (k : cont) (b s : string) {struct s}
  : option R :=
  match k b s with
  | Some r => Some r
  | None =>
      match s with
      | String c s' => if p c then lazy_star p k (String c b) s' else None
      | "" => None
      end
  end.

(** [(x)?], greedy, for a sub-pattern [x]. *)
Definition opt (x : cont -> cont) (k : cont) : cont :=
  fun b s =>
    match x k b s with
    | Some r => Some r
    | None => k b s
    end.

(** [$] without [re.MULTILINE]: the end of the subject, or the
    position before a line feed that ends the subject. *)
Definition eos (k : cont) : cont :=
  fun b s =>
    match s with
    | "" => k b s
    | String c "" => if Ascii.eqb c Char.newline then k b s else None
    | _ => None
    end.

(** [\b]: exactly one of the two neighbours is a word character, the
    outside of the subject counting as none. *)
Definition first_is (p : ascii -> bool) (s : string) : bool :=
  match s with
  | String c _ => p c
  | "" => false
  end.

Definition boundary (k : cont) : cont :=
  fun b s =>
    if xorb (first_is Char.is_word b) (first_is Char.is_word s)
    then k b s else None.

(** [(?<=[p])] and [(?=[p])] for one character of a class. *)
Definition behind (p : ascii -> bool) (k : cont) : cont :=
  fun b s => if first_is p b then k b s else None.

Definition ahead (p : ascii -> bool) (k : cont) : cont :=
  fun b s => if first_is p s then k b s else None.

(** A captured group: [k] receives the text the group consumed. *)
Definition group (x : cont -> cont) (k : string -> cont) : cont :=
  fun b s =>
    x (fun b' s' => k (Str.take (String.length s - String.length s') s) b' s') b s.

End Pieces.

(** The position [n] characters back, if there are that many. *)
Fixpoint rewind (n : nat) (b s : string) : option (string * string) :=
  match n with
  | O => Some (b, s)
  | S n' =>
      match b with
      | String c b' => rewind n' b' (String c s)
      | "" => None
      end
  end.

(** [(?<!x)] for a sub-pattern [x] of fixed width [n]: [x] is tried [n]
    characters back, where it can only stop at the current position. *)
Definition not_behind {R} (n : nat) (x : @cont unit -> @cont unit)
    (k : @cont R) : @cont R :=
  fun b s =>
    match rewind n b s with
    | Some (b', s') =>
        match x (fun _ _ => Some tt) b' s' with
        | Some _ => None
        | None => k b s
        end
    | None => k b s
    end.

(** The end of a pattern: the match yields its groups [g] and the rest
    of the subject. *)
Definition accept {G} (g : G) : @cont (G * string) :=
  fun _ s => Some (g, s).

Definition pattern (G : Type) : Type := @cont (G * string).

(** [re.search]: the match at the leftmost position that has one. *)
Fixpoint search_from {G} (m : pattern G) (b s : string) {struct s}
  : option (G * string) :=
  match m b s with
  | Some r => Some r
  | None =>
      match s with
      | String c s' => search_from m (String c b) s'
      | "" => None
      end
  end.

Definition search {G} (m : pattern G) (s : string) : option (G * string) :=
  search_from m "" s.

(** The subject cut into the successive non-overlapping matches, leftmost
    first, and the characters between them.  After a match of [n]
    characters the scan resumes [n] characters on: [skip] counts the
    characters of the current match still to pass.  (No pattern of the
    program matches the empty string.) *)
Inductive piece (G : Type) : Type :=
| Text (c : ascii)
| Hit (whole : string) (g : G).
Arguments Text {G} c.
Arguments Hit {G} whole g.

Fixpoint scan_from {G} (m : pattern G) (skip : nat) (b s : string) {struct s}
  : list (piece G) :=
  match s with
  | "" => []
  | String c s' =>
      match skip with
      | S k => scan_from m k (String c b) s'
      | O =>
          match m b s with
          | Some (g, r) =>
              let n := String.length s - String.length r in
              Hit (Str.take n s) g :: scan_from m (n - 1) (String c b) s'
          | None => Text c :: scan_from m 0 (String c b) s'
          end
      end
  end.

Definition scan {G} (m : pattern G) (s : string) : list (piece G) :=
  scan_from m 0 "" s.

(** [re.finditer]: the matches, each as [group(0)] and its groups. *)
Fixpoint hits {G} (l : list (piece G)) : list (string * G) :=
  match l with
  | [] => []
  | Text _ :: l' => hits l'
  | Hit w g :: l' => (w, g) :: hits l'
  end.

Definition finditer {G} (m : pattern G) (s : string) : list (string * G) :=
  hits (scan m s).

(** [re.findall] for a pattern without groups: the matched texts. *)
Definition findall {G} (m : pattern G) (s : string) : list string :=
  map fst (finditer m s).

(** [re.sub]; the replacement is a function of the groups. *)
Fixpoint subst {G} (repl : G -> string) (l : list (piece G)) : string :=
  match l with
  | [] => ""
  | Text c :: l' => String c (subst repl l')
  | Hit _ g :: l' => repl g ++ subst repl l'
  end.

Definition sub {G} (m : pattern G) (repl : G -> string) (s : string) : string :=
  subst repl (scan m s).

(** [re.split] for a pattern without groups: the texts between the
    matches, one more than there are matches. *)
Fixpoint between {G} (l : list (piece G)) : list string :=
  match l with
  | [] => [""]
  | Text c :: l' =>
      match between l' with
      | w :: ws => String c w :: ws
      | [] => [String c ""]
      end
  | Hit _ _ :: l' => "" :: between l'
  end.

Definition split {G} (m : pattern G) (s : string) : list string :=
  between (scan m s).

End Re.

(** [old] is not empty in any call of the program; for an empty [old]
    Python inserts [new] before every character and at the end. *)
Fixpoint intersperse (new s : string) : string :=
  match s with
  | "" => new
  | String c s' => new ++ String c (intersperse new s')
  end.

(** [s.replace(old, new)]: every non-overlapping occurrence of [old],
    leftmost first, becomes [new]. *)
Definition replace (s old new : string) : string :=
  match old with
  | "" => intersperse new s
  | _ => Re.sub (Re.lit old (Re.accept tt)) (fun _ => new) s
  end.

(* ================================================================== *)
(** ** [extract_arxiv_id] *)

(** [(\d{4}\.\d{4,5})(v\d+)?\.pdf$]; the match yields group 1. *)
Definition arxiv_id_re : Re.pattern string :=
  Re.group
    (fun k => Re.rep 4 Char.is_digit (Re.lit "." (Re.range 4 5 Char.is_digit k)))
    (fun g1 =>
       Re.opt (fun k => Re.lit "v" (Re.plus Char.is_digit k))
         (Re.lit ".pdf" (Re.eos (Re.accept g1)))).

Definition extract_arxiv_id (filename : string) : option string :=
  match Re.search arxiv_id_re filename with
  | Some (g1, _) => Some g1
  | None => None
  end.

(* ================================================================== *)
(** ** [preserve_equations] *)

Inductive EqType : Type := DISPLAY | INLINE.

Definition type_name (t : EqType) : string :=
  match t with
  | DISPLAY => "DISPLAY"
  | INLINE => "INLINE"
  end.

(** One dictionary of the list [equations]; the keys are ['placeholder'],
    ['equation'], ['type'] and ['length']. *)
Record EquationRecord : Type := {
  eq_placeholder : string;
  eq_equation : string;
  eq_type : EqType;
  eq_length : nat
}.

(** [open(.*?)close] under [re.DOTALL]; the match yields group 1. *)
Definition delimited (open close : string) : Re.pattern string :=
  Re.lit open (Re.group (Re.lazy_star Char.any) (fun g1 => Re.lit close (Re.accept g1))).

(** The list [equation_patterns]: [\\begin{equation}(.*?)\\end{equation}],
    [\\\[(.*?)\\\]] and [\$(.*?)\$]. *)
Definition equation_patterns : list (Re.pattern string * EqType) :=
  [ (delimited "\begin{equation}" "\end{equation}", DISPLAY);
    (delimited "\[" "\]", DISPLAY);
    (delimited "$" "$", INLINE) ].

(** [f"[EQ_{eq_type}_{counter}]"]. *)
Definition placeholder_of (t : EqType) (counter : nat) : string :=
  "[EQ_" ++ type_name t ++ "_" ++ Str.of_nat counter ++ "]".

(** The variables the two loops update. *)
Record IsolatorState : Type := {
  text : string;
  equations : list EquationRecord;
  counter : nat
}.

(** The body of the inner loop, for one match: [group(0)] and [group(1)]. *)
Definition isolate_match (t : EqType) (st : IsolatorState) (m : string * string)
  : IsolatorState :=
  let equation := Str.strip (snd m) in
  let placeholder := placeholder_of t (counter st) in
  {| text := replace (text st) (fst m) placeholder;
     equations :=
       equations st
       ++ [ {| eq_placeholder := placeholder;
               eq_equation := equation;
               eq_type := t;
               eq_length := List.length (Str.split equation) |} ];
     counter := S (counter st) |}.

(** The body of the outer loop, for one pattern: [re.finditer] is given the
    text as it is when the pass starts, and goes on iterating over that
    string while the loop body rebinds [text]. *)
Definition isolate_pass (st : IsolatorState) (p : Re.pattern string * EqType)
  : IsolatorState :=
  fold_left (isolate_match (snd p)) (Re.finditer (fst p) (text st)) st.

Definition preserve_equations (t : string) : string * list EquationRecord :=
  let st :=
    fold_left isolate_pass equation_patterns
      {| text := t; equations := []; counter := 1 |} in
  (text st, equations st).

(* ================================================================== *)
(** ** [calculate_readability] *)

(** Python numbers: [a / b] on integers is a float, the quotient rounded to
    the nearest double; the embedding keeps the quotient itself. *)
Inductive number : Type :=
| Int (z : Z)
| Float (q : Q).

Definition number_value (n : number) : Q :=
  match n with
  | Int z => inject_Z z
  | Float q => q
  end.

(** What a call does: it returns, or it raises. *)
Inductive outcome (A : Type) : Type :=
| Returns (a : A)
| Raises.
Arguments Returns {A} a.
Arguments Raises {A}.

Definition bind {A B} (x : outcome A) (f : A -> outcome B) : outcome B :=
  match x with
  | Returns a => f a
  | Raises => Raises
  end.

Notation "x <- e ;; k" := (bind e (fun x => k))
  (at level 61, e at next level, right associativity).

(** [a / b] on non-negative integers; [ZeroDivisionError] when [b] is 0. *)
Definition true_div (a b : nat) : outcome number :=
  match b with
  | O => Raises
  | S _ => Returns (Float (Z.of_nat a # Pos.of_nat b))
  end.

(** [\[EQ_\w+_\d+\]]. *)
Definition placeholder_re : Re.pattern unit :=
  Re.lit "[EQ_"
    (Re.plus Char.is_word
       (Re.lit "_" (Re.plus Char.is_digit (Re.lit "]" (Re.accept tt))))).

(** [(?<!\b\w\w\.)(?<=[.!?])\s+(?=[A-Z])]. *)
Definition sentence_break_re : Re.pattern unit :=
  Re.not_behind 3
    (fun k => Re.boundary (Re.chr Char.is_word (Re.chr Char.is_word (Re.lit "." k))))
    (Re.behind Char.is_terminator
       (Re.plus Char.is_space (Re.ahead Char.is_upper (Re.accept tt)))).

(** [\b[\w-]+\b]. *)
Definition word_re : Re.pattern unit :=
  Re.boundary (Re.plus Char.is_word_or_hyphen (Re.boundary (Re.accept tt))).

Definition clean_text (t : string) : string :=
  Re.sub placeholder_re (fun _ => "") t.

(** The sentences the splitting proposes, before the length filter. *)
Definition candidate_sentences (t : string) : list string :=
  Re.split sentence_break_re (clean_text t).

(** [10 < len(s) < 500]. *)
Definition kept (s : string) : bool :=
  (10 <? String.length s) && (String.length s <? 500).

Definition sentences (t : string) : list string :=
  map Str.strip (filter kept (candidate_sentences t)).

Definition words (t : string) : list string :=
  Re.findall word_re (clean_text t).

Section Readability.

(** The scores of the [textstat] library, functions of the cleaned text. *)
Variable score : Type.
Variable textstat_flesch_reading_ease : string -> score.
Variable textstat_gunning_fog : string -> score.
Variable textstat_smog_index : string -> score.

Record Metrics : Type := {
  word_count : nat;
  sentence_count : nat;
  avg_sentence_length : number;
  flesch_reading_ease : score;
  gunning_fog : score;
  smog_index : score
}.

Definition calculate_readability (t : string) : outcome Metrics :=
  let clean := clean_text t in
  let sentences := sentences t in
  let words := words t in
  avg <- match sentences with
         | _ :: _ => true_div (List.length words) (List.length sentences)
         | [] => Returns (Int 0)
         end ;;
  Returns
    {| word_count := List.length words;
       sentence_count := List.length sentences;
       avg_sentence_length := avg;
       flesch_reading_ease := textstat_flesch_reading_ease clean;
       gunning_fog := textstat_gunning_fog clean;
       smog_index := textstat_smog_index clean |}.

End Readability.

(* ================================================================== *)
(** ** [extract_pdf_text], [get_paper_metadata] and [process_pdfs] *)

Definition PDF_DIR : string := "./all_pdfs".
Definition TEXT_DIR : string := "./processed_papers".

(** [os.path.join(a, b)] on POSIX. *)
Definition path_join (a b : string) : string :=
  if Str.startswith b "/" then b
  else if String.eqb a "" || Str.endswith a "/" then a ++ b
  else a ++ "/" ++ b.

(** [s.rfind(c)] for one character. *)
Fixpoint rfind (c : ascii) (s : string) : option nat :=
  match s with
  | "" => None
  | String d s' =>
      match rfind c s' with
      | Some i => Some (S i)
      | None => if Ascii.eqb d c then Some 0 else None
      end
  end.

Fixpoint all_chars (p : ascii -> bool) (s : string) : bool :=
  match s with
  | "" => true
  | String c s' => p c && all_chars p s'
  end.

(** [os.path.splitext(p)[0]]: [p] up to its last dot, when that dot comes
    after the last separator and after a character of the last component
    that is not a dot. *)
Definition splitext_root (p : string) : string :=
  match rfind "." p with
  | None => p
  | Some dot =>
      let start := match rfind "/" p with Some i => S i | None => 0 end in
      if (start <=? dot)
         && negb (all_chars (Ascii.eqb ".") (String.substring start (dot - start) p))
      then Str.take dot p
      else p
  end.

(** [\s*\n\s*\d+\s*\n\s*], the page numbers. *)
Definition page_number_re : Re.pattern unit :=
  Re.star Char.is_space
    (Re.chr (Ascii.eqb Char.newline)
       (Re.star Char.is_space
          (Re.plus Char.is_digit
             (Re.star Char.is_space
                (Re.chr (Ascii.eqb Char.newline)
                   (Re.star Char.is_space (Re.accept tt))))))).

(** [-\n(\w+)], the hyphenated words; the match yields group 1. *)
Definition hyphenated_re : Re.pattern string :=
  Re.lit "-"
    (Re.chr (Ascii.eqb Char.newline)
       (Re.group (Re.plus Char.is_word) (fun g1 => Re.accept g1))).

Definition clean_page (t : string) : string :=
  let t := Re.sub page_number_re (fun _ => String Char.newline "") t in
  Re.sub hyphenated_re (fun g1 => g1) t.

(** [next(it)]: the first element, [StopIteration] when there is none. *)
Definition next {A} (l : list A) : outcome A :=
  match l with
  | x :: _ => Returns x
  | [] => Raises
  end.

(** [x or d] for a string that may be [None]. *)
Definition or_default (x : option string) (d : string) : string :=
  match x with
  | Some "" | None => d
  | Some s => s
  end.

Record Date : Type := { year : Z; month : Z; day : Z }.

(** What the catalog service returns for a paper. *)
Record ArxivResult : Type := {
  result_title : string;
  result_authors : list string;
  result_published : Date;
  result_primary_category : string;
  result_categories : list string;
  result_doi : option string;
  result_journal_ref : option string
}.

(** The dictionary [get_paper_metadata] builds. *)
Record Metadata : Type := {
  title : string;
  authors : string;
  published_date : Date;
  primary_category : string;
  categories : string;
  doi : string;
  journal_ref : string
}.

Section Pipeline.

Variable score : Type.
Variable textstat_flesch_reading_ease : string -> score.
Variable textstat_gunning_fog : string -> score.
Variable textstat_smog_index : string -> score.

(** The world outside the program: the directory listing, the text of
    the pages PyMuPDF reads from a file, whether a file can be written,
    what [arxiv.Search(id_list=[id]).results()] yields, and the year of
    [datetime.now()].  Each call may raise. *)
Variable listdir : list string.
Variable fitz_pages : string -> outcome (list string).
Variable write_text : string -> string -> outcome unit.
Variable write_csv : string -> list EquationRecord -> outcome unit.
Variable arxiv_results : string -> outcome (list ArxivResult).
Variable now_year : Z.

Definition extract_pdf_text (pdf_path : string) : outcome string :=
  pages <- fitz_pages pdf_path ;;
  Returns (Str.join (String Char.newline (String Char.newline ""))
             (map clean_page pages)).

(** The [try] block, and the bare [except] that turns whatever it raises
    into [None]. *)
Definition get_paper_metadata (arxiv_id : string) : option Metadata :=
  match
    results <- arxiv_results arxiv_id ;;
    result <- next results ;;
    Returns
      {| title := result_title result;
         authors := Str.join "; " (result_authors result);
         published_date := result_published result;
         primary_category := result_primary_category result;
         categories := Str.join ", " (result_categories result);
         doi := or_default (result_doi result) "";
         journal_ref := or_default (result_journal_ref result) "arXiv" |}
  with
  | Returns m => Some m
  | Raises => None
  end.

(** One dictionary of the list [metadata]; [metrics] and [meta] stand for
    the keys that [**metrics] and [**(meta or {})] add. *)
Record PaperRecord : Type := {
  paper_id : string;
  arxiv_id : option string;
  text_path : string;
  equation_path : option string;
  domain : string;
  record_year : Z;
  metrics : Metrics score;
  meta : option Metadata
}.

(** The body of the [try] block of the loop, for one file. *)
Definition process_file (filename : string) : outcome PaperRecord :=
  let paper_id := splitext_root filename in
  let pdf_path := path_join PDF_DIR filename in
  raw_text <- extract_pdf_text pdf_path ;;
  let (processed_text, equations) := preserve_equations raw_text in
  let text_path := path_join TEXT_DIR (paper_id ++ ".txt") in
  _ <- write_text text_path processed_text ;;
  let eq_path := path_join TEXT_DIR (paper_id ++ "_equations.csv") in
  _ <- match equations with
       | _ :: _ => write_csv eq_path equations
       | [] => Returns tt
       end ;;
  let arxiv_id := extract_arxiv_id filename in
  let meta :=
    match arxiv_id with
    | Some "" | None => None
    | Some id => get_paper_metadata id
    end in
  metrics <- calculate_readability score textstat_flesch_reading_ease
               textstat_gunning_fog textstat_smog_index processed_text ;;
  Returns
    {| paper_id := paper_id;
       arxiv_id := arxiv_id;
       text_path := text_path;
       equation_path := match equations with _ :: _ => Some eq_path | [] => None end;
       domain :=
         match meta with
         | Some m => Str.before_first "." (primary_category m)
         | None => "Unknown"
         end;
       record_year :=
         match meta with
         | Some m => year (published_date m)
         | None => now_year
         end;
       metrics := metrics;
       meta := meta |}.

(** One turn of the loop: a file that is not a PDF is passed over, and so
    is one whose processing raises. *)
Definition process_entry (metadata : list PaperRecord) (filename : string)
  : list PaperRecord :=
  if negb (Str.endswith filename ".pdf") then metadata
  else
    match process_file filename with
    | Returns r => metadata ++ [r]
    | Raises => metadata
    end.

(** The rows of the table [process_pdfs] builds. *)
Definition process_pdfs : list PaperRecord :=
  fold_left process_entry listdir [].

End Pipeline.

(* ================================================================== *)
(** ** [statpaper.py] and [download_pdfs.py]: the texts they compute *)

(** [s.split(sep)] for a one-character separator: the texts between the
    separators, one more than there are separators. *)
Fixpoint split_on (sep : ascii) (s : string) : list string :=
  match s with
  | "" => [""]
  | String c s' =>
      if Ascii.eqb c sep then "" :: split_on sep s'
      else
        match split_on sep s' with
        | w :: ws => String c w :: ws
        | [] => [String c ""]
        end
  end.

(** [l[0]] and [l[-1]]: [IndexError] on the empty list. *)
Definition item_first {A} (l : list A) : outcome A :=
  match l with
  | x :: _ => Returns x
  | [] => Raises
  end.

Fixpoint item_last {A} (l : list A) : outcome A :=
  match l with
  | [] => Raises
  | [x] => Returns x
  | _ :: l' => item_last l'
  end.

Module Statpaper.

Definition download_dir : string := "./statistics_papers".

(** [result.entry_id.split("/")[-1].split("v")[0]]. *)
Definition paper_id (entry_id : string) : outcome string :=
  last <- item_last (split_on "/" entry_id) ;;
  item_first (split_on "v" last).

(** [os.path.join(download_dir, f"{paper_id}.pdf")]. *)
Definition pdf_path (paper_id : string) : string :=
  path_join download_dir (paper_id ++ ".pdf")%string.

End Statpaper.

Module Download.

(** [result.entry_id.split('v')[-1]], the last column of a row of the
    metadata. *)
Definition version (entry_id : string) : outcome string :=
  item_last (split_on "v" entry_id).

(** ["\n".join([page.get_text() for page in doc])], from the texts of
    the pages. *)
Definition paper_text (pages : list string) : string :=
  Str.join (String Char.newline "") pages.

(** [len(text.split())]. *)
Definition word_count (text : string) : nat := List.length (Str.split text).

(** ['|'.join([a.name for a in result.authors])], from the names. *)
Definition authors_column (names : list string) : string := Str.join "|" names.


Definition BASE_DIR : string := "./arxiv_analysis".
Definition PDF_DIR : string := path_join BASE_DIR "pdfs".
Definition TEXT_DIR : string := path_join BASE_DIR "texts".
Definition METADATA_PATH : string := path_join BASE_DIR "metadata.csv".

(** The dictionary [CATEGORIES], in the order of its keys. *)
Definition CATEGORIES : list (string * nat) :=
  [ ("cs.LG", 800); ("math.AP", 400); ("stat.ML", 600);
    ("econ.EM", 300); ("q-bio.QM", 200); ("cs.CV", 500) ].

(** What the program reads of a result of the search;
    [result_short_id] is [result.get_short_id()] and [result_date] is
    [result.published.strftime('%Y-%m-%d')]. *)
Record Result : Type := {
  result_short_id : string;
  result_title : string;
  result_authors : list string;
  result_date : string;
  result_summary : string;
  result_entry_id : string
}.

(** One row of [metadata.csv], in the order of its columns. *)
Record Row : Type := {
  row_arxiv_id : string;
  row_title : string;
  row_authors : string;
  row_published_date : string;
  row_category : string;
  row_pdf_path : string;
  row_text_path : string;
  row_word_count : nat;
  row_abstract : string;
  row_version : string
}.

Definition pdf_path (paper_id : string) : string :=
  path_join PDF_DIR (paper_id ++ ".pdf")%string.

Definition text_path (paper_id : string) : string :=
  path_join TEXT_DIR (paper_id ++ ".txt")%string.

Section Papers.

(** The world outside the program, and what the calls do to it: whether a
    path exists, the opening of [metadata.csv] for appending, the results
    the search for a category and its target yields, the download of a
    PDF into a directory under a name, the texts of the pages PyMuPDF
    reads from a file, the writing of a text file and of a row.  A call
    that changes the world may raise, and leaves a world in both cases.
    The pauses and the messages are left out. *)
Variable World : Type.
Variable path_exists : World -> string -> bool.
Variable open_append : World -> string -> World * outcome unit.
Variable client_results : World -> string -> nat -> list Result.
Variable download_pdf : World -> Result -> string -> string -> World * outcome unit.
Variable fitz_texts : World -> string -> outcome (list string).
Variable write_text : World -> string -> string -> World * outcome unit.
Variable writerow : World -> Row -> World * outcome unit.

(** The [try] block for one result, with its [except]: the world it
    leaves, and the row it wrote when it came to its end. *)
Definition try_result (category : string) (w : World) (result : Result)
  : World * option Row :=
  let paper_id := result_short_id result in
  if path_exists w (pdf_path paper_id) && path_exists w (text_path paper_id)
  then (w, None)
  else
    let (w, downloaded) := download_pdf w result PDF_DIR (paper_id ++ ".pdf")%string in
    match downloaded with
    | Raises => (w, None)
    | Returns _ =>
        match fitz_texts w (pdf_path paper_id) with
        | Raises => (w, None)
        | Returns pages =>
            let text := paper_text pages in
            let (w, written) := write_text w (text_path paper_id) text in
            match written with
            | Raises => (w, None)
            | Returns _ =>
                match version (result_entry_id result) with
                | Raises => (w, None)
                | Returns v =>
                    let row :=
                      {| row_arxiv_id := paper_id;
                         row_title := result_title result;
                         row_authors := authors_column (result_authors result);
                         row_published_date := result_date result;
                         row_category := category;
                         row_pdf_path := pdf_path paper_id;
                         row_text_path := text_path paper_id;
                         row_word_count := word_count text;
                         row_abstract := result_summary result;
                         row_version := v |} in
                    let (w, appended) := writerow w row in
                    match appended with
                    | Raises => (w, None)
                    | Returns _ => (w, Some row)
                    end
                end
            end
        end
    end.

(** The loop over the results of one category; [rows] are the rows
    written so far and [count] those of the category. *)
Fixpoint category_loop (category : string) (target : nat) (results : list Result)
    (w : World) (rows : list Row) (count : nat) : World * list Row :=
  match results with
  | [] => (w, rows)
  | result :: results' =>
      if (target <=? count)%nat then (w, rows)
      else
        match try_result category w result with
        | (w', Some row) =>
            category_loop category target results' w' (rows ++ [row])%list (S count)
        | (w', None) => category_loop category target results' w' rows count
        end
  end.

Definition category_pass (st : World * list Row) (entry : string * nat)
  : World * list Row :=
  category_loop (fst entry) (snd entry)
    (client_results (fst st) (fst entry) (snd entry)) (fst st) (snd st) 0.

(** [download_papers]: the world it leaves, and the rows it appended to
    [metadata.csv]. *)
Definition download_papers (w : World) : World * outcome (list Row) :=
  let (w, opened) := open_append w METADATA_PATH in
  match opened with
  | Raises => (w, Raises)
  | Returns _ =>
      let st := fold_left category_pass CATEGORIES (w, []) in
      (fst st, Returns (snd st))
  end.

End Papers.

End Download.

(* ================================================================== *)
(** * The vocabulary of the properties *)

Local Open Scope string_scope.

(** The characters of [l], last first, before those of [b]: the characters
    before the position once a piece has consumed [l]. *)
Fixpoint revapp (l b : string) : string :=
  match l with
  | "" => b
  | String c l' => revapp l' (String c b)
  end.

(** [t] holds an opening delimiter and, after it, a closing one. *)
Definition has_block (open close t : string) : Prop :=
  exists pre body post, t = pre ++ open ++ body ++ close ++ post.

(** The raw equation syntax of the specification: a
    [\begin{equation}...\end{equation}] block, a [\[...\]] block or a
    [$...$] pair. *)
Definition raw_equation_syntax (t : string) : Prop :=
  has_block "\begin{equation}" "\end{equation}" t
  \/ has_block "\[" "\]" t
  \/ has_block "$" "$" t.

Definition example_text : string :=
  "The model achieves \[x^2 + y^2 = z^2\] accuracy of 95%. It outperforms baselines.".

Definition example_output : string :=
  "The model achieves [EQ_DISPLAY_1] accuracy of 95%. It outperforms baselines.".

Definition example_record (length : nat) : EquationRecord :=
  {| eq_placeholder := "[EQ_DISPLAY_1]";
     eq_equation := "x^2 + y^2 = z^2";
     eq_type := DISPLAY;
     eq_length := length |}.

(** The substitution the specification describes: the first occurrence of
    [old] becomes [new], the others stay. *)
Fixpoint replace_first (s old new : string) : string :=
  match Str.strip_prefix old s with
  | Some rest => new ++ rest
  | None =>
      match s with
      | "" => ""
      | String c s' => String c (replace_first s' old new)
      end
  end.

(** A continuation that does not look at what precedes the position. *)
Definition blind {R} (k : @Re.cont R) : Prop := forall b b' s, k b s = k b' s.

(** A continuation that treats a suffix [rest] of the subject as the end of
    the subject: it stops before [rest], and succeeds as it does without. *)
Definition stops_before {G} (rest : string) (k : Re.pattern G) : Prop :=
  forall b x,
    k b (x ++ rest)
    = match k b x with Some (g, r) => Some (g, r ++ rest) | None => None end.

(** What follows ["["] in [placeholder_re]. *)
Definition placeholder_tail : Re.pattern unit :=
  Re.lit "EQ_"
    (Re.plus Char.is_word
       (Re.lit "_" (Re.plus Char.is_digit (Re.lit "]" (Re.accept tt))))).

(** Text without an opening bracket has nothing to clean. *)
Definition no_bracket (s : string) : bool :=
  all_chars (fun c => negb (Ascii.eqb "[" c)) s.

Definition nl : string := String Char.newline "".

Definition digits (s : string) : Prop := all_chars Char.is_digit s = true.

(** [NNNN.NNNNN]: 4 digits, a dot, 4 or 5 digits. *)
Definition is_identifier (id : string) : Prop :=
  exists d4 d45,
    id = d4 ++ "." ++ d45
    /\ digits d4 /\ String.length d4 = 4
    /\ digits d45 /\ (String.length d45 = 4 \/ String.length d45 = 5).

(** The optional version suffix [vN]. *)
Definition is_version (ver : string) : Prop :=
  ver = "" \/ exists ds, ver = String "v" ds /\ ds <> "" /\ digits ds.

(** [filename] is some text, the identifier [id], an optional version and
    [.pdf], followed by [tail] only. *)
Definition identifier_before (tail filename id : string) : Prop :=
  exists pre ver,
    filename = pre ++ id ++ ver ++ ".pdf" ++ tail
    /\ is_identifier id /\ is_version ver.

(** The identifier pattern as the specification words it: the extension
    ends the file name. *)
Definition matches_identifier_pattern (filename id : string) : Prop :=
  identifier_before "" filename id.

(** The identifier pattern of the code: the extension ends the file name,
    or a line feed that ends the file name follows it. *)
Definition matches_arxiv_id_re (filename id : string) : Prop :=
  identifier_before "" filename id \/ identifier_before nl filename id.

(** The number of occurrences of a character, [s.count(c)]. *)
Fixpoint count_char (c : ascii) (s : string) : nat :=
  match s with
  | "" => 0
  | String d s' => (if Ascii.eqb d c then 1 else 0) + count_char c s'
  end.

(** The longest prefix made of digits. *)
Fixpoint digit_prefix (s : string) : string :=
  match s with
  | String c s' => if Char.is_digit c then String c (digit_prefix s') else ""
  | "" => ""
  end.

(** [u] is an identifier, an optional version and the extension, up to its
    end or to its final line feed. *)
Definition identifier_at (u id : string) : Prop :=
  exists ver tail,
    u = id ++ ver ++ ".pdf" ++ tail
    /\ is_identifier id /\ is_version ver /\ (tail = "" \/ tail = nl).

(** The placeholder tokens of a text, by the pattern with which the program
    itself recognises them. *)
Definition placeholders_in (t : string) : list string :=
  Re.findall placeholder_re t.

(** The bijection of the specification: each placeholder token of the text
    is the placeholder of exactly one record, and the placeholder of each
    record is exactly one token of the text. *)
Definition in_bijection (t : string) (eqs : list EquationRecord) : Prop :=
  (forall p, In p (placeholders_in t) ->
     count_occ string_dec (map eq_placeholder eqs) p = 1)
  /\ (forall r, In r eqs ->
        count_occ string_dec (placeholders_in t) (eq_placeholder r) = 1).

(** What the two loops keep true: the counter is one more than the number
    of records, and the records are numbered from 1 in the order of the
    list, each under its own kind. *)
Definition numbered (st : IsolatorState) : Prop :=
  counter st = S (List.length (equations st))
  /\ forall i r, nth_error (equations st) i = Some r ->
       eq_placeholder r = placeholder_of (eq_type r) (S i).

(** The pieces of a stretch of text without a match. *)
Fixpoint texts {G} (s : string) : list (Re.piece G) :=
  match s with
  | "" => []
  | String c s' => Re.Text c :: texts s'
  end.

(** [s.count(old)]: the number of substitutions [s.replace(old, new)]
    makes. *)
Definition occurrences (s old : string) : nat :=
  List.length (Re.finditer (Re.lit old (Re.accept tt)) s).

(** A character that can neither start nor continue a placeholder. *)
Definition breaker (c : ascii) : bool :=
  negb (Char.is_word c) && negb (Ascii.eqb "[" c) && negb (Ascii.eqb "]" c).

(** A matched text of one of the three patterns: it starts with a
    character that breaks a placeholder, and ends with such a character
    and characters other than ["["]. *)
Definition fenced (w : string) : Prop :=
  exists c0 u c1 close,
    w = String c0 u ++ String c1 close
    /\ breaker c0 = true /\ breaker c1 = true /\ no_bracket close = true.

(** A substitution as the specification pictures it: the matched text
    occurs once in the current text and holds no placeholder token. *)
Definition clean_match (st : IsolatorState) (m : string * string) : Prop :=
  occurrences (text st) (fst m) = 1 /\ placeholders_in (fst m) = [].

Fixpoint clean_matches (t : EqType) (st : IsolatorState)
    (ms : list (string * string)) : Prop :=
  match ms with
  | [] => True
  | m :: ms' => clean_match st m /\ clean_matches t (isolate_match t st m) ms'
  end.

Fixpoint clean_passes (st : IsolatorState)
    (ps : list (Re.pattern string * EqType)) : Prop :=
  match ps with
  | [] => True
  | p :: ps' =>
      clean_matches (snd p) st (Re.finditer (fst p) (text st))
      /\ clean_passes (isolate_pass st p) ps'
  end.

(** A run on a text without placeholder tokens in which every substitution
    is clean. *)
Definition clean_run (t : string) : Prop :=
  placeholders_in t = []
  /\ clean_passes {| text := t; equations := []; counter := 1 |}
       equation_patterns.

(** What a clean run keeps true: the placeholder tokens of the text are the
    placeholders of the records, in some order. *)
Definition accounted (st : IsolatorState) : Prop :=
  Permutation (placeholders_in (text st)) (map eq_placeholder (equations st)).

(** The lookup fails: the service raises, or it has no result. *)
Definition lookup_fails (arxiv_results : string -> outcome (list ArxivResult))
    (id : string) : Prop :=
  arxiv_results id = Raises \/ arxiv_results id = Returns [].

(** The rows one entry of the directory adds to the table: the record of
    a PDF whose processing returns, nothing otherwise. *)
Definition rows_of {R} (process : string -> outcome R) (filename : string)
  : list R :=
  if Str.endswith filename ".pdf" then
    match process filename with
    | Returns r => [r]
    | Raises => []
    end
  else [].

(** The variables of [preserve_equations] after the first [k] patterns. *)
Definition after_passes (k : nat) (t : string) : IsolatorState :=
  fold_left isolate_pass (firstn k equation_patterns)
    {| text := t; equations := []; counter := 1 |}.

(** The last character of [s] is in the class [p]. *)
Fixpoint last_is (p : ascii -> bool) (s : string) : bool :=
  match s with
  | "" => false
  | String c "" => p c
  | String _ s' => last_is p s'
  end.

(** The texts [cs] with the separators [seps] put back between them. *)
Fixpoint weave (cs seps : list string) : string :=
  match cs, seps with
  | c :: cs', sep :: seps' => c ++ sep ++ weave cs' seps'
  | c :: _, [] => c
  | [], _ => ""
  end.

(** A run of whitespace. *)
Definition blank (s : string) : Prop :=
  s <> "" /\ all_chars Char.is_space s = true.

(** The longest prefix of [s] in the class [p], and what follows it. *)
Fixpoint run (p : ascii -> bool) (s : string) : string :=
  match s with
  | String c s' => if p c then String c (run p s') else ""
  | "" => ""
  end.

Fixpoint after (p : ascii -> bool) (s : string) : string :=
  match s with
  | String c s' => if p c then after p s' else s
  | "" => ""
  end.

(** No character of [s] is a digit. *)
Definition no_digit (s : string) : Prop :=
  all_chars (fun c => negb (Char.is_digit c)) s = true.

(** The hyphen, as [is_word_or_hyphen] tests it. *)
Definition is_hyphen (c : ascii) : bool := Nat.eqb (Char.code c) 45.

(** The maximal runs of characters of the class [p]. *)
Fixpoint runs (p : ascii -> bool) (s : string) : list string :=
  match s with
  | "" => []
  | String c s' =>
      if p c then
        if Re.first_is p s' then
          match runs p s' with
          | w :: ws => String c w :: ws
          | [] => [String c ""]
          end
        else String c "" :: runs p s'
      else runs p s'
  end.

(** [s] without the characters of the class [p] at its end. *)
Fixpoint rtrim (p : ascii -> bool) (s : string) : string :=
  match s with
  | "" => ""
  | String c s' =>
      match rtrim p s' with
      | "" => if p c then "" else String c ""
      | r => String c r
      end
  end.

(** A run without the hyphens at its two ends. *)
Definition trim_hyphens (w : string) : string :=
  rtrim is_hyphen (after is_hyphen w).

(** The words of a text, read off the text: the maximal runs of word
    characters and hyphens, without the hyphens at their ends, where
    something is left. *)
Definition words_of (s : string) : list string :=
  filter (fun w => negb (String.eqb w ""))
    (map trim_hyphens (runs Char.is_word_or_hyphen s)).

(** Where the scan of [word_re] can stand: no word character precedes, or
    no character of a word follows. *)
Definition between_words (b s : string) : Prop :=
  Re.first_is Char.is_word b = false
  \/ Re.first_is Char.is_word_or_hyphen s = false.

(** The rows of a category. *)
Definition rows_in (category : string) (rows : list Download.Row)
  : list Download.Row :=
  filter (fun r => String.eqb (Download.row_category r) category) rows.

(** The sum of the targets a list of categories gives a category. *)
Definition budget (category : string) (cats : list (string * nat)) : nat :=
  list_sum (map snd (filter (fun e => String.eqb (fst e) category) cats)).

(** A world of files: the paths that exist.  A download and a write add
    their path, unless they raise: downloads of papers without summary
    raise, and so do writes of empty texts. *)
Definition files_exists (w : list string) (p : string) : bool :=
  existsb (String.eqb p) w.

Definition files_download (w : list string) (r : Download.Result)
    (dir name : string) : list string * outcome unit :=
  match Download.result_summary r with
  | "" => (w, Raises)
  | _ => (path_join dir name :: w, Returns tt)
  end.

Definition files_write (w : list string) (p text : string)
  : list string * outcome unit :=
  match text with
  | "" => (w, Raises)
  | _ => (p :: w, Returns tt)
  end.

Definition sample_result (id : string) : Download.Result :=
  {| Download.result_short_id := id;
     Download.result_title := "A paper";
     Download.result_authors := ["A. Author"; "B. Author"];
     Download.result_date := "2024-05-17";
     Download.result_summary := "An abstract.";
     Download.result_entry_id := "http://arxiv.org/abs/" ++ id |}.

(** The papers of a sample world: one paper that every search yields
    twice, and one more for each category. *)
Definition sample_results (category : string) : list Download.Result :=
  [ sample_result "2405.00001v1"; sample_result "2405.00001v1";
    sample_result ("2405.1" ++ category ++ "v2") ].

(** What the loops of [download_papers] keep true with a file system that
    behaves: no two rows are for the same paper, and the two files of
    every row exist. *)
Definition recorded {World} (path_exists : World -> string -> bool)
    (w : World) (rows : list Download.Row) : Prop :=
  NoDup (map Download.row_arxiv_id rows)
  /\ forall r, In r rows ->
       path_exists w (Download.pdf_path (Download.row_arxiv_id r)) = true
       /\ path_exists w (Download.text_path (Download.row_arxiv_id r)) = true.

(** The record of a pair of dollars with nothing between them. *)
Definition empty_inline (n : nat) : EquationRecord :=
  {| eq_placeholder := placeholder_of INLINE n;
     eq_equation := "";
     eq_type := INLINE;
     eq_length := 0 |}.

(* ================================================================== *)
(** * Properties *)

(** ** Strings *)

Lemma append_nil_r (s : string) : (s ++ "")%string = s.
Proof. induction s as [|c s IH]; simpl; [reflexivity | now rewrite IH]. Qed.

Lemma append_assoc (s t u : string) : ((s ++ t) ++ u = s ++ t ++ u)%string.
Proof. induction s as [|c s IH]; simpl; [reflexivity | now rewrite IH]. Qed.

Lemma length_append (s t : string) :
  String.length (s ++ t)%string = String.length s + String.length t.
Proof. induction s as [|c s IH]; simpl; [reflexivity | now rewrite IH]. Qed.

Lemma append_cancel_l (s t u : string) : (s ++ t = s ++ u)%string -> t = u.
Proof.
  induction s as [|c s IH]; simpl; intros H; [exact H|].
  injection H as H. now apply IH.
Qed.

(** ** The scan of a subject *)

Section Scan.
Context {G : Type} (m : Re.pattern G).

(** Where [re.search] finds nothing, [re.finditer] finds nothing. *)
Lemma search_none_hits (s b : string) :
  Re.search_from m b s = None -> Re.hits (Re.scan_from m 0 b s) = [].
Proof.
  revert b. induction s as [|c s IH]; intros b H; [reflexivity|].
  simpl in H |- *. destruct (m b (String c s)) as [[g r]|]; [discriminate|].
  simpl. now apply IH.
Qed.

Lemma search_none_finditer (s : string) :
  Re.search m s = None -> Re.finditer m s = [].
Proof. apply search_none_hits. Qed.

(** A position at which the pattern matches makes [re.search] succeed. *)
Lemma search_from_some (pre s b : string) :
  (forall b', m b' s <> None) -> Re.search_from m b (pre ++ s)%string <> None.
Proof.
  intros Hm. revert b. induction pre as [|c pre IH]; intros b; simpl.
  - destruct s as [|c s]; simpl; specialize (Hm b);
      destruct (m b _); congruence.
  - destruct (m b (String c (pre ++ s))); [congruence | apply IH].
Qed.

(** What [re.search] returns is a match of the pattern at some position. *)
Lemma search_from_inv (s b : string) (r : G * string) :
  Re.search_from m b s = Some r ->
  exists pre s' b', s = (pre ++ s')%string /\ m b' s' = Some r.
Proof.
  revert b. induction s as [|c s IH]; intros b; simpl.
  - destruct (m b "") eqn:E; [|discriminate].
    intros [= <-]. now exists "", "", b.
  - destruct (m b (String c s)) eqn:E.
    + intros [= <-]. now exists "", (String c s), b.
    + intros H. destruct (IH _ H) as (pre & s' & b' & -> & H').
      now exists (String c pre), s', b'.
Qed.
End Scan.

(** ** The pieces of a pattern *)

Local Open Scope string_scope.

Section PieceFacts.
Context {R : Type}.
Implicit Types (k : @Re.cont R) (p : ascii -> bool).

Lemma lit_app l k b s : Re.lit l k b (l ++ s) = k (revapp l b) s.
Proof.
  revert b. induction l as [|c l IH]; intros b; simpl; [reflexivity|].
  now rewrite Ascii.eqb_refl, IH.
Qed.

Lemma lit_inv l k b s r :
  Re.lit l k b s = Some r ->
  exists s', s = l ++ s' /\ k (revapp l b) s' = Some r.
Proof.
  revert b s. induction l as [|c l IH]; intros b s; simpl.
  - intros H. now exists s.
  - unfold Re.chr at 1. destruct s as [|d s]; [discriminate|].
    destruct (Ascii.eqb_spec c d) as [<-|]; [|discriminate].
    intros H. destruct (IH _ _ H) as (s' & -> & H'). now exists s'.
Qed.

Lemma lazy_star_inv p k s : forall b r,
  Re.lazy_star p k b s = Some r ->
  exists body s',
    s = body ++ s' /\ all_chars p body = true /\ k (revapp body b) s' = Some r.
Proof.
  induction s as [|c s IH]; intros b r; simpl.
  - destruct (k b "") eqn:E; [|discriminate].
    intros [= <-]. now exists "", "".
  - destruct (k b (String c s)) eqn:E.
    + intros [= <-]. now exists "", (String c s).
    + destruct (p c) eqn:Ep; [|discriminate]. intros H.
      destruct (IH _ _ H) as (body & s' & -> & Hall & Hk).
      exists (String c body), s'. simpl. now rewrite Ep.
Qed.

Lemma lazy_star_some p k body s : forall b,
  all_chars p body = true ->
  k (revapp body b) s <> None ->
  Re.lazy_star p k b (body ++ s) <> None.
Proof.
  induction body as [|c body IH]; intros b Hall Hk; simpl in *.
  - destruct s; simpl; destruct (k b _); congruence.
  - apply andb_prop in Hall as [Hc Hall]. rewrite Hc.
    destruct (k b _); [congruence | now apply IH].
Qed.
End PieceFacts.

Lemma all_chars_any s : all_chars Char.any s = true.
Proof. induction s; simpl; auto. Qed.

Lemma take_length_app (s t : string) : Str.take (String.length s) (s ++ t) = s.
Proof. induction s as [|c s IH]; simpl; [now destruct t | now rewrite IH]. Qed.

Lemma take_app (s t : string) :
  Str.take (String.length (s ++ t) - String.length t) (s ++ t) = s.
Proof.
  rewrite length_append, Nat.add_sub.
  induction s as [|c s IH]; simpl.
  - destruct t; reflexivity.
  - now rewrite IH.
Qed.

(** ** Equation-free text (C4, C10) *)

(** A match of a delimited pattern is a block: the two delimiters around
    group 1. *)
Lemma delimited_inv open close b s g r :
  delimited open close b s = Some (g, r) ->
  s = open ++ g ++ close ++ r.
Proof.
  unfold delimited. intros H.
  apply lit_inv in H as (s1 & -> & H). unfold Re.group in H.
  apply lazy_star_inv in H as (body & s2 & -> & _ & H).
  apply lit_inv in H as (s3 & -> & H). unfold Re.accept in H.
  injection H as <- <-. now rewrite take_app.
Qed.

Lemma delimited_some open close b body post :
  delimited open close b (open ++ body ++ close ++ post) <> None.
Proof.
  unfold delimited. rewrite lit_app. unfold Re.group.
  apply lazy_star_some; [apply all_chars_any|].
  rewrite lit_app. discriminate.
Qed.

Lemma search_delimited_none open close t :
  Re.search (delimited open close) t = None <-> ~ has_block open close t.
Proof.
  split.
  - intros H (pre & body & post & ->). revert H.
    apply search_from_some. intros b. apply delimited_some.
  - intros H. destruct (Re.search _ t) as [[g r]|] eqn:E; [|reflexivity].
    exfalso. apply H.
    apply search_from_inv in E as (pre & s' & b' & -> & E).
    apply delimited_inv in E. exists pre, g, r. now rewrite E.
Qed.

Lemma isolate_pass_no_match st p :
  Re.search (fst p) (text st) = None -> isolate_pass st p = st.
Proof.
  intros H. unfold isolate_pass. now rewrite (search_none_finditer _ _ H).
Qed.

Lemma preserve_equations_no_match t :
  (forall p, In p equation_patterns -> Re.search (fst p) t = None) ->
  preserve_equations t = (t, []).
Proof.
  intros H. unfold preserve_equations.
  assert (E : fold_left isolate_pass equation_patterns
                {| text := t; equations := []; counter := 1 |}
              = {| text := t; equations := []; counter := 1 |}).
  { revert H. generalize equation_patterns as ps.
    induction ps as [|p ps IH]; intros H; [reflexivity|]. simpl.
    rewrite isolate_pass_no_match by (apply H; now left).
    apply IH. intros q Hq. apply H. now right. }
  now rewrite E.
Qed.

(** C10.  Where none of the three equation patterns matches, the text comes
    back as it was and the list of equations is empty. *)
Theorem C10_equation_free_text_unchanged (t : string) :
  (forall p, In p equation_patterns -> Re.search (fst p) t = None) ->
  preserve_equations t = (t, []).
Proof. apply preserve_equations_no_match. Qed.

Lemma C10_witness :
  (forall p, In p equation_patterns ->
     Re.search (fst p) "Readability of 95% [sic], at a cost of 3 $." = None)
  /\ preserve_equations "Readability of 95% [sic], at a cost of 3 $."
     = ("Readability of 95% [sic], at a cost of 3 $.", []).
Proof.
  assert (H : forall p, In p equation_patterns ->
            Re.search (fst p) "Readability of 95% [sic], at a cost of 3 $." = None).
  { intros p [<-|[<-|[<-|[]]]]; vm_compute; reflexivity. }
  split; [exact H|].
  apply (C10_equation_free_text_unchanged _ H).
Defined.

Lemma no_raw_syntax_no_match t :
  ~ raw_equation_syntax t ->
  forall p, In p equation_patterns -> Re.search (fst p) t = None.
Proof.
  intros H p [<-|[<-|[<-|[]]]]; simpl fst; apply search_delimited_none;
    intros Hb; apply H; unfold raw_equation_syntax; auto.
Qed.

Lemma no_match_no_raw_syntax t :
  (forall p, In p equation_patterns -> Re.search (fst p) t = None) ->
  ~ raw_equation_syntax t.
Proof.
  intros H [Hb|[Hb|Hb]]; revert Hb; apply search_delimited_none;
    [apply (H (delimited "\begin{equation}" "\end{equation}", DISPLAY))
    |apply (H (delimited "\[" "\]", DISPLAY))
    |apply (H (delimited "$" "$", INLINE))]; simpl; auto.
Qed.

(** C4.  On a text without raw equation syntax, such as one in which the
    equations are already placeholders, the isolator returns the text
    itself and no equation. *)
Theorem C4_idempotent_on_placeholder_text (t : string) :
  ~ raw_equation_syntax t -> preserve_equations t = (t, []).
Proof.
  intros H. apply preserve_equations_no_match. now apply no_raw_syntax_no_match.
Qed.

Lemma C4_witness :
  ~ raw_equation_syntax "By [EQ_DISPLAY_1] and [EQ_INLINE_2], [EQ_INLINE_3] holds."
  /\ preserve_equations "By [EQ_DISPLAY_1] and [EQ_INLINE_2], [EQ_INLINE_3] holds."
     = ("By [EQ_DISPLAY_1] and [EQ_INLINE_2], [EQ_INLINE_3] holds.", []).
Proof.
  assert (H : ~ raw_equation_syntax
                "By [EQ_DISPLAY_1] and [EQ_INLINE_2], [EQ_INLINE_3] holds.").
  { apply no_match_no_raw_syntax.
    intros p [<-|[<-|[<-|[]]]]; vm_compute; reflexivity. }
  split; [exact H|].
  apply (C4_idempotent_on_placeholder_text _ H).
Defined.

(** ** The example of the specification (C1) *)

(** C1, as stated: the record of the example does not have length 7. *)
Lemma C1_length_is_not_7 :
  preserve_equations example_text <> (example_output, [example_record 7]).
Proof. vm_compute. intros H. discriminate H. Qed.

(** C1, amended.  On the example the isolator returns the text with
    [[EQ_DISPLAY_1]] in place of the block, and one record: that
    placeholder, the body [x^2 + y^2 = z^2], the kind DISPLAY and the
    length 5, the number of whitespace-separated tokens of the body. *)
Theorem C1_example_length_5 :
  preserve_equations example_text = (example_output, [example_record 5]).
Proof. vm_compute. reflexivity. Qed.

(** ** Repeated equations (C2) *)

(** C2.  On [$x$ and $x$] the substitution for the first match replaces
    both occurrences of [$x$], where replacing the first occurrence would
    leave the second; the record of the second match then names a
    placeholder that the text does not hold. *)
Theorem C2_every_occurrence_replaced :
  let st := {| text := "$x$ and $x$"; equations := []; counter := 1 |} in
  Re.finditer (delimited "$" "$") (text st) = [("$x$", "x"); ("$x$", "x")]
  /\ text (isolate_match INLINE st ("$x$", "x")) = "[EQ_INLINE_1] and [EQ_INLINE_1]"
  /\ replace_first (text st) "$x$" "[EQ_INLINE_1]" = "[EQ_INLINE_1] and $x$"
  /\ preserve_equations "$x$ and $x$"
     = ("[EQ_INLINE_1] and [EQ_INLINE_1]",
        [ {| eq_placeholder := "[EQ_INLINE_1]"; eq_equation := "x";
             eq_type := INLINE; eq_length := 1 |};
          {| eq_placeholder := "[EQ_INLINE_2]"; eq_equation := "x";
             eq_type := INLINE; eq_length := 1 |} ]).
Proof. vm_compute. repeat split. Qed.

(** ** Sentences and their average length (C5, C6) *)

Arguments word_count {score} m.
Arguments sentence_count {score} m.
Arguments avg_sentence_length {score} m.

Section ReadabilityFacts.
Variable score : Type.
Variables fre fog smog : string -> score.

Lemma calculate_readability_returns (t : string) :
  exists m,
    calculate_readability score fre fog smog t = Returns m
    /\ word_count m = List.length (words t)
    /\ sentence_count m = List.length (sentences t)
    /\ avg_sentence_length m
       = match sentences t with
         | _ :: _ =>
             Float (Z.of_nat (List.length (words t))
                    # Pos.of_nat (List.length (sentences t)))
         | [] => Int 0
         end.
Proof.
  unfold calculate_readability.
  destruct (sentences t) as [|s l] eqn:E; simpl; eexists; repeat split.
Qed.
End ReadabilityFacts.

(** C5, as stated: a candidate of exactly 10 characters is discarded,
    though it is neither shorter than 10 nor longer than 500. *)
Lemma C5_ten_characters_discarded :
  candidate_sentences "Ten chars." = ["Ten chars."]
  /\ sentences "Ten chars." = []
  /\ ~ (kept "Ten chars." = false
        <-> String.length "Ten chars." < 10 \/ 500 < String.length "Ten chars.").
Proof.
  repeat split; try (vm_compute; reflexivity).
  intros [H _]. specialize (H eq_refl). vm_compute in H. lia.
Qed.

(** C5, amended.  A candidate sentence is discarded if and only if it has
    at most 10 or at least 500 characters, and the sentence count is the
    number of candidates that are kept: those of 11 to 499 characters. *)
Theorem C5_discarded_iff (score : Type) (fre fog smog : string -> score)
    (t : string) :
  (forall s, kept s = false <-> String.length s <= 10 \/ 500 <= String.length s)
  /\ (forall s, In s (candidate_sentences t) /\ 10 < String.length s < 500 ->
                In (Str.strip s) (sentences t))
  /\ (forall m, calculate_readability score fre fog smog t = Returns m ->
        sentence_count m = List.length (filter kept (candidate_sentences t))).
Proof.
  split; [|split].
  - intros s. unfold kept.
    rewrite andb_false_iff, !Nat.ltb_ge. reflexivity.
  - intros s [Hin Hlen]. unfold sentences. apply in_map, filter_In.
    split; [exact Hin|]. unfold kept.
    apply andb_true_intro. split; apply Nat.ltb_lt; lia.
  - intros m Hm.
    destruct (calculate_readability_returns score fre fog smog t)
      as (m' & Hm' & _ & Hs & _).
    rewrite Hm in Hm'. injection Hm' as <-.
    rewrite Hs. unfold sentences. apply length_map.
Qed.

(** C6.  [calculate_readability] returns; its average sentence length is
    the quotient of the word count by the sentence count when there is a
    sentence, and 0, which equals 0.0, when there is none: the division is
    never by zero. *)
Theorem C6_avg_sentence_length (score : Type) (fre fog smog : string -> score)
    (t : string) :
  exists m,
    calculate_readability score fre fog smog t = Returns m
    /\ (0 < sentence_count m ->
        avg_sentence_length m
        = Float (Z.of_nat (word_count m) # Pos.of_nat (sentence_count m))
        /\ true_div (word_count m) (sentence_count m)
           = Returns (avg_sentence_length m))
    /\ (sentence_count m = 0 ->
        avg_sentence_length m = Int 0
        /\ (number_value (avg_sentence_length m) == 0)%Q).
Proof.
  destruct (calculate_readability_returns score fre fog smog t)
    as (m & Hm & Hw & Hs & Ha).
  exists m. split; [exact Hm|]. rewrite Hw, Hs, Ha.
  destruct (sentences t) as [|s l]; simpl List.length; split.
  - intros H. inversion H.
  - intros _. split; reflexivity.
  - intros _. split; reflexivity.
  - discriminate.
Qed.

(** ** Placeholders and the word count (C7) *)

Lemma digit_is_word c : Char.is_digit c = true -> Char.is_word c = true.
Proof. destruct c as [[] [] [] [] [] [] [] []]; vm_compute; congruence. Qed.

Lemma digit_not_underscore c : Char.is_digit c = true -> Ascii.eqb "_" c = false.
Proof. destruct c as [[] [] [] [] [] [] [] []]; vm_compute; congruence. Qed.

Lemma of_nat_digits n : all_chars Char.is_digit (Str.of_nat n) = true.
Proof.
  unfold Str.of_nat. induction (Nat.to_uint n); simpl; auto.
Qed.

Lemma of_nat_not_empty n : Str.of_nat n <> "".
Proof.
  unfold Str.of_nat. intros H.
  assert (E : Nat.to_uint n = Decimal.Nil) by (destruct (Nat.to_uint n); now inversion H).
  pose proof (Unsigned.to_of (Nat.to_uint n)) as T.
  rewrite Unsigned.of_to, E in T. discriminate T.
Qed.

Section Blind.
Context {R : Type}.
Implicit Types (k : @Re.cont R) (p : ascii -> bool).

Lemma blind_chr p k : blind k -> blind (Re.chr p k).
Proof. intros H b b' [|c s]; simpl; [reflexivity|]. destruct (p c); auto. Qed.

Lemma blind_lit l k : blind k -> blind (Re.lit l k).
Proof. induction l; simpl; auto using blind_chr. Qed.

Lemma blind_star p k : blind k -> blind (Re.star p k).
Proof.
  intros H b b' s. revert b b'. induction s as [|c s IH]; intros b b'; simpl.
  - apply H.
  - destruct (p c); [|apply H].
    rewrite (IH (String c b) (String c b')), (H b b'). reflexivity.
Qed.

Lemma blind_plus p k : blind k -> blind (Re.plus p k).
Proof. intros H. apply blind_chr, blind_star, H. Qed.
End Blind.

Lemma scan_from_blind {G} (m : Re.pattern G) :
  blind m -> forall s skip b b', Re.scan_from m skip b s = Re.scan_from m skip b' s.
Proof.
  intros H. induction s as [|c s IH]; intros skip b b'; simpl; [reflexivity|].
  destruct skip as [|k]; [|apply IH].
  rewrite (H b b'). destruct (m b' _) as [[g r]|]; f_equal; apply IH.
Qed.

Section StopsBefore.
Context {G : Type} (c0 : ascii) (rest0 : string).
Let rest := String c0 rest0.
Implicit Types (k : Re.pattern G) (p : ascii -> bool).

Lemma stops_accept (g : G) : stops_before rest (Re.accept g).
Proof. intros b x. reflexivity. Qed.

Lemma stops_chr p k :
  p c0 = false -> stops_before rest k -> stops_before rest (Re.chr p k).
Proof.
  intros Hp Hk b [|c x]; simpl.
  - now rewrite Hp.
  - destruct (p c); [apply Hk | reflexivity].
Qed.

Lemma stops_lit l k :
  all_chars (fun c => negb (Ascii.eqb c c0)) l = true ->
  stops_before rest k -> stops_before rest (Re.lit l k).
Proof.
  induction l as [|c l IH]; simpl; intros Hl Hk; [exact Hk|].
  apply andb_prop in Hl as [Hc Hl].
  apply stops_chr; [now apply negb_true_iff | now apply IH].
Qed.

Lemma stops_star p k :
  p c0 = false -> stops_before rest k -> stops_before rest (Re.star p k).
Proof.
  intros Hp Hk b x. revert b. induction x as [|c x IH]; intros b.
  - change ("" ++ rest) with rest. unfold rest at 1. simpl. rewrite Hp.
    apply (Hk b "").
  - simpl. destruct (p c); [|apply (Hk b (String c x))].
    rewrite IH. destruct (Re.star p k (String c b) x) as [[g r]|];
      [reflexivity | apply (Hk b (String c x))].
Qed.

Lemma stops_plus p k :
  p c0 = false -> stops_before rest k -> stops_before rest (Re.plus p k).
Proof. intros Hp Hk. now apply stops_chr, stops_star. Qed.
End StopsBefore.

Lemma take_le (n : nat) (a rest : string) :
  n <= String.length a -> Str.take n (a ++ rest) = Str.take n a.
Proof.
  revert n. induction a as [|c a IH]; intros [|n] H; simpl in *;
    try reflexivity; try lia.
  rewrite IH by lia. reflexivity.
Qed.

Section ScanAppend.
Context {G : Type} (m : Re.pattern G) (rest : string).

(** Before [rest] the pattern matches as if the subject ended there. *)
Hypothesis m_stops :
  forall b x, x <> "" ->
    m b (x ++ rest)
    = match m b x with Some (g, r) => Some (g, r ++ rest) | None => None end.

Lemma scan_from_app (a : string) : forall skip b,
  skip <= String.length a ->
  Re.scan_from m skip b (a ++ rest)
  = (Re.scan_from m skip b a ++ Re.scan_from m 0 (revapp a b) rest)%list.
Proof.
  induction a as [|c a IH]; intros skip b Hs.
  - cbn [String.length] in Hs. assert (skip = 0) as -> by lia. reflexivity.
  - cbn [String.length] in Hs.
    change (String c a ++ rest) with (String c (a ++ rest)).
    cbn [Re.scan_from revapp].
    destruct skip as [|k]; [|apply IH; lia].
    change (String c (a ++ rest)) with (String c a ++ rest).
    rewrite (m_stops b (String c a)) by discriminate.
    destruct (m b (String c a)) as [[g r]|].
    + assert (E : String.length (String c a ++ rest) - String.length (r ++ rest)
                  = String.length (String c a) - String.length r)
        by (rewrite !length_append; lia).
      rewrite E. cbn [app]. f_equal.
      * f_equal. apply take_le. lia.
      * apply IH. cbn [String.length]. lia.
    + cbn [app]. f_equal. apply IH. lia.
Qed.
End ScanAppend.

Section ScanHit.
Context {G : Type} (m : Re.pattern G).

Lemma scan_from_skip (w s : string) : forall b,
  Re.scan_from m (String.length w) b (w ++ s) = Re.scan_from m 0 (revapp w b) s.
Proof.
  induction w as [|c w IH]; intros b; simpl; [|apply IH].
  destruct s; reflexivity.
Qed.

(** A match at the start of the subject is the first piece of its scan. *)
Lemma scan_from_hit (w s b : string) (g : G) :
  w <> "" -> m b (w ++ s) = Some (g, s) ->
  Re.scan_from m 0 b (w ++ s) = Re.Hit w g :: Re.scan_from m 0 (revapp w b) s.
Proof.
  destruct w as [|c w]; [congruence|]. intros _ H.
  change (String c w ++ s) with (String c (w ++ s)) in *.
  cbn [Re.scan_from]. rewrite H.
  assert (E : String.length (String c (w ++ s)) - String.length s
              = S (String.length w))
    by (cbn [String.length]; rewrite length_append; lia).
  rewrite E. cbn [revapp Str.take].
  replace (S (String.length w) - 1) with (String.length w) by lia.
  now rewrite scan_from_skip, take_length_app.
Qed.
End ScanHit.

Lemma subst_app {G} (repl : G -> string) (l l' : list (Re.piece G)) :
  Re.subst repl (l ++ l')%list = Re.subst repl l ++ Re.subst repl l'.
Proof.
  induction l as [|[c|w g] l IH]; simpl; [reflexivity| |];
    now rewrite IH, ?append_assoc.
Qed.

Lemma placeholder_re_blind : blind placeholder_re.
Proof.
  unfold placeholder_re.
  repeat first [apply blind_lit | apply blind_plus].
  intros b b' s. reflexivity.
Qed.

Lemma placeholder_tail_stops rest0 :
  stops_before (String "[" rest0) placeholder_tail.
Proof.
  unfold placeholder_tail.
  repeat first [apply stops_lit; [reflexivity|]
               | apply stops_plus; [reflexivity|]
               | apply stops_accept].
Qed.

Lemma placeholder_re_stops rest0 b x :
  x <> "" ->
  placeholder_re b (x ++ String "[" rest0)
  = match placeholder_re b x with
    | Some (g, r) => Some (g, r ++ String "[" rest0)
    | None => None
    end.
Proof.
  destruct x as [|c x]; [congruence|]. intros _.
  change placeholder_re with (Re.chr (Ascii.eqb "[") placeholder_tail).
  change (String c x ++ String "[" rest0) with (String c (x ++ String "[" rest0)).
  unfold Re.chr. destruct (Ascii.eqb "[" c); [|reflexivity].
  apply placeholder_tail_stops.
Qed.

Section Greedy.
Context {R : Type}.
Implicit Types (k : @Re.cont R) (p : ascii -> bool).

(** A greedy star passes a run of the class if it succeeds after it. *)
Lemma star_prefix p k w s r : forall b,
  all_chars p w = true ->
  Re.star p k (revapp w b) s = Some r ->
  Re.star p k b (w ++ s) = Some r.
Proof.
  induction w as [|c w IH]; intros b Hw H; simpl in *; [exact H|].
  apply andb_prop in Hw as [Hc Hw]. rewrite Hc.
  now rewrite (IH (String c b) Hw H).
Qed.

(** It gives back the whole run when its continuation asks for a
    character that is neither in the run nor after it. *)
Lemma star_run_none p q k w c s : forall b,
  all_chars (fun d => p d && negb (q d)) w = true ->
  p c = false -> q c = false ->
  Re.star p (Re.chr q k) b (w ++ String c s) = None.
Proof.
  induction w as [|d w IH]; intros b Hw Hp Hc; simpl in *.
  - now rewrite Hp, Hc.
  - apply andb_prop in Hw as [Hd Hw]. apply andb_prop in Hd as [Hpd Hq].
    rewrite Hpd, (IH (String d b) Hw Hp Hc).
    apply negb_true_iff in Hq. now rewrite Hq.
Qed.

(** It takes the whole run when the continuation succeeds after it. *)
Lemma star_run p k w c s r : forall b,
  all_chars p w = true ->
  p c = false ->
  k (revapp w b) (String c s) = Some r ->
  Re.star p k b (w ++ String c s) = Some r.
Proof.
  intros b Hw Hp Hk. apply star_prefix; [exact Hw|].
  simpl. now rewrite Hp.
Qed.
End Greedy.

Lemma all_chars_weaken (p q : ascii -> bool) (s : string) :
  (forall c, p c = true -> q c = true) ->
  all_chars p s = true -> all_chars q s = true.
Proof.
  intros H. induction s as [|c s IH]; simpl; [reflexivity|].
  intros Hs. apply andb_prop in Hs as [Hc Hs]. now rewrite (H c Hc), IH.
Qed.

(** [placeholder_re] matches a generated placeholder, and all of it. *)
Lemma placeholder_re_placeholder (ty : EqType) (n : nat) (b r : string) :
  placeholder_re b (placeholder_of ty n ++ r) = Some (tt, r).
Proof.
  unfold placeholder_of.
  pose proof (of_nat_digits n) as Hd. pose proof (of_nat_not_empty n) as Hn.
  destruct (Str.of_nat n) as [|d ds]; [congruence|]. clear Hn.
  simpl in Hd. apply andb_prop in Hd as [Hd Hds].
  assert (Hw : all_chars (fun c => Char.is_word c && negb (Ascii.eqb "_" c))
                 (String d ds) = true).
  { apply (all_chars_weaken Char.is_digit); [|simpl; now rewrite Hd].
    intros c Hc. now rewrite (digit_is_word c Hc), (digit_not_underscore c Hc). }
  assert (Hk : forall b', Re.star Char.is_word
                 (Re.lit "_" (Re.plus Char.is_digit (Re.lit "]" (Re.accept tt)))) b'
                 (String "_" (String d ds ++ String "]" r)) = Some (tt, r)).
  { intros b'. cbn [Re.star]. change (Char.is_word "_") with true. cbv iota.
    change (Re.lit "_" ?k) with (Re.chr (Ascii.eqb "_") k).
    rewrite (star_run_none _ _ _ _ _ _ _ Hw) by reflexivity.
    unfold Re.chr at 1. change (Ascii.eqb "_" "_") with true. cbv iota.
    change (String d ds ++ String "]" r) with (String d (ds ++ String "]" r)).
    unfold Re.plus, Re.chr at 1. rewrite Hd.
    apply star_run; [exact Hds | reflexivity | reflexivity]. }
  unfold placeholder_re. rewrite !append_assoc. rewrite lit_app.
  destruct ty; cbn [type_name].
  - change ("DISPLAY" ++ ?s) with (String "D" ("ISPLAY" ++ s)).
    unfold Re.plus, Re.chr at 1. change (Char.is_word "D") with true. cbv iota.
    apply star_prefix; [reflexivity|]. apply Hk.
  - change ("INLINE" ++ ?s) with (String "I" ("NLINE" ++ s)).
    unfold Re.plus, Re.chr at 1. change (Char.is_word "I") with true. cbv iota.
    apply star_prefix; [reflexivity|]. apply Hk.
Qed.

Lemma placeholder_of_not_empty ty n : placeholder_of ty n <> "".
Proof. unfold placeholder_of. discriminate. Qed.

(** Cleaning removes a generated placeholder, wherever it stands, and
    cleans what precedes and what follows as it would on their own. *)
Lemma clean_text_placeholder (a b : string) (ty : EqType) (n : nat) :
  clean_text (a ++ placeholder_of ty n ++ b) = clean_text a ++ clean_text b.
Proof.
  unfold clean_text, Re.sub, Re.scan.
  assert (exists rest0, placeholder_of ty n ++ b = String "[" rest0)
    as [rest0 E] by (eexists; reflexivity).
  rewrite E, (scan_from_app placeholder_re _ (placeholder_re_stops rest0)), <- E
    by lia.
  rewrite subst_app. f_equal.
  rewrite (scan_from_hit placeholder_re _ _ _ tt (placeholder_of_not_empty ty n)
             (placeholder_re_placeholder ty n _ b)).
  cbn [Re.subst append].
  now rewrite (scan_from_blind placeholder_re placeholder_re_blind b 0 _ "").
Qed.

Lemma clean_text_plain (s : string) : no_bracket s = true -> clean_text s = s.
Proof.
  unfold clean_text, Re.sub, Re.scan, no_bracket. intros H.
  enough (E : forall b, Re.subst (fun _ : unit => "")
                          (Re.scan_from placeholder_re 0 b s) = s) by apply E.
  revert H. induction s as [|c s IH]; intros H b; [reflexivity|].
  cbn [all_chars] in H. apply andb_prop in H as [Hc Hs].
  apply negb_true_iff in Hc. cbn [Re.scan_from].
  change placeholder_re with (Re.chr (Ascii.eqb "[") placeholder_tail).
  unfold Re.chr at 1. rewrite Hc.
  change (Re.chr (Ascii.eqb "[") placeholder_tail) with placeholder_re.
  cbn [Re.subst]. now rewrite IH.
Qed.

(** C7.  A placeholder that [preserve_equations] can generate is removed
    before the words are counted, whatever surrounds it: the word count of
    a text holding it is the count over what is left of the rest, and over
    the rest itself when that holds no bracket. *)
Theorem C7_placeholders_not_counted (score : Type)
    (fre fog smog : string -> score) (a b : string) (ty : EqType) (n : nat) :
  clean_text (a ++ placeholder_of ty n ++ b) = clean_text a ++ clean_text b
  /\ (exists m,
        calculate_readability score fre fog smog (a ++ placeholder_of ty n ++ b)
        = Returns m
        /\ word_count m
           = List.length (Re.findall word_re (clean_text a ++ clean_text b)))
  /\ (no_bracket a = true -> no_bracket b = true ->
      words (a ++ placeholder_of ty n ++ b) = Re.findall word_re (a ++ b)).
Proof.
  split; [apply clean_text_placeholder|]. split.
  - destruct (calculate_readability_returns score fre fog smog
                (a ++ placeholder_of ty n ++ b)) as (m & Hm & Hw & _).
    exists m. split; [exact Hm|].
    rewrite Hw. unfold words. now rewrite clean_text_placeholder.
  - intros Ha Hb. unfold words.
    now rewrite clean_text_placeholder, !clean_text_plain.
Qed.

(** ** The identifier of a file name (C8) *)

Section Inversion.
Context {R : Type}.
Implicit Types (k : @Re.cont R) (p : ascii -> bool).

Lemma revapp_app (u v b : string) : revapp (u ++ v) b = revapp v (revapp u b).
Proof. revert b. induction u as [|c u IH]; intros b; simpl; auto. Qed.

Lemma all_chars_app p (u v : string) :
  all_chars p (u ++ v) = all_chars p u && all_chars p v.
Proof.
  induction u as [|c u IH]; simpl; [reflexivity|].
  now rewrite IH, andb_assoc.
Qed.

Lemma chr_inv p k b s r :
  Re.chr p k b s = Some r ->
  exists c s', s = String c s' /\ p c = true /\ k (String c b) s' = Some r.
Proof.
  unfold Re.chr. destruct s as [|c s]; [discriminate|].
  destruct (p c) eqn:E; [|discriminate]. intros H. now exists c, s.
Qed.

Lemma rep_inv p k n : forall b s r,
  Re.rep n p k b s = Some r ->
  exists w s',
    s = w ++ s' /\ String.length w = n /\ all_chars p w = true
    /\ k (revapp w b) s' = Some r.
Proof.
  induction n as [|n IH]; intros b s r H; cbn [Re.rep] in H.
  - now exists "", s.
  - apply chr_inv in H as (c & s1 & -> & Hc & H).
    apply IH in H as (w & s' & -> & <- & Hw & H).
    exists (String c w), s'. simpl. now rewrite Hc, Hw.
Qed.

Lemma upto_inv p k n : forall b s r,
  Re.upto n p k b s = Some r ->
  exists w s',
    s = w ++ s' /\ String.length w <= n /\ all_chars p w = true
    /\ k (revapp w b) s' = Some r.
Proof.
  induction n as [|n IH]; intros b s r H; cbn [Re.upto] in H.
  - exists "", s. simpl. auto.
  - destruct (Re.chr p (Re.upto n p k) b s) eqn:E.
    + injection H as ->.
      apply chr_inv in E as (c & s1 & -> & Hc & H).
      apply IH in H as (w & s' & -> & Hn & Hw & H).
      exists (String c w), s'. simpl. rewrite Hc, Hw. repeat split; auto; lia.
    + exists "", s. simpl. repeat split; auto; lia.
Qed.

Lemma star_inv p k s : forall b r,
  Re.star p k b s = Some r ->
  exists w s',
    s = w ++ s' /\ all_chars p w = true /\ k (revapp w b) s' = Some r.
Proof.
  induction s as [|c s IH]; intros b r H; cbn [Re.star] in H.
  - now exists "", "".
  - destruct (p c) eqn:Hc; [|now exists "", (String c s)].
    destruct (Re.star p k (String c b) s) eqn:E.
    + injection H as ->. apply IH in E as (w & s' & -> & Hw & H).
      exists (String c w), s'. simpl. now rewrite Hc, Hw.
    + now exists "", (String c s).
Qed.

Lemma rep_app p k w s : forall b,
  all_chars p w = true ->
  Re.rep (String.length w) p k b (w ++ s) = k (revapp w b) s.
Proof.
  induction w as [|c w IH]; intros b Hw; simpl in *; [reflexivity|].
  apply andb_prop in Hw as [Hc Hw]. rewrite Hc. now apply IH.
Qed.

Lemma upto_some p k n : forall w s b,
  all_chars p w = true -> String.length w <= n ->
  k (revapp w b) s <> None ->
  Re.upto n p k b (w ++ s) <> None.
Proof.
  induction n as [|n IH]; intros w s b Hw Hn Hk; cbn [Re.upto].
  - destruct w; [exact Hk | simpl in Hn; lia].
  - destruct (Re.chr p (Re.upto n p k) b (w ++ s)) eqn:E; [discriminate|].
    destruct w as [|c w]; [exact Hk|]. exfalso.
    simpl in Hw, Hn, E. apply andb_prop in Hw as [Hc Hw]. rewrite Hc in E.
    revert E. apply IH; auto. lia.
Qed.

Lemma star_some p k w s : forall b,
  all_chars p w = true ->
  k (revapp w b) s <> None ->
  Re.star p k b (w ++ s) <> None.
Proof.
  induction w as [|c w IH]; intros b Hw Hk; simpl in *.
  - destruct s as [|c s]; simpl; [exact Hk|].
    destruct (p c); [|exact Hk]. destruct (Re.star p k _ s); congruence.
  - apply andb_prop in Hw as [Hc Hw]. rewrite Hc.
    destruct (Re.star p k (String c b) (w ++ s)) eqn:E; [discriminate|].
    exfalso. revert E. now apply IH.
Qed.
End Inversion.

(** Appends nested to the right, literals unfolded into characters. *)
Ltac normalize_append :=
  repeat (rewrite ?append_assoc; cbn [String.append]).

Lemma eos_inv {R} (k : @Re.cont R) b s r :
  Re.eos k b s = Some r -> (s = "" \/ s = nl) /\ k b s = Some r.
Proof.
  unfold Re.eos. destruct s as [|c [|d s]]; try discriminate; [auto|].
  destruct (Ascii.eqb_spec c Char.newline) as [->|]; [|discriminate].
  intros H. split; [now right | exact H].
Qed.

(** A match of [arxiv_id_re] is an identifier, its group 1, then an
    optional version and the extension, up to the end of the subject or to
    its final line feed. *)
Lemma arxiv_id_re_inv b s g r :
  arxiv_id_re b s = Some (g, r) ->
  exists ver,
    s = g ++ ver ++ ".pdf" ++ r
    /\ is_identifier g /\ is_version ver /\ (r = "" \/ r = nl).
Proof.
  unfold arxiv_id_re, Re.group, Re.range. intros H.
  apply rep_inv in H as (d4 & s1 & -> & Hl4 & Hd4 & H).
  apply lit_inv in H as (s2 & -> & H).
  apply rep_inv in H as (w & s3 & -> & Hlw & Hw & H).
  apply upto_inv in H as (e & s4 & -> & Hle & He & H).
  assert (Hid : is_identifier (d4 ++ "." ++ w ++ e)).
  { exists d4, (w ++ e). repeat split; auto.
    - unfold digits. now rewrite all_chars_app, Hw, He.
    - rewrite length_append. simpl in Hle. lia. }
  assert (Hg : Str.take (String.length (d4 ++ "." ++ w ++ e ++ s4) - String.length s4)
                 (d4 ++ "." ++ w ++ e ++ s4) = d4 ++ "." ++ w ++ e).
  { assert (E : d4 ++ "." ++ w ++ e ++ s4 = (d4 ++ "." ++ w ++ e) ++ s4)
      by now rewrite !append_assoc.
    rewrite E. apply take_app. }
  rewrite Hg in H. clear Hg. unfold Re.opt in H.
  match type of H with
  | match ?x with _ => _ end = _ => destruct x as [[g' r']|] eqn:E
  end.
  - injection H as -> ->.
    apply lit_inv in E as (s5 & -> & E).
    apply chr_inv in E as (d & s6 & -> & Hd & E).
    apply star_inv in E as (ds & s7 & -> & Hds & E).
    apply lit_inv in E as (s8 & -> & E).
    apply eos_inv in E as [Hr E]. injection E as <- <-.
    exists ("v" ++ String d ds). split; [|split; [|split]]; auto.
    + now normalize_append.
    + right. exists (String d ds). repeat split; [discriminate|].
      unfold digits. simpl. now rewrite Hd, Hds.
  - apply lit_inv in H as (s5 & -> & H).
    apply eos_inv in H as [Hr H]. injection H as <- <-.
    exists "". split; [|split; [|split]]; auto; [|now left].
    now normalize_append.
Qed.

Lemma range_some {R} (p : ascii -> bool) (k : @Re.cont R) (lo : nat) :
  forall hi w s b,
    all_chars p w = true -> lo <= String.length w <= hi ->
    k (revapp w b) s <> None ->
    Re.range lo hi p k b (w ++ s) <> None.
Proof.
  unfold Re.range. induction lo as [|lo IH]; intros hi w s b Hw Hl Hk.
  - cbn [Re.rep]. apply upto_some; auto. lia.
  - destruct w as [|c w]; [simpl in Hl; lia|].
    simpl in Hw, Hl. apply andb_prop in Hw as [Hc Hw].
    cbn [Re.rep String.append]. unfold Re.chr at 1. rewrite Hc.
    replace (hi - S lo) with ((hi - 1) - lo) by lia.
    apply IH; auto. lia.
Qed.

Lemma extension_some {G} (g : G) (b tail : string) :
  tail = "" \/ tail = nl ->
  Re.lit ".pdf" (Re.eos (Re.accept g)) b (".pdf" ++ tail) <> None.
Proof. rewrite lit_app. intros [->| ->]; discriminate. Qed.

(** [arxiv_id_re] matches at an identifier that an optional version and
    the extension follow, up to the end of the subject or to its final
    line feed. *)
Lemma arxiv_id_re_some b id ver tail :
  is_identifier id -> is_version ver -> tail = "" \/ tail = nl ->
  arxiv_id_re b (id ++ ver ++ ".pdf" ++ tail) <> None.
Proof.
  intros (d4 & d45 & -> & Hd4 & Hl4 & Hd45 & Hl45) Hver Htail.
  unfold arxiv_id_re, Re.group. rewrite <- Hl4 at 1.
  rewrite !append_assoc, rep_app, lit_app by exact Hd4.
  apply range_some; [exact Hd45 | lia |].
  unfold Re.opt.
  match goal with
  | |- match ?x with _ => _ end <> _ => destruct x as [[g' r']|] eqn:E
  end; [discriminate|].
  destruct Hver as [->|(ds & -> & Hne & Hds)].
  - now apply extension_some.
  - exfalso. revert E.
    change (String "v" ds ++ ?t) with ("v" ++ ds ++ t). rewrite lit_app.
    destruct ds as [|d ds]; [congruence|].
    unfold digits in Hds. simpl in Hds. apply andb_prop in Hds as [Hd Hds].
    cbn [String.append]. unfold Re.plus, Re.chr at 1. rewrite Hd.
    apply star_some; [exact Hds|]. now apply extension_some.
Qed.

Lemma count_char_app c s t :
  count_char c (s ++ t) = count_char c s + count_char c t.
Proof. induction s as [|d s IH]; simpl; [reflexivity|]. rewrite IH. lia. Qed.

Lemma digit_not_dot c : Char.is_digit c = true -> Ascii.eqb c "." = false.
Proof. destruct c as [[] [] [] [] [] [] [] []]; vm_compute; congruence. Qed.

Lemma digits_no_dot s : digits s -> count_char "." s = 0.
Proof.
  unfold digits. induction s as [|c s IH]; simpl; [reflexivity|].
  intros H. apply andb_prop in H as [Hc Hs].
  now rewrite (digit_not_dot c Hc), IH.
Qed.

Lemma version_no_dot ver : is_version ver -> count_char "." ver = 0.
Proof.
  intros [->|(ds & -> & _ & Hds)]; [reflexivity|].
  simpl. now rewrite digits_no_dot.
Qed.

Lemma before_first_app sep x s :
  count_char sep x = 0 ->
  Str.before_first sep (x ++ s) = x ++ Str.before_first sep s.
Proof.
  induction x as [|c x IH]; simpl; [reflexivity|].
  destruct (Ascii.eqb c sep); [discriminate|]. intros H. now rewrite IH.
Qed.

Lemma digit_prefix_app d c r :
  digits d -> Char.is_digit c = false -> digit_prefix (d ++ String c r) = d.
Proof.
  unfold digits. induction d as [|e d IH]; simpl; intros Hd Hc.
  - now rewrite Hc.
  - apply andb_prop in Hd as [He Hd]. now rewrite He, IH.
Qed.

(** What follows an identifier starts with a character that is no digit. *)
Lemma version_extension_head ver tail :
  is_version ver ->
  exists c r, ver ++ ".pdf" ++ tail = String c r /\ Char.is_digit c = false.
Proof.
  intros [->|(ds & -> & _)]; simpl; eexists _, _; split; reflexivity.
Qed.

Lemma identifier_at_dots u id : identifier_at u id -> count_char "." u = 2.
Proof.
  intros (ver & tail & -> & (d4 & d45 & -> & Hd4 & _ & Hd45 & _) & Hver & Htail).
  rewrite !count_char_app, (digits_no_dot d4), (digits_no_dot d45),
    (version_no_dot ver) by assumption.
  destruct Htail as [->| ->]; reflexivity.
Qed.

Lemma identifier_at_start u id :
  identifier_at u id ->
  exists d4 d45 c r,
    u = d4 ++ "." ++ d45 ++ String c r /\ id = d4 ++ "." ++ d45
    /\ digits d4 /\ String.length d4 = 4 /\ digits d45
    /\ Char.is_digit c = false.
Proof.
  intros (ver & tail & -> & (d4 & d45 & -> & Hd4 & Hl4 & Hd45 & _) & Hver & _).
  destruct (version_extension_head ver tail Hver) as (c & r & E & Hc).
  exists d4, d45, c, r. rewrite E. repeat split; auto.
  now rewrite !append_assoc.
Qed.

(** A subject holds one identifier before its extension, and one place for
    it. *)
Lemma identifier_at_unique x u id id' :
  identifier_at (x ++ u) id' -> identifier_at u id -> x = "" /\ id' = id.
Proof.
  intros H' H.
  pose proof (identifier_at_dots _ _ H') as D'.
  pose proof (identifier_at_dots _ _ H) as D.
  rewrite count_char_app, D in D'.
  assert (Hx : count_char "." x = 0) by lia. clear D D'.
  destruct (identifier_at_start _ _ H') as (d4' & d45' & c' & r' & E' & -> & Hd4' & Hl4' & Hd45' & Hc').
  destruct (identifier_at_start _ _ H) as (d4 & d45 & c & r & E & -> & Hd4 & Hl4 & Hd45 & Hc).
  assert (B : Str.before_first "." (x ++ u) = x ++ d4).
  { rewrite before_first_app, E, before_first_app by auto using digits_no_dot.
    simpl. now rewrite append_nil_r. }
  rewrite E', before_first_app in B by auto using digits_no_dot.
  simpl in B. rewrite append_nil_r in B.
  assert (x = "") as ->.
  { apply (f_equal String.length) in B. rewrite length_append in B.
    destruct x; [reflexivity | simpl in B; lia]. }
  split; [reflexivity|]. simpl in B, E'. subst d4'.
  rewrite E in E'. apply append_cancel_l in E'. injection E' as E'.
  apply (f_equal digit_prefix) in E'.
  rewrite !digit_prefix_app in E' by assumption. now subst.
Qed.

Lemma append_eq_append (a b c d : string) :
  a ++ b = c ++ d ->
  (exists x, c = a ++ x /\ b = x ++ d) \/ (exists x, a = c ++ x /\ d = x ++ b).
Proof.
  revert c. induction a as [|e a IH]; intros c H; simpl in H.
  - left. now exists c.
  - destruct c as [|f c]; simpl in H.
    + right. now exists (String e a).
    + injection H as <- H. destruct (IH _ H) as [(x & -> & ->)|(x & -> & ->)];
        [left | right]; now exists x.
Qed.

Lemma identifier_before_at tail filename id :
  tail = "" \/ tail = nl ->
  identifier_before tail filename id <->
  exists pre u, filename = pre ++ u
    /\ exists ver, u = id ++ ver ++ ".pdf" ++ tail
       /\ is_identifier id /\ is_version ver.
Proof.
  intros _. split.
  - intros (pre & ver & -> & Hid & Hver). eauto 8.
  - intros (pre & u & -> & ver & -> & Hid & Hver). now exists pre, ver.
Qed.

Lemma matches_arxiv_id_re_at filename id :
  matches_arxiv_id_re filename id <->
  exists pre u, filename = pre ++ u /\ identifier_at u id.
Proof.
  unfold matches_arxiv_id_re, identifier_before, identifier_at. split.
  - intros [(pre & ver & -> & Hid & Hver)|(pre & ver & -> & Hid & Hver)];
      eexists pre, _; (split; [reflexivity|]); eexists ver, _; eauto.
  - intros (pre & u & -> & ver & tail & -> & Hid & Hver & [->| ->]);
      [left | right]; now exists pre, ver.
Qed.

Lemma extract_arxiv_id_sound filename id :
  extract_arxiv_id filename = Some id -> matches_arxiv_id_re filename id.
Proof.
  unfold extract_arxiv_id.
  destruct (Re.search arxiv_id_re filename) as [[g r]|] eqn:E; [|discriminate].
  intros [= ->]. apply search_from_inv in E as (pre & u & b & -> & E).
  apply arxiv_id_re_inv in E as (ver & -> & Hid & Hver & Hr).
  apply matches_arxiv_id_re_at. exists pre. eexists. split; [reflexivity|].
  now exists ver, r.
Qed.

Lemma extract_arxiv_id_complete filename id :
  matches_arxiv_id_re filename id -> extract_arxiv_id filename = Some id.
Proof.
  intros H. apply matches_arxiv_id_re_at in H as (pre & u & -> & Hu).
  destruct (extract_arxiv_id (pre ++ u)) as [id'|] eqn:E.
  - apply extract_arxiv_id_sound, matches_arxiv_id_re_at in E
      as (pre' & u' & E & Hu').
    f_equal.
    apply append_eq_append in E as [(x & -> & ->)|(x & -> & ->)].
    + symmetry. now apply (identifier_at_unique x u' id' id).
    + now apply (identifier_at_unique x u id id').
  - exfalso. unfold extract_arxiv_id in E.
    destruct (Re.search arxiv_id_re (pre ++ u)) as [[g r]|] eqn:S; [discriminate|].
    revert S. apply search_from_some. intros b.
    destruct Hu as (ver & tail & -> & Hid & Hver & Htail).
    now apply arxiv_id_re_some.
Qed.

Lemma endswith_app (x p : string) : Str.endswith (x ++ p) p = true.
Proof.
  induction x as [|c x IH]; cbn [String.append Str.endswith].
  - destruct p; cbn [Str.endswith]; now rewrite String.eqb_refl.
  - rewrite IH. apply orb_true_r.
Qed.

Lemma endswith_last (s p : string) (c d : ascii) :
  c <> d -> Str.endswith (s ++ String c "") (p ++ String d "") = false.
Proof.
  intros Hcd.
  assert (N : forall t q, t ++ String c "" <> q ++ String d "").
  { induction t as [|e t IH]; intros [|f q]; simpl; intros H.
    - congruence.
    - injection H as _ H. now destruct q.
    - injection H as _ H. now destruct t.
    - injection H as _ H. now apply IH in H. }
  induction s as [|e s IH]; cbn [String.append Str.endswith].
  - assert (E0 : String c "" <> p ++ String d "") by apply (N "" p).
    rewrite (proj2 (String.eqb_neq _ _) E0).
    assert (E : "" <> p ++ String d "") by now destruct p.
    now rewrite (proj2 (String.eqb_neq _ _) E).
  - rewrite IH, orb_false_r.
    apply String.eqb_neq. apply (N (String e s) p).
Qed.

(** C8, as stated: a file name that a line feed ends does not match the
    pattern of the claim, whose extension ends the file name, and yet has
    an identifier for [extract_arxiv_id]. *)
Lemma C8_final_line_feed :
  (forall id, ~ matches_identifier_pattern ("1234.5678.pdf" ++ nl) id)
  /\ extract_arxiv_id ("1234.5678.pdf" ++ nl) = Some "1234.5678".
Proof.
  split; [|vm_compute; reflexivity].
  intros id (pre & ver & E & _).
  apply (f_equal (fun s => Str.endswith s ".pdf")) in E.
  rewrite append_nil_r in E.
  replace (pre ++ id ++ ver ++ ".pdf") with ((pre ++ id ++ ver) ++ ".pdf") in E
    by now rewrite !append_assoc.
  rewrite endswith_app in E. vm_compute in E. discriminate E.
Qed.

(** C8, amended.  [extract_arxiv_id] returns the identifier of every file
    name made of some text, the identifier (4 digits, a dot, 4 or 5
    digits), an optional version [vN] and [.pdf], where [.pdf] ends the
    file name or is followed by one final line feed; it returns [None] for
    every other file name.  For the file names that end in [.pdf], those the
    pipeline passes, these are the file names of the claim. *)
Theorem C8_extract_arxiv_id (filename : string) :
  (forall id, matches_arxiv_id_re filename id ->
     extract_arxiv_id filename = Some id)
  /\ ((forall id, ~ matches_arxiv_id_re filename id) ->
      extract_arxiv_id filename = None)
  /\ (forall id, extract_arxiv_id filename = Some id ->
        matches_arxiv_id_re filename id)
  /\ (Str.endswith filename ".pdf" = true ->
      forall id, matches_arxiv_id_re filename id
                 <-> matches_identifier_pattern filename id).
Proof.
  split; [|split; [|split]].
  - apply extract_arxiv_id_complete.
  - intros H. destruct (extract_arxiv_id filename) as [id|] eqn:E; [|reflexivity].
    now apply extract_arxiv_id_sound, H in E.
  - apply extract_arxiv_id_sound.
  - intros He id. split; [|now left].
    intros [H|(pre & ver & -> & _)]; [exact H|]. exfalso.
    replace (pre ++ id ++ ver ++ ".pdf" ++ nl)
      with ((pre ++ id ++ ver ++ ".pd") ++ String "f" nl) in He
      by now normalize_append.
    change (String "f" nl) with ("f" ++ nl) in He.
    rewrite <- append_assoc in He.
    change ".pdf" with (".pd" ++ "f") in He. unfold nl in He.
    rewrite endswith_last in He; [discriminate|].
    intros H. discriminate H.
Qed.

(** ** Placeholders and records (C3) *)

(** C3, as stated: an inline pair around a display block consumes the
    placeholder of the block, whose record stays; and a placeholder-like
    token of the input has no record. *)
Lemma C3_no_bijection :
  preserve_equations "$ \[b\] $"
  = ("[EQ_INLINE_2]",
     [ {| eq_placeholder := "[EQ_DISPLAY_1]"; eq_equation := "b";
          eq_type := DISPLAY; eq_length := 1 |};
       {| eq_placeholder := "[EQ_INLINE_2]"; eq_equation := "[EQ_DISPLAY_1]";
          eq_type := INLINE; eq_length := 1 |} ])
  /\ ~ in_bijection (fst (preserve_equations "$ \[b\] $"))
         (snd (preserve_equations "$ \[b\] $"))
  /\ preserve_equations "See [EQ_INLINE_7]." = ("See [EQ_INLINE_7].", [])
  /\ ~ in_bijection (fst (preserve_equations "See [EQ_INLINE_7]."))
         (snd (preserve_equations "See [EQ_INLINE_7].")).
Proof.
  split; [vm_compute; reflexivity|]. split; [|split; [vm_compute; reflexivity|]].
  - intros [_ H].
    specialize (H {| eq_placeholder := "[EQ_DISPLAY_1]"; eq_equation := "b";
                     eq_type := DISPLAY; eq_length := 1 |}).
    assert (E : In {| eq_placeholder := "[EQ_DISPLAY_1]"; eq_equation := "b";
                      eq_type := DISPLAY; eq_length := 1 |}
                  (snd (preserve_equations "$ \[b\] $")))
      by (vm_compute; auto).
    specialize (H E). vm_compute in H. discriminate H.
  - intros [H _]. specialize (H "[EQ_INLINE_7]").
    assert (E : In "[EQ_INLINE_7]"
                  (placeholders_in (fst (preserve_equations "See [EQ_INLINE_7]."))))
      by (vm_compute; auto).
    specialize (H E). vm_compute in H. discriminate H.
Qed.

Lemma of_nat_inj n n' : Str.of_nat n = Str.of_nat n' -> n = n'.
Proof.
  unfold Str.of_nat. intros H. apply Unsigned.to_uint_inj.
  apply (f_equal NilEmpty.uint_of_string) in H.
  rewrite !NilEmpty.usu in H. now injection H.
Qed.

Lemma placeholder_of_inj t n t' n' :
  placeholder_of t n = placeholder_of t' n' -> t = t' /\ n = n'.
Proof.
  assert (C : forall m m', Str.of_nat m ++ "]" = Str.of_nat m' ++ "]" -> m = m').
  { intros m m' H. apply of_nat_inj.
    apply (f_equal digit_prefix) in H.
    now rewrite !digit_prefix_app in H by (auto; apply of_nat_digits). }
  unfold placeholder_of.
  destruct t, t'; cbn [type_name String.append]; intros H;
    try discriminate H; injection H as H; split; auto.
Qed.

Lemma isolate_match_numbered t st m :
  numbered st -> numbered (isolate_match t st m).
Proof.
  intros [Hc Hn]. split; cbn [isolate_match counter equations].
  - rewrite length_app. simpl. lia.
  - intros i r H.
    destruct (Nat.lt_ge_cases i (List.length (equations st))) as [Hi|Hi].
    + rewrite nth_error_app1 in H by exact Hi. now apply Hn.
    + rewrite nth_error_app2 in H by exact Hi.
      destruct (i - List.length (equations st)) as [|j] eqn:E; simpl in H.
      * injection H as <-. cbn [eq_placeholder eq_type].
        rewrite Hc. f_equal. lia.
      * now destruct j.
Qed.

Lemma isolate_pass_numbered st p : numbered st -> numbered (isolate_pass st p).
Proof.
  unfold isolate_pass. generalize (Re.finditer (fst p) (text st)) as ms.
  intros ms. revert st. induction ms as [|m ms IH]; intros st H; simpl; auto.
  apply IH. now apply isolate_match_numbered.
Qed.

Lemma preserve_equations_numbered t :
  forall i r, nth_error (snd (preserve_equations t)) i = Some r ->
    eq_placeholder r = placeholder_of (eq_type r) (S i).
Proof.
  unfold preserve_equations. cbn [snd].
  assert (H : numbered {| text := t; equations := []; counter := 1 |}).
  { split; [reflexivity|]. intros [|i] r H; discriminate H. }
  revert H. generalize {| text := t; equations := []; counter := 1 |} as st.
  generalize equation_patterns as ps.
  induction ps as [|p ps IH]; intros st H; simpl.
  - apply H.
  - apply IH. now apply isolate_pass_numbered.
Qed.

(** A generated placeholder is one token of the placeholder form. *)
Lemma placeholders_in_placeholder ty n :
  placeholders_in (placeholder_of ty n) = [placeholder_of ty n].
Proof.
  unfold placeholders_in, Re.findall, Re.finditer, Re.scan.
  rewrite <- (append_nil_r (placeholder_of ty n)) at 1.
  rewrite (scan_from_hit placeholder_re _ _ _ tt (placeholder_of_not_empty ty n)
             (placeholder_re_placeholder ty n _ "")).
  reflexivity.
Qed.

Lemma hits_app {G} (l l' : list (Re.piece G)) :
  Re.hits (l ++ l')%list = (Re.hits l ++ Re.hits l')%list.
Proof.
  induction l as [|[c|w g] l IH]; simpl; [reflexivity|exact IH|now rewrite IH].
Qed.

Lemma subst_texts {G} (repl : G -> string) (s : string) :
  Re.subst repl (texts s) = s.
Proof. induction s as [|c s IH]; simpl; [reflexivity | now rewrite IH]. Qed.

Section OneHit.
Context {G : Type} (m : Re.pattern G) (old : string).
Hypothesis old_not_empty : old <> "".
Hypothesis m_inv : forall b s g r, m b s = Some (g, r) -> s = old ++ r.

Lemma hits_nil_texts (s : string) : forall b,
  Re.hits (Re.scan_from m 0 b s) = [] -> Re.scan_from m 0 b s = texts s.
Proof.
  induction s as [|c s IH]; intros b; [reflexivity|].
  cbn [Re.scan_from]. destruct (m b (String c s)) as [[g r]|].
  - discriminate.
  - cbn [Re.hits texts]. intros H. f_equal. now apply IH.
Qed.

Lemma scan_one_hit (s : string) : forall b,
  List.length (Re.hits (Re.scan_from m 0 b s)) = 1 ->
  exists pre g post,
    s = pre ++ old ++ post
    /\ Re.scan_from m 0 b s = (texts pre ++ Re.Hit old g :: texts post)%list.
Proof.
  induction s as [|c s IH]; intros b H; [discriminate H|].
  destruct (m b (String c s)) as [[g r]|] eqn:E.
  - pose proof (m_inv _ _ _ _ E) as Es. rewrite Es in E, H |- *.
    rewrite (scan_from_hit m _ _ _ _ old_not_empty E) in H |- *.
    cbn [Re.hits List.length] in H.
    exists "", g, r. split; [reflexivity|]. cbn [texts app]. f_equal.
    apply hits_nil_texts.
    destruct (Re.hits _); [reflexivity | discriminate H].
  - cbn [Re.scan_from] in H |- *. rewrite E in H |- *. cbn [Re.hits] in H.
    destruct (IH _ H) as (pre & g & post & Es & Hs).
    exists (String c pre), g, post. rewrite Hs. split; [now rewrite Es | reflexivity].
Qed.
End OneHit.

(** Where [old] occurs once, [replace] substitutes that occurrence. *)
Lemma replace_once (s old new : string) :
  old <> "" -> occurrences s old = 1 ->
  exists pre post, s = pre ++ old ++ post /\ replace s old new = pre ++ new ++ post.
Proof.
  intros Ho H. unfold occurrences, Re.finditer, Re.scan in H.
  destruct (scan_one_hit (Re.lit old (Re.accept tt)) old Ho) with (s := s) (b := "")
    as (pre & g & post & Es & Hs); [|exact H|].
  - intros b s0 g r E. apply lit_inv in E as (s' & -> & E).
    unfold Re.accept in E. now injection E as _ <-.
  - exists pre, post. split; [exact Es|].
    unfold replace. destruct old as [|c old]; [congruence|].
    unfold Re.sub, Re.scan. rewrite Hs, subst_app. cbn [Re.subst].
    now rewrite !subst_texts.
Qed.

Lemma breaker_facts c0 :
  breaker c0 = true ->
  Char.is_word c0 = false /\ Char.is_digit c0 = false
  /\ Ascii.eqb "[" c0 = false
  /\ all_chars (fun c => negb (Ascii.eqb c c0)) "[EQ_" = true
  /\ all_chars (fun c => negb (Ascii.eqb c c0)) "_" = true
  /\ all_chars (fun c => negb (Ascii.eqb c c0)) "]" = true.
Proof.
  destruct c0 as [[] [] [] [] [] [] [] []]; vm_compute; intros H;
    try discriminate H; repeat split.
Qed.

Lemma placeholder_re_stops_at c0 rest0 :
  breaker c0 = true -> stops_before (String c0 rest0) placeholder_re.
Proof.
  intros H. apply breaker_facts in H as (Hw & Hd & _ & H1 & H2 & H3).
  unfold placeholder_re.
  apply stops_lit; [exact H1|]. apply stops_plus; [exact Hw|].
  apply stops_lit; [exact H2|]. apply stops_plus; [exact Hd|].
  apply stops_lit; [exact H3|]. apply stops_accept.
Qed.

(** The tokens of a text are those before a breaking character and those
    from it on. *)
Lemma placeholders_in_breaker u c0 v :
  breaker c0 = true ->
  placeholders_in (u ++ String c0 v)
  = (placeholders_in u ++ placeholders_in (String c0 v))%list.
Proof.
  intros H. unfold placeholders_in, Re.findall, Re.finditer, Re.scan.
  rewrite (scan_from_app placeholder_re _
             (fun b x _ => placeholder_re_stops_at c0 v H b x)) by lia.
  rewrite hits_app, map_app.
  now rewrite (scan_from_blind placeholder_re placeholder_re_blind
                 (String c0 v) 0 (revapp u "") "").
Qed.

Lemma placeholders_in_plain l v :
  no_bracket l = true -> placeholders_in (l ++ v) = placeholders_in v.
Proof.
  unfold placeholders_in, Re.findall, Re.finditer, Re.scan, no_bracket.
  intros H. f_equal.
  enough (E : forall b, Re.hits (Re.scan_from placeholder_re 0 b (l ++ v))
                        = Re.hits (Re.scan_from placeholder_re 0 "" v)) by apply E.
  revert H. induction l as [|c l IH]; intros H b.
  - now rewrite (scan_from_blind placeholder_re placeholder_re_blind _ 0 b "").
  - cbn [all_chars] in H. apply andb_prop in H as [Hc Hs].
    apply negb_true_iff in Hc.
    change (String c l ++ v) with (String c (l ++ v)). cbn [Re.scan_from].
    change placeholder_re with (Re.chr (Ascii.eqb "[") placeholder_tail).
    unfold Re.chr at 1. rewrite Hc.
    change (Re.chr (Ascii.eqb "[") placeholder_tail) with placeholder_re.
    cbn [Re.hits]. now apply IH.
Qed.

Lemma placeholders_in_token u ty n v :
  placeholders_in (u ++ placeholder_of ty n ++ v)
  = (placeholders_in u ++ placeholder_of ty n :: placeholders_in v)%list.
Proof.
  unfold placeholders_in, Re.findall, Re.finditer, Re.scan.
  assert (exists rest0, placeholder_of ty n ++ v = String "[" rest0)
    as [rest0 E] by (eexists; reflexivity).
  rewrite E, (scan_from_app placeholder_re _ (placeholder_re_stops rest0)), <- E
    by lia.
  rewrite hits_app, map_app. f_equal.
  rewrite (scan_from_hit placeholder_re _ _ _ tt (placeholder_of_not_empty ty n)
             (placeholder_re_placeholder ty n _ v)).
  cbn [Re.hits map fst].
  now rewrite (scan_from_blind placeholder_re placeholder_re_blind v 0 _ "").
Qed.

Lemma breaker_no_bracket c cl :
  breaker c = true -> no_bracket cl = true -> no_bracket (String c cl) = true.
Proof.
  intros H Hc. apply breaker_facts in H as (_ & _ & H & _).
  unfold no_bracket in *. cbn [all_chars]. now rewrite H, Hc.
Qed.

(** Taking a fenced text without tokens out of a text leaves the tokens
    before it and the tokens after it. *)
Lemma placeholders_in_fenced pre w post :
  fenced w -> placeholders_in w = [] ->
  placeholders_in (pre ++ w ++ post)
  = (placeholders_in pre ++ placeholders_in post)%list.
Proof.
  intros (c0 & u & c1 & cl & -> & H0 & H1 & Hcl) Hw.
  pose proof (breaker_no_bracket _ _ H1 Hcl) as Hp.
  assert (Hu : placeholders_in (String c0 u) = []).
  { rewrite (placeholders_in_breaker (String c0 u) c1 cl H1) in Hw.
    now apply app_eq_nil in Hw. }
  assert (E : (String c0 u ++ String c1 cl) ++ post
              = String c0 (u ++ String c1 (cl ++ post)))
    by (rewrite append_assoc; reflexivity).
  rewrite E, (placeholders_in_breaker pre c0 _ H0). f_equal.
  change (String c0 (u ++ String c1 (cl ++ post)))
    with (String c0 u ++ String c1 (cl ++ post)).
  rewrite (placeholders_in_breaker (String c0 u) c1 _ H1), Hu. cbn [app].
  change (String c1 (cl ++ post)) with (String c1 cl ++ post).
  now apply placeholders_in_plain.
Qed.

(** One clean substitution puts one token in the text: the placeholder of
    the record it adds. *)
Lemma isolate_match_accounted ty st m :
  fenced (fst m) -> clean_match st m -> accounted st ->
  accounted (isolate_match ty st m).
Proof.
  intros Hf [Ho Hw] Ha. unfold accounted in *.
  cbn [isolate_match text equations].
  assert (Hne : fst m <> "").
  { destruct Hf as (c0 & u & c1 & cl & -> & _). discriminate. }
  destruct (replace_once (text st) (fst m) (placeholder_of ty (counter st)) Hne Ho)
    as (pre & post & Et & ->).
  rewrite Et, (placeholders_in_fenced _ _ _ Hf Hw) in Ha.
  rewrite placeholders_in_token, map_app. cbn [map eq_placeholder].
  apply Permutation_sym, Permutation_trans with (1 := Permutation_sym (Permutation_cons_append _ _)).
  apply Permutation_cons_app, Permutation_sym, Ha.
Qed.

Lemma isolate_matches_accounted ty ms : forall st,
  Forall (fun m => fenced (fst m)) ms -> clean_matches ty st ms ->
  accounted st -> accounted (fold_left (isolate_match ty) ms st).
Proof.
  induction ms as [|m ms IH]; intros st Hf Hc Ha; [exact Ha|].
  inversion Hf as [|? ? Hm Hms]; subst. destruct Hc as [Hc Hcs].
  cbn [fold_left]. apply IH; auto. now apply isolate_match_accounted.
Qed.

(** A match of [re.finditer] is a match of the pattern at some position. *)
Lemma hits_inv {G} (m : Re.pattern G) (s : string) : forall skip b w g,
  In (w, g) (Re.hits (Re.scan_from m skip b s)) ->
  exists b' s' r,
    m b' s' = Some (g, r)
    /\ w = Str.take (String.length s' - String.length r) s'.
Proof.
  induction s as [|c s IH]; intros skip b w g; [intros []|].
  cbn [Re.scan_from]. destruct skip as [|k]; [|apply IH].
  destruct (m b (String c s)) as [[g' r]|] eqn:E.
  - intros [H|H]; [|now apply IH in H].
    injection H as Hw <-. exists b, (String c s), r.
    split; [exact E | symmetry; exact Hw].
  - apply IH.
Qed.

(** The matched texts of a delimited pattern are the two delimiters around
    group 1. *)
Lemma finditer_delimited open close s w g :
  In (w, g) (Re.finditer (delimited open close) s) -> w = open ++ g ++ close.
Proof.
  intros H. apply hits_inv in H as (b' & s' & r & E & ->).
  apply delimited_inv in E. rewrite E.
  replace (open ++ g ++ close ++ r) with ((open ++ g ++ close) ++ r)
    by now rewrite !append_assoc.
  apply take_app.
Qed.

Lemma delimited_fenced c0 open c1 close s :
  breaker c0 = true -> breaker c1 = true -> no_bracket close = true ->
  Forall (fun m => fenced (fst m))
    (Re.finditer (delimited (String c0 open) (String c1 close)) s).
Proof.
  intros H0 H1 Hc. apply Forall_forall. intros [w g] H.
  apply finditer_delimited in H. cbn [fst]. rewrite H.
  exists c0, (open ++ g), c1, close. repeat split; auto.
  cbn [append]. now rewrite append_assoc.
Qed.

Lemma equation_patterns_fenced p s :
  In p equation_patterns -> Forall (fun m => fenced (fst m)) (Re.finditer (fst p) s).
Proof.
  intros [<-|[<-|[<-|[]]]]; cbn [fst]; now apply delimited_fenced.
Qed.

Lemma isolate_passes_accounted ps : forall st,
  (forall p, In p ps -> In p equation_patterns) ->
  clean_passes st ps -> accounted st ->
  accounted (fold_left isolate_pass ps st).
Proof.
  induction ps as [|p ps IH]; intros st Hf Hc Ha; [exact Ha|].
  destruct Hc as [Hc Hcs]. cbn [fold_left]. apply IH; auto.
  - intros q Hq. apply Hf. now right.
  - unfold isolate_pass. apply isolate_matches_accounted; auto.
    apply equation_patterns_fenced, Hf. now left.
Qed.

Lemma preserve_equations_accounted t :
  clean_run t ->
  Permutation (placeholders_in (fst (preserve_equations t)))
    (map eq_placeholder (snd (preserve_equations t))).
Proof.
  intros [Ht Hc]. unfold preserve_equations. cbn [fst snd].
  apply isolate_passes_accounted; auto.
  unfold accounted. cbn [text equations map]. now rewrite Ht.
Qed.

Lemma accounted_bijection (t : string) (eqs : list EquationRecord) :
  NoDup (map eq_placeholder eqs) ->
  Permutation (placeholders_in t) (map eq_placeholder eqs) ->
  in_bijection t eqs.
Proof.
  intros D P.
  pose proof (proj1 (Permutation_count_occ string_dec _ _) P) as C.
  pose proof (proj1 (NoDup_count_occ' string_dec _) D) as U.
  split.
  - intros p Hp. apply U. now apply (Permutation_in _ P).
  - intros r Hr. rewrite C. apply U. now apply in_map.
Qed.

(** C3, amended.  The records are numbered from 1 in the order of the list:
    the k-th has the placeholder [[EQ_<KIND>_k]] of its kind, so the
    placeholders of the records are pairwise distinct, and each is one
    token of the placeholder form.  And where the input holds no
    placeholder token and every substitution is clean (the matched text
    holds no placeholder token and occurs once in the text at that moment),
    the placeholder tokens of the returned text are the placeholders of
    the records, in some order: the two are in bijection. *)
Theorem C3_placeholders_and_records (t : string) :
  (forall i r, nth_error (snd (preserve_equations t)) i = Some r ->
     eq_placeholder r = placeholder_of (eq_type r) (S i))
  /\ NoDup (map eq_placeholder (snd (preserve_equations t)))
  /\ (forall r, In r (snd (preserve_equations t)) ->
        placeholders_in (eq_placeholder r) = [eq_placeholder r])
  /\ (clean_run t ->
      Permutation (placeholders_in (fst (preserve_equations t)))
        (map eq_placeholder (snd (preserve_equations t)))
      /\ in_bijection (fst (preserve_equations t)) (snd (preserve_equations t))).
Proof.
  pose proof (preserve_equations_numbered t) as N.
  assert (D : NoDup (map eq_placeholder (snd (preserve_equations t)))).
  { apply NoDup_nth_error. intros i j Hi E.
    rewrite !nth_error_map in E.
    destruct (nth_error _ i) as [r|] eqn:Ei.
    - destruct (nth_error _ j) as [r'|] eqn:Ej; [|discriminate E].
      injection E as E. rewrite (N _ _ Ei), (N _ _ Ej) in E.
      apply placeholder_of_inj in E as [_ E]. lia.
    - rewrite length_map in Hi. apply nth_error_None in Ei. lia. }
  split; [exact N|]. split; [exact D|]. split.
  - intros r Hr. apply In_nth_error in Hr as [i Hi].
    rewrite (N _ _ Hi). apply placeholders_in_placeholder.
  - intros H. pose proof (preserve_equations_accounted t H) as P.
    split; [exact P | now apply accounted_bijection].
Qed.

Lemma C3_witness :
  clean_run "Let $x$ be; then \[ x^2 \] and $y$."
  /\ preserve_equations "Let $x$ be; then \[ x^2 \] and $y$."
     = ("Let [EQ_INLINE_2] be; then [EQ_DISPLAY_1] and [EQ_INLINE_3].",
        [ {| eq_placeholder := "[EQ_DISPLAY_1]"; eq_equation := "x^2";
             eq_type := DISPLAY; eq_length := 1 |};
          {| eq_placeholder := "[EQ_INLINE_2]"; eq_equation := "x";
             eq_type := INLINE; eq_length := 1 |};
          {| eq_placeholder := "[EQ_INLINE_3]"; eq_equation := "y";
             eq_type := INLINE; eq_length := 1 |} ])
  /\ in_bijection (fst (preserve_equations "Let $x$ be; then \[ x^2 \] and $y$."))
       (snd (preserve_equations "Let $x$ be; then \[ x^2 \] and $y$.")).
Proof.
  assert (H : clean_run "Let $x$ be; then \[ x^2 \] and $y$.")
    by (vm_compute; repeat split).
  split; [exact H|]. split; [vm_compute; reflexivity|].
  apply (C3_placeholders_and_records "Let $x$ be; then \[ x^2 \] and $y$."), H.
Defined.

(** ** Papers without metadata (C9) *)

Arguments paper_id {score} p.
Arguments arxiv_id {score} p.
Arguments domain {score} p.
Arguments record_year {score} p.
Arguments meta {score} p.

Section PipelineFacts.
Variable score : Type.
Variables fre fog smog : string -> score.
Variable listdir : list string.
Variable fitz_pages : string -> outcome (list string).
Variable write_text : string -> string -> outcome unit.
Variable write_csv : string -> list EquationRecord -> outcome unit.
Variable arxiv_results : string -> outcome (list ArxivResult).
Variable now_year : Z.

Let process_file' :=
  process_file score fre fog smog fitz_pages write_text write_csv
    arxiv_results now_year.
Let process_entry' :=
  process_entry score fre fog smog fitz_pages write_text write_csv
    arxiv_results now_year.
Let process_pdfs' :=
  process_pdfs score fre fog smog listdir fitz_pages write_text write_csv
    arxiv_results now_year.

Lemma get_paper_metadata_fails (id : string) :
  lookup_fails arxiv_results id -> get_paper_metadata arxiv_results id = None.
Proof.
  unfold get_paper_metadata. intros [H|H]; rewrite H; reflexivity.
Qed.

Lemma process_entry_keeps (l : list string) : forall acc r,
  In r acc -> In r (fold_left process_entry' l acc).
Proof.
  induction l as [|f l IH]; intros acc r H; simpl; [exact H|].
  apply IH. unfold process_entry', process_entry.
  destruct (negb _); [exact H|].
  destruct (process_file _ _ _ _ _ _ _ _ _ f); [|exact H].
  apply in_or_app. now left.
Qed.

Lemma process_pdfs_has (filename : string) r :
  In filename listdir -> Str.endswith filename ".pdf" = true ->
  process_file' filename = Returns r ->
  In r process_pdfs'.
Proof.
  unfold process_pdfs', process_pdfs. generalize (@nil (PaperRecord score)).
  induction listdir as [|f l IH]; intros acc Hin He Hr; [destruct Hin|].
  simpl. destruct Hin as [->|Hin]; [|now apply IH].
  apply process_entry_keeps. unfold process_entry. rewrite He. simpl negb.
  cbv iota. fold process_file'. rewrite Hr. apply in_or_app. right. now left.
Qed.

(** C9.  When the fetch of the metadata fails (the file name has no
    identifier, or the lookup raises or has no result),
    [get_paper_metadata] returns [None] instead of raising, and a file
    whose text is extracted and written still gets its record, with the
    domain [Unknown] and the current year, among the rows of the table. *)
Theorem C9_metadata_failure_defaults (filename : string) (pages : list string) :
  match extract_arxiv_id filename with
  | Some id => lookup_fails arxiv_results id
  | None => True
  end ->
  fitz_pages (path_join PDF_DIR filename) = Returns pages ->
  (forall path content, write_text path content = Returns tt) ->
  (forall path eqs, write_csv path eqs = Returns tt) ->
  In filename listdir -> Str.endswith filename ".pdf" = true ->
  (forall id, lookup_fails arxiv_results id -> get_paper_metadata arxiv_results id = None)
  /\ exists r,
       process_file' filename = Returns r
       /\ meta r = None
       /\ domain r = "Unknown"
       /\ record_year r = now_year
       /\ In r process_pdfs'.
Proof.
  intros Hfail Hpages Hwt Hwc Hin He.
  split; [exact get_paper_metadata_fails|].
  assert (exists r, process_file' filename = Returns r /\ meta r = None
                    /\ domain r = "Unknown" /\ record_year r = now_year)
    as (r & Hr & Hm & Hd & Hy).
  { unfold process_file', process_file, extract_pdf_text.
    rewrite Hpages. cbn [bind].
    destruct (preserve_equations _) as [processed eqs].
    rewrite Hwt. cbn [bind].
    assert (Hcsv : match eqs with
                   | _ :: _ =>
                       write_csv
                         (path_join TEXT_DIR
                            (splitext_root filename ++ "_equations.csv")) eqs
                   | [] => Returns tt
                   end = Returns tt) by (destruct eqs; auto).
    rewrite Hcsv. cbn [bind].
    destruct (calculate_readability_returns score fre fog smog processed)
      as (m & Hm & _).
    rewrite Hm. cbn [bind].
    assert (Hmeta : match extract_arxiv_id filename with
                    | Some "" | None => None
                    | Some id => get_paper_metadata arxiv_results id
                    end = None).
    { destruct (extract_arxiv_id filename) as [[|c id]|]; auto.
      now apply get_paper_metadata_fails. }
    eexists. split; [reflexivity|].
    cbn [meta domain record_year]. rewrite Hmeta. auto. }
  exists r. repeat split; auto.
  now apply (process_pdfs_has filename).
Qed.
End PipelineFacts.

(** The example of the specification: the lookup of [9999.99999] raises. *)
Lemma C9_witness :
  let process :=
    process_file unit (fun _ => tt) (fun _ => tt) (fun _ => tt)
      (fun _ => Returns ["An abstract of a few words."])
      (fun _ _ => Returns tt) (fun _ _ => Returns tt)
      (fun _ => Raises) 2025%Z in
  extract_arxiv_id "9999.99999.pdf" = Some "9999.99999"
  /\ exists r,
       process "9999.99999.pdf" = Returns r
       /\ domain r = "Unknown" /\ record_year r = 2025%Z.
Proof.
  split; [vm_compute; reflexivity|].
  destruct (C9_metadata_failure_defaults unit (fun _ => tt) (fun _ => tt)
              (fun _ => tt) ["9999.99999.pdf"]
              (fun _ => Returns ["An abstract of a few words."])
              (fun _ _ => Returns tt) (fun _ _ => Returns tt)
              (fun _ => Raises) 2025%Z "9999.99999.pdf"
              ["An abstract of a few words."])
    as [_ (r & Hr & _ & Hd & Hy & _)].
  - vm_compute. now left.
  - reflexivity.
  - reflexivity.
  - reflexivity.
  - now left.
  - vm_compute. reflexivity.
  - exists r. auto.
Defined.

(* ================================================================== *)
(** * Further properties of the code *)

(** ** The paths of a paper *)

Lemma rfind_none c s : count_char c s = 0 -> rfind c s = None.
Proof.
  induction s as [|d s IH]; simpl; [reflexivity|].
  destruct (Ascii.eqb d c); [discriminate|]. intros H. now rewrite IH.
Qed.

Lemma rfind_app_none c s t :
  rfind c t = None -> rfind c (s ++ t) = rfind c s.
Proof.
  intros H. induction s as [|d s IH]; simpl; [exact H|]. now rewrite IH.
Qed.

Lemma rfind_app_some c s t i :
  rfind c t = Some i -> rfind c (s ++ t) = Some (String.length s + i).
Proof.
  intros H. induction s as [|d s IH]; simpl; [exact H|]. now rewrite IH.
Qed.

Lemma substring_0_app (s t : string) :
  String.substring 0 (String.length s) (s ++ t) = s.
Proof.
  induction s as [|c s IH]; simpl; [now destruct t | now rewrite IH].
Qed.

(** [os.path.splitext] on a name that ends in [.pdf] and holds no
    separator: the extension is cut, unless dots are all that precedes
    it. *)
Lemma splitext_root_pdf (stem : string) :
  count_char "/" stem = 0 ->
  splitext_root (stem ++ ".pdf")
  = if all_chars (Ascii.eqb ".") stem then stem ++ ".pdf" else stem.
Proof.
  intros Hs. unfold splitext_root.
  rewrite (rfind_app_some "." stem ".pdf" 0) by reflexivity.
  rewrite (rfind_app_none "/" stem ".pdf") by reflexivity.
  rewrite (rfind_none _ _ Hs), Nat.add_0_r, Nat.sub_0_r.
  cbn [Nat.leb andb]. rewrite substring_0_app, take_length_app.
  now destruct (all_chars _ stem).
Qed.

Lemma startswith_no_char c s t :
  count_char c (s ++ t) = 0 -> Str.startswith (s ++ t) (String c "") = false.
Proof.
  unfold Str.startswith. destruct (s ++ t) as [|d u]; simpl; [reflexivity|].
  rewrite (Ascii.eqb_sym c d). destruct (Ascii.eqb d c); [discriminate|reflexivity].
Qed.

Lemma text_dir_join (name : string) :
  count_char "/" name = 0 ->
  path_join TEXT_DIR name = "./processed_papers/" ++ name.
Proof.
  intros H. unfold path_join.
  rewrite <- (append_nil_r name) at 1.
  rewrite startswith_no_char by now rewrite append_nil_r.
  reflexivity.
Qed.

Arguments text_path {score} p.
Arguments equation_path {score} p.
Arguments metrics {score} p.

Section TableFacts.
Variable score : Type.
Variables fre fog smog : string -> score.
Variable listdir : list string.
Variable fitz_pages : string -> outcome (list string).
Variable write_text : string -> string -> outcome unit.
Variable write_csv : string -> list EquationRecord -> outcome unit.
Variable arxiv_results : string -> outcome (list ArxivResult).
Variable now_year : Z.

Let process_file' :=
  process_file score fre fog smog fitz_pages write_text write_csv
    arxiv_results now_year.
Let process_entry' :=
  process_entry score fre fog smog fitz_pages write_text write_csv
    arxiv_results now_year.
Let process_pdfs' :=
  process_pdfs score fre fog smog listdir fitz_pages write_text write_csv
    arxiv_results now_year.
Let extract_pdf_text' := extract_pdf_text fitz_pages.
Let get_paper_metadata' := get_paper_metadata arxiv_results.

Lemma fold_process_entry (l : list string) : forall acc,
  fold_left process_entry' l acc = (acc ++ flat_map (rows_of process_file') l)%list.
Proof.
  induction l as [|f l IH]; intros acc; cbn [fold_left flat_map].
  - now rewrite List.app_nil_r.
  - rewrite IH. unfold process_entry', process_entry, rows_of.
    fold process_file'.
    destruct (Str.endswith f ".pdf"); cbn [negb].
    + destruct (process_file' f); [now rewrite <- List.app_assoc | reflexivity].
    + reflexivity.
Qed.

Lemma process_pdfs_flat_map :
  process_pdfs' = flat_map (rows_of process_file') listdir.
Proof. apply (fold_process_entry listdir []). Qed.

Lemma process_pdfs_in r :
  In r process_pdfs' <->
  exists filename,
    In filename listdir /\ Str.endswith filename ".pdf" = true
    /\ process_file' filename = Returns r.
Proof.
  rewrite process_pdfs_flat_map, in_flat_map. split.
  - intros (f & Hf & Hr). exists f. unfold rows_of in Hr.
    destruct (Str.endswith f ".pdf"); [|destruct Hr].
    destruct (process_file' f) as [r'|]; [|destruct Hr].
    destruct Hr as [->|[]]. auto.
  - intros (f & Hf & He & Hr). exists f. split; [exact Hf|].
    unfold rows_of. rewrite He, Hr. now left.
Qed.

(** X1.  The table holds, in the order of the directory listing, one row
    for each entry that ends in [.pdf] and whose processing returns: the
    other entries, and the files on which a step raises, leave no row and
    do not stop the run. *)
Theorem X1_process_pdfs_rows :
  process_pdfs' = flat_map (rows_of process_file') listdir
  /\ (forall r, In r process_pdfs' <->
        exists filename,
          In filename listdir /\ Str.endswith filename ".pdf" = true
          /\ process_file' filename = Returns r)
  /\ List.length process_pdfs'
     <= List.length (filter (fun f => Str.endswith f ".pdf") listdir).
Proof.
  split; [exact process_pdfs_flat_map|]. split; [exact process_pdfs_in|].
  rewrite process_pdfs_flat_map. generalize listdir as l.
  induction l as [|f l IH]; cbn [flat_map filter]; [auto|].
  rewrite length_app. unfold rows_of at 1.
  destruct (Str.endswith f ".pdf"); [|exact IH].
  destruct (process_file' f); simpl; lia.
Qed.

(** What [process_file] returns, when it returns. *)
Lemma process_file_inv (filename : string) r :
  process_file' filename = Returns r ->
  exists pages m,
    fitz_pages (path_join PDF_DIR filename) = Returns pages
    /\ calculate_readability score fre fog smog
         (fst (preserve_equations
                 (Str.join (String Char.newline (String Char.newline ""))
                    (map clean_page pages))))
       = Returns m
    /\ r = {| paper_id := splitext_root filename;
              arxiv_id := extract_arxiv_id filename;
              text_path := path_join TEXT_DIR (splitext_root filename ++ ".txt");
              equation_path :=
                match snd (preserve_equations
                             (Str.join (String Char.newline (String Char.newline ""))
                                (map clean_page pages))) with
                | _ :: _ =>
                    Some (path_join TEXT_DIR
                            (splitext_root filename ++ "_equations.csv"))
                | [] => None
                end;
              domain :=
                match match extract_arxiv_id filename with
                      | Some "" | None => None
                      | Some id => get_paper_metadata' id
                      end with
                | Some m => Str.before_first "." (primary_category m)
                | None => "Unknown"
                end;
              record_year :=
                match match extract_arxiv_id filename with
                      | Some "" | None => None
                      | Some id => get_paper_metadata' id
                      end with
                | Some m => year (published_date m)
                | None => now_year
                end;
              metrics := m;
              meta :=
                match extract_arxiv_id filename with
                | Some "" | None => None
                | Some id => get_paper_metadata' id
                end |}.
Proof.
  unfold process_file', process_file, extract_pdf_text.
  destruct (fitz_pages _) as [pages|] eqn:Ep; [|discriminate]. cbn [bind].
  destruct (preserve_equations _) as [processed eqs] eqn:Epe. cbn [fst snd].
  destruct (write_text _ _); [|discriminate]. cbn [bind].
  destruct (match eqs with [] => _ | _ => _ end); [|discriminate]. cbn [bind].
  destruct (calculate_readability _ _ _ _ processed) as [m|] eqn:Em;
    [|discriminate].
  cbn [bind]. intros [= <-]. exists pages, m. rewrite Epe. cbn [fst snd].
  repeat split; assumption.
Qed.

(** X2.  A file is lost only when its pages cannot be read or its output cannot
    be written: neither the lookup of the metadata nor the metrics make
    [process_file] raise. *)
Theorem X2_process_file_raises (filename : string) :
  process_file' filename = Raises <->
  match fitz_pages (path_join PDF_DIR filename) with
  | Raises => True
  | Returns pages =>
      let raw :=
        Str.join (String Char.newline (String Char.newline ""))
          (map clean_page pages) in
      let root := splitext_root filename in
      write_text (path_join TEXT_DIR (root ++ ".txt"))
        (fst (preserve_equations raw)) = Raises
      \/ (snd (preserve_equations raw) <> []
          /\ write_csv (path_join TEXT_DIR (root ++ "_equations.csv"))
               (snd (preserve_equations raw)) = Raises)
  end.
Proof.
  unfold process_file', process_file, extract_pdf_text.
  destruct (fitz_pages _) as [pages|]; [|easy]. cbn [bind]. cbv zeta.
  destruct (preserve_equations _) as [processed eqs]. cbn [fst snd].
  destruct (write_text _ _) as [[]|]; cbn [bind]; [|tauto].
  destruct (calculate_readability_returns score fre fog smog processed)
    as (m & Hm & _).
  destruct eqs as [|e eqs].
  - cbn [bind]. rewrite Hm. cbn [bind]. split; [discriminate|].
    intros [H|[H _]]; [discriminate H | now destruct H].
  - destruct (write_csv _ _) as [[]|]; cbn [bind].
    + rewrite Hm. cbn [bind]. split; [discriminate|].
      intros [H|[_ H]]; discriminate H.
    + split; [|reflexivity]. intros _. right. split; [discriminate|reflexivity].
Qed.

(** X3.  The names of a paper.  For an entry [stem.pdf] without separator, the
    paper is named [stem], its text goes to [./processed_papers/stem.txt]
    and its equations, when it has any, to
    [./processed_papers/stem_equations.csv]; but when [stem] is made of
    dots only (or is empty), [os.path.splitext] sees no extension and the
    paper keeps the name [stem.pdf]. *)
Theorem X3_process_file_names (stem : string) r :
  count_char "/" stem = 0 ->
  process_file' (stem ++ ".pdf") = Returns r ->
  let name := if all_chars (Ascii.eqb ".") stem then stem ++ ".pdf" else stem in
  paper_id r = name
  /\ text_path r = "./processed_papers/" ++ name ++ ".txt"
  /\ (equation_path r = None
      \/ equation_path r = Some ("./processed_papers/" ++ name ++ "_equations.csv")).
Proof.
  intros Hs Hr. apply process_file_inv in Hr as (pages & m & _ & _ & ->).
  cbn [paper_id text_path equation_path]. rewrite (splitext_root_pdf stem Hs).
  assert (Hn : count_char "/"
                 (if all_chars (Ascii.eqb ".") stem then stem ++ ".pdf" else stem) = 0).
  { destruct (all_chars _ stem); [|exact Hs]. now rewrite count_char_app, Hs. }
  cbv zeta. revert Hn.
  generalize (if all_chars (Ascii.eqb ".") stem then stem ++ ".pdf" else stem).
  intros name Hn. split; [reflexivity|]. split.
  - apply text_dir_join. now rewrite count_char_app, Hn.
  - destruct (snd _); [now left|right]. f_equal.
    apply text_dir_join. now rewrite count_char_app, Hn.
Qed.

Lemma before_first_no_sep c s : count_char c (Str.before_first c s) = 0.
Proof.
  induction s as [|d s IH]; simpl; [reflexivity|].
  destruct (Ascii.eqb d c) eqn:E; simpl; [reflexivity|]. now rewrite E.
Qed.

Lemma or_default_not_empty x d : d <> "" -> or_default x d <> "".
Proof. intros H. destruct x as [[|c s]|]; simpl; congruence. Qed.

Lemma get_paper_metadata_inv id m :
  get_paper_metadata' id = Some m ->
  exists result rest,
    arxiv_results id = Returns (result :: rest)
    /\ primary_category m = result_primary_category result
    /\ published_date m = result_published result
    /\ journal_ref m <> "".
Proof.
  unfold get_paper_metadata', get_paper_metadata.
  destruct (arxiv_results id) as [[|result rest]|]; cbn [bind next]; try discriminate.
  intros [= <-]. exists result, rest. cbn. repeat split.
  now apply or_default_not_empty.
Qed.

Lemma identifier_not_empty id : is_identifier id -> id <> "".
Proof.
  intros (d4 & d45 & -> & _ & H4 & _). destruct d4; [discriminate H4|discriminate].
Qed.

(** X4.  What every row of the table satisfies.  The domain holds no dot.  A
    row has metadata only when the file name holds an identifier, and the
    metadata are those of the first result of the lookup of that
    identifier; then the domain is the primary category up to its first
    dot and the year that of the publication.  A row without metadata has
    the domain [Unknown] and the current year. *)
Theorem X4_process_pdfs_invariant r :
  In r process_pdfs' ->
  count_char "." (domain r) = 0
  /\ match meta r with
     | Some m =>
         domain r = Str.before_first "." (primary_category m)
         /\ record_year r = year (published_date m)
         /\ exists id result rest,
              arxiv_id r = Some id
              /\ arxiv_results id = Returns (result :: rest)
              /\ primary_category m = result_primary_category result
              /\ published_date m = result_published result
              /\ journal_ref m <> ""
     | None => domain r = "Unknown" /\ record_year r = now_year
     end
  /\ (arxiv_id r = None -> meta r = None).
Proof.
  intros H. apply process_pdfs_in in H as (f & _ & _ & H).
  apply process_file_inv in H as (pages & m & _ & _ & ->).
  cbn [domain meta record_year arxiv_id].
  destruct (extract_arxiv_id f) as [[|c id]|] eqn:E;
    try (repeat split; (reflexivity || discriminate)).
  destruct (get_paper_metadata' (String c id)) as [md|] eqn:Em.
  - split; [apply before_first_no_sep|]. split; [|discriminate].
    split; [reflexivity|]. split; [reflexivity|].
    apply get_paper_metadata_inv in Em as (result & rest & H1 & H2 & H3 & H4).
    now exists (String c id), result, rest.
  - repeat split; (reflexivity || discriminate).
Qed.

(** X5.  The identifier and the name of a paper.  For an entry without
    separator that ends in [.pdf], the row has an identifier exactly when
    the name is some text, an identifier and an optional version before the
    extension; the name of the paper then ends with the identifier and the
    version, and the metadata are what the lookup of the identifier
    gives. *)
Theorem X5_process_file_identifier (filename : string) r :
  count_char "/" filename = 0 ->
  Str.endswith filename ".pdf" = true ->
  process_file' filename = Returns r ->
  (forall id, arxiv_id r = Some id <-> matches_identifier_pattern filename id)
  /\ (forall id, arxiv_id r = Some id ->
        meta r = get_paper_metadata' id
        /\ exists pre ver,
             is_version ver /\ paper_id r = pre ++ id ++ ver
             /\ filename = paper_id r ++ ".pdf").
Proof.
  intros Hs He Hr. apply process_file_inv in Hr as (pages & m & _ & _ & ->).
  cbn [arxiv_id meta paper_id].
  assert (Hiff : forall id, extract_arxiv_id filename = Some id
                            <-> matches_identifier_pattern filename id).
  { intros id. split.
    - intros H. apply extract_arxiv_id_sound in H as [H|(pre & ver & E & _)];
        [exact H|]. exfalso. rewrite E in He.
      replace (pre ++ id ++ ver ++ ".pdf" ++ nl)
        with ((pre ++ id ++ ver ++ ".pd") ++ String "f" nl) in He
        by now normalize_append.
      change (String "f" nl) with ("f" ++ nl) in He.
      rewrite <- append_assoc in He.
      change ".pdf" with (".pd" ++ "f") in He. unfold nl in He.
      rewrite endswith_last in He; [discriminate|].
      intros H. discriminate H.
    - intros H. apply extract_arxiv_id_complete. now left. }
  split; [exact Hiff|].
  intros id H. rewrite H. apply Hiff in H as (pre & ver & E & Hid & Hv).
  pose proof (identifier_not_empty id Hid) as Hne.
  split; [destruct id; [congruence|reflexivity]|].
  exists pre, ver. split; [exact Hv|].
  rewrite append_nil_r in E.
  assert (E' : filename = (pre ++ id ++ ver) ++ ".pdf")
    by (rewrite E; now normalize_append).
  assert (Hstem : count_char "/" (pre ++ id ++ ver) = 0).
  { rewrite E', count_char_app in Hs. lia. }
  assert (Hd : all_chars (Ascii.eqb ".") (pre ++ id ++ ver) = false).
  { destruct Hid as (d4 & d45 & -> & Hd4 & Hl4 & _).
    destruct d4 as [|d d4]; [discriminate Hl4|].
    unfold digits in Hd4. cbn [all_chars] in Hd4.
    apply andb_prop in Hd4 as [Hd _].
    rewrite all_chars_app. cbn [String.append all_chars].
    assert (Ascii.eqb "." d = false) as ->.
    { destruct (Ascii.eqb_spec "." d) as [<-|]; [discriminate Hd|reflexivity]. }
    cbn [andb]. apply andb_false_r. }
  rewrite E', (splitext_root_pdf _ Hstem), Hd. auto.
Qed.
End TableFacts.

Lemma X3_witness :
  let process :=
    process_file unit (fun _ => tt) (fun _ => tt) (fun _ => tt)
      (fun _ => Returns ["Let $x$ be a number."])
      (fun _ _ => Returns tt) (fun _ _ => Returns tt)
      (fun _ => Raises) 2025%Z in
  exists r,
    process "notes.v2.pdf" = Returns r
    /\ paper_id r = "notes.v2"
    /\ text_path r = "./processed_papers/notes.v2.txt"
    /\ equation_path r = Some "./processed_papers/notes.v2_equations.csv".
Proof.
  cbv zeta.
  destruct (process_file unit (fun _ => tt) (fun _ => tt) (fun _ => tt)
              (fun _ => Returns ["Let $x$ be a number."])
              (fun _ _ => Returns tt) (fun _ _ => Returns tt)
              (fun _ => Raises) 2025%Z "notes.v2.pdf") as [r|] eqn:E;
    [|vm_compute in E; discriminate E].
  exists r. split; [reflexivity|].
  destruct (X3_process_file_names unit (fun _ => tt) (fun _ => tt) (fun _ => tt)
              (fun _ => Returns ["Let $x$ be a number."])
              (fun _ _ => Returns tt) (fun _ _ => Returns tt)
              (fun _ => Raises) 2025%Z "notes.v2" r eq_refl E) as (H1 & H2 & H3).
  split; [exact H1|]. split; [exact H2|].
  destruct H3 as [H3|H3]; [|exact H3].
  vm_compute in E. injection E as <-. discriminate H3.
Defined.

Lemma X4_witness :
  let result :=
    {| result_title := "A paper"; result_authors := ["A. Author"; "B. Author"];
       result_published := {| year := 2021; month := 1; day := 4 |};
       result_primary_category := "cs.LG"; result_categories := ["cs.LG"; "stat.ML"];
       result_doi := None; result_journal_ref := None |} in
  let table :=
    process_pdfs unit (fun _ => tt) (fun _ => tt) (fun _ => tt)
      ["2101.00001v2.pdf"; "notes.txt"]
      (fun _ => Returns ["Let $x$ be a number."])
      (fun _ _ => Returns tt) (fun _ _ => Returns tt)
      (fun _ => Returns [result]) 2025%Z in
  exists r,
    In r table /\ count_char "." (domain r) = 0 /\ domain r = "cs"
    /\ record_year r = 2021%Z.
Proof.
  cbv zeta.
  destruct (process_pdfs unit (fun _ => tt) (fun _ => tt) (fun _ => tt)
              ["2101.00001v2.pdf"; "notes.txt"]
              (fun _ => Returns ["Let $x$ be a number."])
              (fun _ _ => Returns tt) (fun _ _ => Returns tt)
              (fun _ => Returns
                 [ {| result_title := "A paper";
                      result_authors := ["A. Author"; "B. Author"];
                      result_published := {| year := 2021; month := 1; day := 4 |};
                      result_primary_category := "cs.LG";
                      result_categories := ["cs.LG"; "stat.ML"];
                      result_doi := None; result_journal_ref := None |} ]) 2025%Z)
    as [|r l] eqn:E; [vm_compute in E; discriminate E|].
  exists r. split; [now left|].
  destruct (X4_process_pdfs_invariant unit (fun _ => tt) (fun _ => tt) (fun _ => tt)
              ["2101.00001v2.pdf"; "notes.txt"]
              (fun _ => Returns ["Let $x$ be a number."])
              (fun _ _ => Returns tt) (fun _ _ => Returns tt)
              (fun _ => Returns
                 [ {| result_title := "A paper";
                      result_authors := ["A. Author"; "B. Author"];
                      result_published := {| year := 2021; month := 1; day := 4 |};
                      result_primary_category := "cs.LG";
                      result_categories := ["cs.LG"; "stat.ML"];
                      result_doi := None; result_journal_ref := None |} ]) 2025%Z r)
    as (H1 & H2 & _).
  - rewrite E. now left.
  - split; [exact H1|]. vm_compute in E. injection E as <- _.
    cbn [meta] in H2. destruct H2 as (H2 & H3 & _). now rewrite H2, H3.
Defined.

Lemma X5_witness :
  let process :=
    process_file unit (fun _ => tt) (fun _ => tt) (fun _ => tt)
      (fun _ => Returns ["Let $x$ be a number."])
      (fun _ _ => Returns tt) (fun _ _ => Returns tt)
      (fun _ => Raises) 2025%Z in
  exists r,
    process "draft_2101.00001v2.pdf" = Returns r
    /\ (arxiv_id r = Some "2101.00001"
        <-> matches_identifier_pattern "draft_2101.00001v2.pdf" "2101.00001").
Proof.
  cbv zeta.
  destruct (process_file unit (fun _ => tt) (fun _ => tt) (fun _ => tt)
              (fun _ => Returns ["Let $x$ be a number."])
              (fun _ _ => Returns tt) (fun _ _ => Returns tt)
              (fun _ => Raises) 2025%Z "draft_2101.00001v2.pdf") as [r|] eqn:E;
    [|vm_compute in E; discriminate E].
  exists r. split; [reflexivity|].
  apply (X5_process_file_identifier unit (fun _ => tt) (fun _ => tt) (fun _ => tt)
           (fun _ => Returns ["Let $x$ be a number."])
           (fun _ _ => Returns tt) (fun _ _ => Returns tt)
           (fun _ => Raises) 2025%Z "draft_2101.00001v2.pdf" r eq_refl eq_refl E).
Defined.

(** ** The records of the equations *)

Lemma lstrip_fixed (s : string) :
  Re.first_is Char.is_space s = false -> Str.lstrip s = s.
Proof. destruct s as [|c s]; simpl; [reflexivity|]. now intros ->. Qed.

Lemma rstrip_first (s : string) :
  Re.first_is Char.is_space s = false ->
  Re.first_is Char.is_space (Str.rstrip s) = false.
Proof.
  destruct s as [|c s]; simpl; [reflexivity|]. intros H.
  destruct (Str.rstrip s); simpl; [now rewrite H|exact H].
Qed.

Lemma lstrip_first (s : string) :
  Re.first_is Char.is_space (Str.lstrip s) = false.
Proof.
  induction s as [|c s IH]; simpl; [reflexivity|].
  destruct (Char.is_space c) eqn:E; [exact IH|]. simpl. exact E.
Qed.

Lemma rstrip_rstrip (s : string) : Str.rstrip (Str.rstrip s) = Str.rstrip s.
Proof.
  induction s as [|c s IH]; simpl; [reflexivity|].
  destruct (Str.rstrip s) as [|d r] eqn:E.
  - destruct (Char.is_space c) eqn:Ec; simpl; [reflexivity|now rewrite Ec].
  - cbn [Str.rstrip] in IH |- *. now rewrite IH.
Qed.

(** [strip] leaves a stripped text as it is. *)
Lemma strip_strip (s : string) : Str.strip (Str.strip s) = Str.strip s.
Proof.
  unfold Str.strip.
  rewrite (lstrip_fixed (Str.rstrip (Str.lstrip s))).
  - apply rstrip_rstrip.
  - apply rstrip_first, lstrip_first.
Qed.

Lemma split_nil (s : string) : Str.split s = [] <-> all_chars Char.is_space s = true.
Proof.
  induction s as [|c s IH]; simpl; [tauto|].
  destruct (Char.is_space c); simpl; [exact IH|].
  split; [|discriminate].
  destruct s as [|d s]; [discriminate|].
  destruct (Char.is_space d); [discriminate|].
  destruct (Str.split (String d s)); discriminate.
Qed.

Lemma rstrip_spaces (s : string) :
  all_chars Char.is_space s = true -> Str.rstrip s = "".
Proof.
  induction s as [|c s IH]; simpl; [reflexivity|].
  intros H. apply andb_prop in H as [Hc Hs]. now rewrite (IH Hs), Hc.
Qed.

Lemma lstrip_spaces (s : string) :
  all_chars Char.is_space s = true -> Str.lstrip s = "".
Proof.
  induction s as [|c s IH]; simpl; [reflexivity|].
  intros H. apply andb_prop in H as [Hc Hs]. now rewrite Hc, IH.
Qed.

(** A stripped text without words is empty. *)
Lemma split_strip_nil (s : string) :
  Str.split (Str.strip s) = [] <-> Str.strip s = "".
Proof.
  split; [|now intros ->].
  intros H. apply split_nil in H. rewrite <- strip_strip.
  unfold Str.strip at 1. now rewrite (lstrip_spaces _ H).
Qed.

(** What the loops keep true of the records. *)
Lemma isolate_match_records (P : EquationRecord -> Prop) ty st m :
  (forall g,
     P {| eq_placeholder := placeholder_of ty (counter st);
          eq_equation := Str.strip g;
          eq_type := ty;
          eq_length := List.length (Str.split (Str.strip g)) |}) ->
  Forall P (equations st) -> Forall P (equations (isolate_match ty st m)).
Proof.
  intros Hp H. cbn [isolate_match equations]. apply Forall_app. split; [exact H|].
  constructor; [apply Hp | constructor].
Qed.

Lemma preserve_equations_records (P : EquationRecord -> Prop) (t : string) :
  (forall ty n g,
     P {| eq_placeholder := placeholder_of ty n;
          eq_equation := Str.strip g;
          eq_type := ty;
          eq_length := List.length (Str.split (Str.strip g)) |}) ->
  Forall P (snd (preserve_equations t)).
Proof.
  intros Hp. unfold preserve_equations. cbn [snd].
  assert (H : Forall P (equations {| text := t; equations := []; counter := 1 |}))
    by constructor.
  revert H. generalize {| text := t; equations := []; counter := 1 |} as st.
  generalize equation_patterns as ps.
  induction ps as [|p ps IH]; intros st H; [exact H|].
  cbn [fold_left]. apply IH. unfold isolate_pass.
  generalize (Re.finditer (fst p) (text st)) as ms. revert H.
  generalize st as st0.
  intros st0 H ms. revert st0 H.
  induction ms as [|m ms IHm]; intros st0 H; [exact H|].
  cbn [fold_left]. apply IHm. apply isolate_match_records; [|exact H].
  intros g. apply Hp.
Qed.

(** X6.  The equation of every record is stripped: whitespace neither starts
    nor ends it.  Its length is the number of its words, the maximal runs
    without whitespace, and it is 0 exactly for the empty equation, the
    record of delimiters with nothing or only whitespace between them. *)
Theorem X6_preserve_equations_record (t : string) (r : EquationRecord) :
  In r (snd (preserve_equations t)) ->
  Str.strip (eq_equation r) = eq_equation r
  /\ Re.first_is Char.is_space (eq_equation r) = false
  /\ eq_length r = List.length (Str.split (eq_equation r))
  /\ (eq_length r = 0 <-> eq_equation r = "").
Proof.
  revert r. apply Forall_forall. apply preserve_equations_records.
  intros ty n g. cbn [eq_equation eq_length]. split; [apply strip_strip|].
  split; [apply rstrip_first, lstrip_first|]. split; [reflexivity|].
  rewrite <- split_strip_nil. apply length_zero_iff_nil.
Qed.

Lemma X6_witness :
  In {| eq_placeholder := "[EQ_INLINE_2]"; eq_equation := "";
        eq_type := INLINE; eq_length := 0 |}
    (snd (preserve_equations "So \[ a = b \] and $ $."))
  /\ Str.strip "" = "".
Proof.
  assert (H : In {| eq_placeholder := "[EQ_INLINE_2]"; eq_equation := "";
                    eq_type := INLINE; eq_length := 0 |}
                (snd (preserve_equations "So \[ a = b \] and $ $.")))
    by (vm_compute; auto).
  split; [exact H|].
  exact (proj1 (X6_preserve_equations_record _ _ H)).
Defined.

(** One pass adds one record of its kind for each match it is given. *)
Lemma isolate_matches_types ty ms : forall st,
  map eq_type (equations (fold_left (isolate_match ty) ms st))
  = (map eq_type (equations st) ++ repeat ty (List.length ms))%list.
Proof.
  induction ms as [|m ms IH]; intros st; cbn [fold_left List.length repeat].
  - now rewrite List.app_nil_r.
  - rewrite IH. cbn [isolate_match equations]. rewrite map_app.
    cbn [map eq_type]. now rewrite <- List.app_assoc.
Qed.

Lemma isolate_pass_types st p :
  map eq_type (equations (isolate_pass st p))
  = (map eq_type (equations st)
     ++ repeat (snd p) (List.length (Re.finditer (fst p) (text st))))%list.
Proof. apply isolate_matches_types. Qed.

(** X7.  The list of the records holds one record for each match of the
    [\begin{equation}] pattern in the input, then one for each match of the
    [\[ \]] pattern in the text the first pass leaves, then one for each
    match of the [$ $] pattern in the text the second pass leaves: all
    the display records precede the inline ones, whatever the order of the
    equations in the text. *)
Theorem X7_preserve_equations_types (t : string) :
  map eq_type (snd (preserve_equations t))
  = (repeat DISPLAY
       (List.length
          (Re.finditer (delimited "\begin{equation}" "\end{equation}") t))
     ++ repeat DISPLAY
          (List.length
             (Re.finditer (delimited "\[" "\]") (text (after_passes 1 t))))
     ++ repeat INLINE
          (List.length
             (Re.finditer (delimited "$" "$") (text (after_passes 2 t)))))%list.
Proof.
  unfold preserve_equations, after_passes, equation_patterns.
  cbn [snd firstn fold_left]. rewrite !isolate_pass_types.
  cbn [fst snd text equations map app]. now rewrite <- List.app_assoc.
Qed.

(** ** The sentences *)

Lemma append_cancel_r (s t u : string) : s ++ u = t ++ u -> s = t.
Proof.
  intros H. apply append_eq_append in H as [(x & -> & H)|(x & -> & H)];
    apply (f_equal String.length) in H; rewrite length_append in H;
    destruct x; simpl in H; try lia; now rewrite append_nil_r.
Qed.

Lemma between_texts {G} (s : string) : Re.between (@texts G s) = [s].
Proof. induction s as [|c s IH]; simpl; [reflexivity | now rewrite IH]. Qed.

Lemma between_hit {G} (pre w : string) (g : G) (l : list (Re.piece G)) :
  Re.between (texts pre ++ Re.Hit w g :: l)%list = pre :: Re.between l.
Proof. induction pre as [|c pre IH]; simpl; [reflexivity | now rewrite IH]. Qed.

Section FirstHit.
Context {G : Type} (m : Re.pattern G).

(** The pattern consumes what it matches, and matches no empty text. *)
Hypothesis m_consumes :
  forall b s g r, m b s = Some (g, r) -> exists w, w <> "" /\ s = w ++ r.

(** A scan is free of matches, or it has a first one. *)
Lemma scan_from_first (s : string) : forall b,
  Re.scan_from m 0 b s = texts s
  \/ exists pre w g rest,
       s = pre ++ w ++ rest /\ w <> ""
       /\ m (revapp pre b) (w ++ rest) = Some (g, rest)
       /\ Re.scan_from m 0 b s
          = (texts pre ++ Re.Hit w g
             :: Re.scan_from m 0 (revapp w (revapp pre b)) rest)%list.
Proof.
  induction s as [|c s IH]; intros b; [now left|].
  destruct (m b (String c s)) as [[g r]|] eqn:E.
  - right. destruct (m_consumes _ _ _ _ E) as (w & Hw & Es).
    rewrite Es in E |- *. exists "", w, g, r. repeat split; auto.
    now apply scan_from_hit.
  - cbn [Re.scan_from]. rewrite E.
    destruct (IH (String c b)) as [H|(pre & w & g & rest & Es & Hw & Hm & H)].
    + left. now rewrite H.
    + right. exists (String c pre), w, g, rest. rewrite H, Es.
      repeat split; auto.
Qed.
End FirstHit.

Lemma first_is_revapp p (w b : string) :
  w <> "" -> Re.first_is p (revapp w b) = last_is p w.
Proof.
  revert b. induction w as [|c w IH]; intros b H; [congruence|].
  destruct w as [|d w]; [reflexivity|].
  change (revapp (String c (String d w)) b) with (revapp (String d w) (String c b)).
  rewrite IH by discriminate. reflexivity.
Qed.

Lemma last_is_all (p q : ascii -> bool) (w : string) :
  (forall c, q c = true -> p c = false) ->
  all_chars q w = true -> last_is p w = false.
Proof.
  intros Hpq. induction w as [|c w IH]; [reflexivity|].
  cbn [all_chars]. intros H. apply andb_prop in H as [Hc Hw].
  destruct w as [|d w]; [now apply Hpq | now apply IH].
Qed.

Lemma first_is_app p (u v : string) :
  u <> "" -> Re.first_is p (u ++ v) = Re.first_is p u.
Proof. destruct u; [congruence|reflexivity]. Qed.

Lemma space_not_terminator c : Char.is_space c = true -> Char.is_terminator c = false.
Proof. destruct c as [[] [] [] [] [] [] [] []]; vm_compute; congruence. Qed.

Lemma upper_not_space c : Char.is_upper c = true -> Char.is_space c = false.
Proof. destruct c as [[] [] [] [] [] [] [] []]; vm_compute; congruence. Qed.

(** A match of the break pattern is a run of whitespace after a
    terminator and before a capital. *)
Lemma sentence_break_re_inv b s g r :
  sentence_break_re b s = Some (g, r) ->
  Re.first_is Char.is_terminator b = true
  /\ exists w, blank w /\ s = w ++ r /\ Re.first_is Char.is_upper r = true.
Proof.
  unfold sentence_break_re, Re.not_behind. intros H.
  assert (H' : Re.behind Char.is_terminator
                 (Re.plus Char.is_space (Re.ahead Char.is_upper (Re.accept tt)))
                 b s = Some (g, r)).
  { destruct (Re.rewind 3 b s) as [[b' s']|]; [|exact H].
    destruct (Re.boundary _ b' s'); [discriminate H | exact H]. }
  clear H. unfold Re.behind in H'.
  destruct (Re.first_is Char.is_terminator b); [|discriminate H'].
  split; [reflexivity|]. unfold Re.plus in H'.
  apply chr_inv in H' as (c & s1 & -> & Hc & H).
  apply star_inv in H as (w & s2 & -> & Hw & H). unfold Re.ahead in H.
  destruct (Re.first_is Char.is_upper s2) eqn:Eu; [|discriminate H].
  unfold Re.accept in H. injection H as _ <-.
  exists (String c w). split; [|auto].
  split; [discriminate|]. cbn [all_chars]. now rewrite Hc, Hw.
Qed.

Lemma sentence_break_re_consumes b s g r :
  sentence_break_re b s = Some (g, r) -> exists w, w <> "" /\ s = w ++ r.
Proof.
  intros H. apply sentence_break_re_inv in H as (_ & w & [Hw _] & Hs & _).
  now exists w.
Qed.

(** The structure of a split, from a position that no terminator
    precedes. *)
Lemma split_structure (n : nat) : forall s b,
  String.length s <= n ->
  Re.first_is Char.is_terminator b = false ->
  let cs := Re.between (Re.scan_from sentence_break_re 0 b s) in
  (exists seps,
     List.length cs = S (List.length seps) /\ weave cs seps = s
     /\ Forall blank seps)
  /\ (forall i x y,
        nth_error cs i = Some x -> nth_error cs (S i) = Some y ->
        last_is Char.is_terminator x = true /\ Re.first_is Char.is_upper y = true)
  /\ (Re.first_is Char.is_space s = false ->
      forall p, Re.first_is p (hd "" cs) = Re.first_is p s).
Proof.
  induction n as [|n IH]; intros s b Hn Hb; cbv zeta.
  - destruct s; [|simpl in Hn; lia]. cbn. split; [|split].
    + exists []. repeat split. constructor.
    + intros [|i] x y H1 H2; discriminate H2.
    + reflexivity.
  - destruct (scan_from_first sentence_break_re sentence_break_re_consumes s b)
      as [E|(pre & w & g & rest & Es & Hw & Hm & E)]; rewrite E.
    + rewrite between_texts. split; [|split].
      * exists []. repeat split. constructor.
      * intros [|i] x y H1 H2; [discriminate H2 | destruct i; discriminate H2].
      * reflexivity.
    + rewrite between_hit.
      apply sentence_break_re_inv in Hm as (Ht & w' & [_ Hsp] & Ew & Hu).
      apply append_cancel_r in Ew. subst w'.
      assert (Hpre : pre <> "").
      { intros ->. simpl in Ht. congruence. }
      rewrite (first_is_revapp _ _ _ Hpre) in Ht.
      assert (Hb' : Re.first_is Char.is_terminator (revapp w (revapp pre b)) = false).
      { rewrite (first_is_revapp _ _ _ Hw).
        apply (last_is_all _ Char.is_space); [apply space_not_terminator | exact Hsp]. }
      assert (Hr : String.length rest <= n).
      { rewrite Es, !length_append in Hn. destruct w; [congruence|].
        simpl in Hn. lia. }
      destruct (IH rest _ Hr Hb') as ((seps & Hl & Hv & Hf) & Hadj & Hhd).
      cbv zeta in Hl, Hv, Hadj, Hhd. split; [|split].
      * exists (w :: seps). split; [|split].
        -- simpl. now rewrite Hl.
        -- cbn [weave]. now rewrite Hv, Es.
        -- constructor; [now split | exact Hf].
      * intros [|i] x y H1 H2.
        -- cbn [nth_error] in H1, H2. injection H1 as <-. split; [exact Ht|].
           assert (Ey : y = hd "" (Re.between
                                     (Re.scan_from sentence_break_re 0
                                        (revapp w (revapp pre b)) rest))).
           { destruct (Re.between _); [discriminate H2|]. now injection H2. }
           rewrite Ey, Hhd; [exact Hu|].
           destruct rest as [|c rest]; [discriminate Hu|].
           apply upper_not_space. exact Hu.
        -- cbn [nth_error] in H1, H2. apply (Hadj i x y H1 H2).
      * intros Hs p. cbn [hd]. rewrite Es. symmetry. now apply first_is_app.
Qed.

Lemma nth_error_in_split {A} (l : list A) (x : A) :
  In x l -> l <> [] ->
  x = hd x l \/ exists i y, nth_error l i = Some y /\ nth_error l (S i) = Some x.
Proof.
  intros H _. apply In_nth_error in H as [[|i] H].
  - left. destruct l; [discriminate H|]. now injection H.
  - right. assert (Hi : i < List.length l).
    { apply Nat.lt_succ_l. apply nth_error_Some. congruence. }
    apply nth_error_Some in Hi.
    destruct (nth_error l i) as [y|] eqn:E; [|congruence]. now exists i, y.
Qed.

Lemma rstrip_first_is p (s : string) :
  Re.first_is Char.is_space s = false ->
  Re.first_is p (Str.rstrip s) = Re.first_is p s.
Proof.
  destruct s as [|c s]; simpl; [reflexivity|]. intros H.
  destruct (Str.rstrip s); [now rewrite H | reflexivity].
Qed.

(** X8.  Splitting the text into sentences loses nothing but whitespace:
    the candidates are the cleaned text cut at runs of whitespace, one
    candidate more than there are cuts, and putting the runs back between
    the candidates gives the cleaned text. *)
Theorem X8_split_keeps_text (t : string) :
  exists seps,
    List.length (candidate_sentences t) = S (List.length seps)
    /\ weave (candidate_sentences t) seps = clean_text t
    /\ Forall blank seps.
Proof.
  unfold candidate_sentences, Re.split, Re.scan.
  apply (split_structure (String.length (clean_text t)) (clean_text t) "");
    [lia | reflexivity].
Qed.

(** X9.  Where the text is cut: of two successive candidates the first
    ends with [.], [!] or [?] and the second starts with a letter from [A]
    to [Z].  So every sentence that is kept starts with such a letter,
    except the one that comes from the first candidate. *)
Theorem X9_sentence_breaks (t : string) :
  (forall i x y,
     nth_error (candidate_sentences t) i = Some x ->
     nth_error (candidate_sentences t) (S i) = Some y ->
     last_is Char.is_terminator x = true /\ Re.first_is Char.is_upper y = true)
  /\ (forall s, In s (sentences t) ->
        s = Str.strip (hd "" (candidate_sentences t))
        \/ Re.first_is Char.is_upper s = true).
Proof.
  assert (H : forall i x y,
             nth_error (candidate_sentences t) i = Some x ->
             nth_error (candidate_sentences t) (S i) = Some y ->
             last_is Char.is_terminator x = true
             /\ Re.first_is Char.is_upper y = true).
  { unfold candidate_sentences, Re.split, Re.scan.
    apply (split_structure (String.length (clean_text t)) (clean_text t) "");
      [lia | reflexivity]. }
  split; [exact H|]. intros s Hs. unfold sentences in Hs.
  apply in_map_iff in Hs as (c & <- & Hc). apply filter_In in Hc as [Hc _].
  destruct (nth_error_in_split _ _ Hc) as [E|(i & y & Hy & Hx)].
  - intros E. rewrite E in Hc. destruct Hc.
  - left. f_equal. destruct (candidate_sentences t); [destruct Hc | exact E].
  - right. destruct (H i y c Hy Hx) as [_ Hu].
    assert (Hsp : Re.first_is Char.is_space c = false).
    { destruct c as [|d c]; [discriminate Hu|]. now apply upper_not_space. }
    unfold Str.strip. rewrite (lstrip_fixed _ Hsp).
    now rewrite rstrip_first_is.
Qed.

(** ** The cleaning of a page *)

Lemma run_after p (s : string) : run p s ++ after p s = s.
Proof.
  induction s as [|c s IH]; simpl; [reflexivity|].
  destruct (p c); simpl; [now rewrite IH | reflexivity].
Qed.

Lemma run_app_stop p (w rest : string) :
  all_chars p w = true -> Re.first_is p rest = false ->
  run p (w ++ rest) = w /\ after p (w ++ rest) = rest.
Proof.
  intros Hw Hr. induction w as [|c w IH]; simpl in *.
  - destruct rest as [|d rest]; simpl in *; [auto|]. now rewrite Hr.
  - apply andb_prop in Hw as [Hc Hw]. rewrite Hc.
    destruct (IH Hw) as [-> ->]. auto.
Qed.

Lemma run_stop p (x rest : string) :
  Re.first_is p rest = false ->
  run p (x ++ rest) = run p x /\ after p (x ++ rest) = after p x ++ rest.
Proof.
  intros Hr. induction x as [|c x IH]; simpl.
  - destruct rest as [|d rest]; simpl in *; [auto|]. now rewrite Hr.
  - destruct (p c); [|auto]. destruct IH as [-> ->]. auto.
Qed.

Section Span.
Context {R : Type}.
Implicit Types (k : @Re.cont R) (p : ascii -> bool).

(** A greedy star takes the whole run when its continuation succeeds
    after it. *)
Lemma star_span p k (s : string) : forall b,
  k (revapp (run p s) b) (after p s) <> None ->
  Re.star p k b s = k (revapp (run p s) b) (after p s).
Proof.
  induction s as [|c s IH]; intros b H; simpl in *; [reflexivity|].
  destruct (p c); [|reflexivity].
  change (revapp (String c (run p s)) b)
    with (revapp (run p s) (String c b)) in *.
  rewrite (IH _ H).
  destruct (k (revapp (run p s) (String c b)) (after p s)) eqn:E;
    [reflexivity | now elim H].
Qed.
End Span.

Lemma sub_no_match {G} (m : Re.pattern G) (repl : G -> string) (s : string) :
  Re.search m s = None -> Re.sub m repl s = s.
Proof.
  intros H. unfold Re.sub, Re.scan.
  rewrite hits_nil_texts by now apply search_none_hits.
  apply subst_texts.
Qed.

Lemma search_none {G} (m : Re.pattern G) (P : string -> Prop) (s : string) :
  (forall b x g r, m b x = Some (g, r) -> P x) ->
  (forall pre x, s = pre ++ x -> ~ P x) ->
  Re.search m s = None.
Proof.
  intros Hm Hs. destruct (Re.search m s) as [[g r]|] eqn:E; [|reflexivity].
  apply search_from_inv in E as (pre & x & b & Es & E).
  now apply Hm, (Hs pre) in E.
Qed.

Lemma count_char_pos_app c (u v : string) :
  0 < count_char c v -> 0 < count_char c (u ++ v).
Proof. rewrite count_char_app. lia. Qed.

(** The text of a match of [hyphenated_re]. *)
Lemma hyphenated_re_eq b (s : string) :
  hyphenated_re b s
  = match s with
    | String h (String n (String c s2)) =>
        if Ascii.eqb "-" h && Ascii.eqb Char.newline n && Char.is_word c
        then Some (String c (run Char.is_word s2), after Char.is_word s2)
        else None
    | _ => None
    end.
Proof.
  unfold hyphenated_re. cbn [Re.lit]. unfold Re.chr at 1 2.
  destruct s as [|h [|n [|c s2]]]; [reflexivity| | |].
  - destruct (Ascii.eqb "-" h); reflexivity.
  - destruct (Ascii.eqb "-" h); [|reflexivity].
    destruct (Ascii.eqb Char.newline n); reflexivity.
  - destruct (Ascii.eqb "-" h); [|reflexivity].
    destruct (Ascii.eqb Char.newline n); [|reflexivity]. cbn [andb].
    unfold Re.group, Re.plus, Re.chr.
    destruct (Char.is_word c); [|reflexivity].
    rewrite star_span; unfold Re.accept; [|discriminate].
    f_equal. f_equal.
    assert (E : String.length (String c s2) - String.length (after Char.is_word s2)
                = S (String.length (run Char.is_word s2))).
    { rewrite <- (run_after Char.is_word s2) at 1.
      cbn [String.length]. rewrite length_append. lia. }
    rewrite E. cbn [Str.take]. f_equal.
    rewrite <- (run_after Char.is_word s2) at 2. apply take_length_app.
Qed.

Lemma hyphenated_re_blind : blind hyphenated_re.
Proof. intros b b' s. now rewrite !hyphenated_re_eq. Qed.

Lemma hyphenated_re_hit b (w rest : string) :
  w <> "" -> all_chars Char.is_word w = true ->
  Re.first_is Char.is_word rest = false ->
  hyphenated_re b (("-" ++ nl ++ w) ++ rest) = Some (w, rest).
Proof.
  intros Hw Ha Hr. rewrite hyphenated_re_eq.
  destruct w as [|c w]; [congruence|]. cbn [all_chars] in Ha.
  apply andb_prop in Ha as [Hc Ha].
  cbn [String.append nl]. change (Ascii.eqb "-" "-") with true.
  rewrite Ascii.eqb_refl, Hc. cbn [andb].
  now destruct (run_app_stop Char.is_word w rest Ha Hr) as [-> ->].
Qed.

(** Before a hyphen the pattern matches as if the subject ended there. *)
Lemma hyphenated_re_stops b (x rest0 : string) :
  x <> "" ->
  hyphenated_re b (x ++ String "-" rest0)
  = match hyphenated_re b x with
    | Some (g, r) => Some (g, r ++ String "-" rest0)
    | None => None
    end.
Proof.
  intros Hx. rewrite !hyphenated_re_eq.
  destruct x as [|h [|n [|c x]]]; [congruence| | |].
  - cbn [String.append].
    destruct rest0 as [|d rest0]; destruct (Ascii.eqb "-" h); reflexivity.
  - cbn [String.append]. destruct (Ascii.eqb "-" h); [|reflexivity].
    destruct (Ascii.eqb Char.newline n); reflexivity.
  - cbn [String.append].
    destruct (Ascii.eqb "-" h && Ascii.eqb Char.newline n && Char.is_word c);
      [|reflexivity].
    now destruct (run_stop Char.is_word x (String "-" rest0) eq_refl) as [-> ->].
Qed.

Lemma hyphenated_re_needs b x g r :
  hyphenated_re b x = Some (g, r) ->
  Re.first_is (Ascii.eqb "-") x = true /\ 0 < count_char Char.newline x.
Proof.
  rewrite hyphenated_re_eq. destruct x as [|h [|n [|c x]]]; try discriminate.
  cbn [Re.first_is count_char].
  destruct (Ascii.eqb "-" h); [|discriminate]. cbn [andb].
  destruct (Ascii.eqb_spec Char.newline n) as [<-|]; [|discriminate].
  intros _. split; [reflexivity|]. rewrite Ascii.eqb_refl. lia.
Qed.

(** The hyphenation pass on a text with a broken word in it. *)
Lemma sub_hyphenated (a w rest : string) :
  w <> "" -> all_chars Char.is_word w = true ->
  Re.first_is Char.is_word rest = false ->
  Re.sub hyphenated_re (fun g1 => g1) (a ++ "-" ++ nl ++ w ++ rest)
  = Re.sub hyphenated_re (fun g1 => g1) a ++ w
    ++ Re.sub hyphenated_re (fun g1 => g1) rest.
Proof.
  intros Hw Ha Hr. unfold Re.sub, Re.scan.
  change ("-" ++ nl ++ w ++ rest) with (String "-" (nl ++ w ++ rest)).
  rewrite (scan_from_app hyphenated_re _
             (fun b x => hyphenated_re_stops b x (nl ++ w ++ rest))) by lia.
  rewrite subst_app. f_equal.
  change (String "-" (nl ++ w ++ rest)) with ("-" ++ nl ++ w ++ rest).
  replace ("-" ++ nl ++ w ++ rest) with (("-" ++ nl ++ w) ++ rest)
    by now rewrite !append_assoc.
  rewrite (scan_from_hit hyphenated_re _ _ _ w); [|discriminate|].
  - cbn [Re.subst]. f_equal.
    now rewrite (scan_from_blind hyphenated_re hyphenated_re_blind rest 0 _ "").
  - now apply hyphenated_re_hit.
Qed.

(** A match of [page_number_re] holds a digit between two line feeds. *)
Lemma page_number_re_needs b x g r :
  page_number_re b x = Some (g, r) ->
  0 < count_char Char.newline x /\ ~ no_digit x.
Proof.
  unfold page_number_re. intros H.
  apply star_inv in H as (w1 & x1 & -> & _ & H).
  apply chr_inv in H as (n & x2 & -> & Hn & H).
  apply star_inv in H as (w2 & x3 & -> & _ & H). unfold Re.plus in H.
  apply chr_inv in H as (d & x4 & -> & Hd & _).
  split.
  - apply count_char_pos_app. cbn [count_char].
    rewrite Ascii.eqb_sym, Hn. lia.
  - unfold no_digit. rewrite all_chars_app. cbn [all_chars].
    rewrite all_chars_app. cbn [all_chars]. rewrite Hd. cbn [negb andb].
    rewrite !andb_false_r. discriminate.
Qed.

Lemma no_digit_app (u v : string) : no_digit (u ++ v) <-> no_digit u /\ no_digit v.
Proof. unfold no_digit. rewrite all_chars_app. apply andb_true_iff. Qed.

Lemma sub_page_number_no_digit (s : string) :
  no_digit s -> Re.sub page_number_re (fun _ => nl) s = s.
Proof.
  intros H. apply sub_no_match.
  apply (search_none _ (fun x => ~ no_digit x)).
  - intros b x g r Hx. now apply page_number_re_needs in Hx.
  - intros pre x -> Hx. apply Hx. now apply no_digit_app in H.
Qed.

Lemma clean_page_no_digit (s : string) :
  no_digit s -> clean_page s = Re.sub hyphenated_re (fun g1 => g1) s.
Proof.
  intros H. unfold clean_page.
  change (String Char.newline "") with nl.
  now rewrite sub_page_number_no_digit.
Qed.

Lemma count_char_suffix c (pre x : string) :
  count_char c (pre ++ x) = 0 -> count_char c x = 0.
Proof. rewrite count_char_app. lia. Qed.

(** X10.  A page is left as it is when it holds no line feed, and when it
    holds neither a digit nor a hyphen: the two substitutions only act on
    a number between two line ends and on a hyphen before a line end. *)
Theorem X10_clean_page_unchanged (t : string) :
  count_char Char.newline t = 0 \/ (no_digit t /\ count_char "-" t = 0) ->
  clean_page t = t.
Proof.
  intros H.
  assert (Hp : Re.sub page_number_re (fun _ => nl) t = t).
  { destruct H as [H|[H _]]; [|now apply sub_page_number_no_digit].
    apply sub_no_match.
    apply (search_none _ (fun x => 0 < count_char Char.newline x)).
    - intros b x g r Hx. now apply page_number_re_needs in Hx.
    - intros pre x -> Hx. apply count_char_suffix in H. lia. }
  unfold clean_page. change (String Char.newline "") with nl. rewrite Hp.
  apply sub_no_match. destruct H as [H|[_ H]].
  - apply (search_none _ (fun x => 0 < count_char Char.newline x)).
    + intros b x g r Hx. now apply hyphenated_re_needs in Hx.
    + intros pre x -> Hx. apply count_char_suffix in H. lia.
  - apply (search_none _ (fun x => Re.first_is (Ascii.eqb "-") x = true)).
    + intros b x g r Hx. now apply hyphenated_re_needs in Hx.
    + intros pre x -> Hx. apply count_char_suffix in H.
      destruct x as [|c x]; [discriminate Hx|].
      cbn [Re.first_is] in Hx. cbn [count_char] in H.
      rewrite Ascii.eqb_sym, Hx in H. discriminate H.
Qed.

Lemma X10_witness :
  (count_char Char.newline "A one-line page, number 12." = 0
   \/ (no_digit "A one-line page, number 12."
       /\ count_char "-" "A one-line page, number 12." = 0))
  /\ clean_page "A one-line page, number 12." = "A one-line page, number 12.".
Proof.
  assert (H : count_char Char.newline "A one-line page, number 12." = 0
              \/ (no_digit "A one-line page, number 12."
                  /\ count_char "-" "A one-line page, number 12." = 0))
    by (left; reflexivity).
  split; [exact H|]. apply (X10_clean_page_unchanged _ H).
Defined.

(** X11.  A word broken at a line end is joined: in a page without digits,
    a hyphen, a line feed and the word characters that follow them become
    these word characters, wherever they stand, and what precedes and what
    follows is cleaned as it would be on its own. *)
Theorem X11_clean_page_joins (a w rest : string) :
  no_digit (a ++ "-" ++ nl ++ w ++ rest) ->
  w <> "" -> all_chars Char.is_word w = true ->
  Re.first_is Char.is_word rest = false ->
  clean_page (a ++ "-" ++ nl ++ w ++ rest) = clean_page a ++ w ++ clean_page rest.
Proof.
  intros Hd Hw Ha Hr. rewrite (clean_page_no_digit _ Hd).
  apply no_digit_app in Hd as [Hda Hd].
  apply no_digit_app in Hd as [_ Hd]. apply no_digit_app in Hd as [_ Hd].
  apply no_digit_app in Hd as [_ Hdr].
  rewrite (clean_page_no_digit _ Hda), (clean_page_no_digit _ Hdr).
  now apply sub_hyphenated.
Qed.

Lemma X11_witness :
  no_digit ("a state-of-" ++ "-" ++ nl ++ "art" ++ " exam-" ++ nl ++ "ple.")
  /\ clean_page ("a state-of-" ++ "-" ++ nl ++ "art" ++ " exam-" ++ nl ++ "ple.")
     = "a state-of-art example.".
Proof.
  assert (H : no_digit ("a state-of-" ++ "-" ++ nl ++ "art" ++ " exam-" ++ nl ++ "ple."))
    by reflexivity.
  split; [exact H|].
  rewrite (X11_clean_page_joins "a state-of-" "art" (" exam-" ++ nl ++ "ple.") H);
    [reflexivity | discriminate | reflexivity | reflexivity].
Defined.

Lemma digit_not_space c : Char.is_digit c = true -> Char.is_space c = false.
Proof. destruct c as [[] [] [] [] [] [] [] []]; vm_compute; congruence. Qed.

Lemma not_space_not_newline c :
  Char.is_space c = false -> Ascii.eqb Char.newline c = false.
Proof. destruct c as [[] [] [] [] [] [] [] []]; vm_compute; congruence. Qed.

Lemma last_is_cons p c (s : string) :
  s <> "" -> last_is p (String c s) = last_is p s.
Proof. destruct s; [congruence|reflexivity]. Qed.

Section LineEnd.
Context {R : Type} (k : @Re.cont R).

(** [\s*\n] finds no line feed in a line that does not end with
    whitespace. *)
Lemma star_space_newline_fails (s : string) : forall rest b,
  s <> "" -> last_is Char.is_space s = false ->
  count_char Char.newline s = 0 ->
  Re.star Char.is_space (Re.chr (Ascii.eqb Char.newline) k) b (s ++ rest) = None.
Proof.
  induction s as [|c s IH]; intros rest b Hs Hl Hn; [congruence|].
  cbn [count_char] in Hn.
  assert (Hc : Ascii.eqb Char.newline c = false).
  { rewrite Ascii.eqb_sym. destruct (Ascii.eqb c Char.newline); [discriminate Hn|auto]. }
  assert (Hn' : count_char Char.newline s = 0)
    by (destruct (Ascii.eqb c Char.newline); [discriminate Hn | exact Hn]).
  change (String c s ++ rest) with (String c (s ++ rest)). cbn [Re.star].
  assert (Hk : Re.chr (Ascii.eqb Char.newline) k b (String c (s ++ rest)) = None)
    by (unfold Re.chr; now rewrite Hc).
  rewrite Hk. destruct (Char.is_space c) eqn:Esp; [|reflexivity].
  destruct s as [|d s]; [cbn in Hl; congruence|].
  rewrite IH; [reflexivity | discriminate | | exact Hn'].
  now rewrite last_is_cons in Hl by discriminate.
Qed.
End LineEnd.

Lemma page_number_re_blind : blind page_number_re.
Proof.
  unfold page_number_re.
  repeat first [apply blind_star | apply blind_chr | apply blind_plus].
  intros b b' s. reflexivity.
Qed.

(** The scan of [page_number_re] passes a line that holds no line feed and
    does not end with whitespace. *)
Lemma scan_page_number_line (a rest : string) : forall b,
  count_char Char.newline a = 0 -> last_is Char.is_space a = false ->
  Re.scan_from page_number_re 0 b (a ++ rest)
  = (texts a ++ Re.scan_from page_number_re 0 (revapp a b) rest)%list.
Proof.
  induction a as [|c a IH]; intros b Hn Hl; [reflexivity|].
  assert (E : page_number_re b (String c a ++ rest) = None)
    by (apply star_space_newline_fails; [discriminate | exact Hl | exact Hn]).
  change (String c a ++ rest) with (String c (a ++ rest)) in *.
  cbn [Re.scan_from]. rewrite E. cbn [texts app revapp]. f_equal.
  cbn [count_char] in Hn. apply IH; [lia|].
  destruct a as [|d a]; [reflexivity|].
  now rewrite last_is_cons in Hl by discriminate.
Qed.

(** A line that holds a number and nothing else is a match, with the line
    feed before it. *)
Lemma page_number_re_hit b (d rest : string) :
  d <> "" -> digits d -> Re.first_is Char.is_space rest = false ->
  page_number_re b ((nl ++ d ++ nl) ++ rest) = Some (tt, rest).
Proof.
  intros Hd Hds Hr. destruct d as [|d0 d]; [congruence|].
  unfold digits in Hds. cbn [all_chars] in Hds. apply andb_prop in Hds as [Hd0 Hds].
  pose proof (digit_not_space _ Hd0) as Hsp.
  pose proof (not_space_not_newline _ Hsp) as Hnl.
  assert (Hrest : forall b' (K : @Re.cont (unit * string)),
            Re.star Char.is_space (Re.chr (Ascii.eqb Char.newline) K) b' rest = None).
  { intros b' K. destruct rest as [|e rest]; [reflexivity|].
    cbn [Re.first_is] in Hr. cbn [Re.star]. rewrite Hr. unfold Re.chr.
    now rewrite (not_space_not_newline _ Hr). }
  assert (Hacc : forall b', Re.star Char.is_space (Re.accept tt) b' rest = Some (tt, rest)).
  { intros b'. destruct rest as [|e rest]; [reflexivity|].
    cbn [Re.first_is] in Hr. cbn [Re.star]. now rewrite Hr. }
  unfold page_number_re.
  replace ((nl ++ String d0 d ++ nl) ++ rest)
    with (String Char.newline (String d0 (d ++ String Char.newline rest)))
    by (unfold nl; cbn [String.append]; now rewrite append_assoc).
  cbn [Re.star]. change (Char.is_space Char.newline) with true. cbv iota.
  rewrite Hsp. unfold Re.chr at 1. rewrite Hnl.
  unfold Re.chr at 1. rewrite Ascii.eqb_refl.
  cbn [Re.star]. rewrite Hsp. unfold Re.plus, Re.chr at 1. rewrite Hd0.
  apply star_run; [exact Hds | reflexivity|].
  cbn [Re.star]. change (Char.is_space Char.newline) with true. cbv iota.
  rewrite Hrest. unfold Re.chr. rewrite Ascii.eqb_refl. apply Hacc.
Qed.

Lemma sub_page_number_line (a d rest : string) :
  count_char Char.newline a = 0 -> last_is Char.is_space a = false ->
  d <> "" -> digits d -> Re.first_is Char.is_space rest = false ->
  Re.sub page_number_re (fun _ => nl) (a ++ nl ++ d ++ nl ++ rest)
  = a ++ nl ++ Re.sub page_number_re (fun _ => nl) rest.
Proof.
  intros Hn Hl Hd Hds Hr. unfold Re.sub, Re.scan.
  rewrite scan_page_number_line by assumption.
  rewrite subst_app, subst_texts. f_equal.
  replace (nl ++ d ++ nl ++ rest) with ((nl ++ d ++ nl) ++ rest)
    by now rewrite !append_assoc.
  rewrite (scan_from_hit page_number_re _ _ _ tt);
    [|discriminate | now apply page_number_re_hit].
  cbn [Re.subst]. f_equal.
  now rewrite (scan_from_blind page_number_re page_number_re_blind rest 0 _ "").
Qed.

(** The scan of [hyphenated_re] passes a text without hyphen. *)
Lemma scan_hyphenated_plain (u rest : string) : forall b,
  count_char "-" u = 0 ->
  Re.scan_from hyphenated_re 0 b (u ++ rest)
  = (texts u ++ Re.scan_from hyphenated_re 0 (revapp u b) rest)%list.
Proof.
  induction u as [|c u IH]; intros b Hu; [reflexivity|].
  cbn [count_char] in Hu.
  assert (Hc : Ascii.eqb "-" c = false).
  { rewrite Ascii.eqb_sym. destruct (Ascii.eqb c "-"); [discriminate Hu|auto]. }
  change (String c u ++ rest) with (String c (u ++ rest)).
  cbn [Re.scan_from]. rewrite hyphenated_re_eq.
  assert (E : match u ++ rest with
              | String n (String c0 s2) =>
                  if Ascii.eqb "-" c && Ascii.eqb Char.newline n && Char.is_word c0
                  then Some (String c0 (run Char.is_word s2), after Char.is_word s2)
                  else None
              | _ => None
              end = None)
    by (rewrite Hc; now destruct (u ++ rest) as [|n [|c0 s2]]).
  rewrite E. cbn [texts app revapp]. f_equal. apply IH.
  destruct (Ascii.eqb c "-"); [discriminate Hu | exact Hu].
Qed.

(** X12.  A line that holds only a number is dropped with its line end:
    after a line [a] without hyphen that does not end with whitespace, and
    before a text [rest] that does not start with whitespace, the number
    [d] and one of the two line feeds around it go, and [rest] is cleaned
    as it would be on its own. *)
Theorem X12_clean_page_drops_number (a d rest : string) :
  count_char Char.newline a = 0 -> count_char "-" a = 0 ->
  last_is Char.is_space a = false ->
  d <> "" -> digits d -> Re.first_is Char.is_space rest = false ->
  clean_page (a ++ nl ++ d ++ nl ++ rest) = a ++ nl ++ clean_page rest.
Proof.
  intros Hn Hh Hl Hd Hds Hr. unfold clean_page.
  change (String Char.newline "") with nl.
  rewrite sub_page_number_line by assumption.
  unfold Re.sub at 1 3, Re.scan.
  replace (a ++ nl ++ Re.sub page_number_re (fun _ => nl) rest)
    with ((a ++ nl) ++ Re.sub page_number_re (fun _ => nl) rest)
    by now rewrite append_assoc.
  rewrite scan_hyphenated_plain
    by (rewrite count_char_app, Hh; reflexivity).
  rewrite subst_app, subst_texts, append_assoc. do 2 f_equal.
  now rewrite (scan_from_blind hyphenated_re hyphenated_re_blind _ 0 _ "").
Qed.

Lemma X12_witness :
  clean_page ("the end of a page." ++ nl ++ "12" ++ nl ++ "Then the next.")
  = "the end of a page." ++ nl ++ "Then the next.".
Proof.
  rewrite (X12_clean_page_drops_number "the end of a page." "12" "Then the next.");
    [reflexivity | reflexivity | reflexivity | reflexivity | discriminate
    | reflexivity | reflexivity].
Defined.

(** ** The words *)

Lemma hyphen_not_word c : is_hyphen c = true -> Char.is_word c = false.
Proof. destruct c as [[] [] [] [] [] [] [] []]; vm_compute; congruence. Qed.

Lemma word_or_hyphen c :
  Char.is_word_or_hyphen c = Char.is_word c || is_hyphen c.
Proof. reflexivity. Qed.

Lemma not_word_or_hyphen c :
  Char.is_word_or_hyphen c = false -> Char.is_word c = false.
Proof. rewrite word_or_hyphen. now intros H%orb_false_elim. Qed.

Lemma run_all p (s : string) : all_chars p (run p s) = true.
Proof.
  induction s as [|c s IH]; simpl; [reflexivity|].
  destruct (p c) eqn:E; simpl; [now rewrite E | reflexivity].
Qed.

Lemma after_first p (s : string) : Re.first_is p (after p s) = false.
Proof.
  induction s as [|c s IH]; simpl; [reflexivity|].
  destruct (p c) eqn:E; simpl; [exact IH | exact E].
Qed.

Lemma run_none p (s : string) :
  Re.first_is p s = false -> run p s = "" /\ after p s = s.
Proof. destruct s as [|c s]; simpl; [auto|]. now intros ->. Qed.

Lemma runs_run p (s : string) :
  Re.first_is p s = true -> runs p s = run p s :: runs p (after p s).
Proof.
  induction s as [|c s IH]; [discriminate|].
  cbn [Re.first_is runs run after]. intros Hc. rewrite Hc.
  destruct (Re.first_is p s) eqn:E.
  - now rewrite (IH eq_refl).
  - now destruct (run_none p s E) as [-> ->].
Qed.

Lemma rtrim_split p (s : string) :
  exists ds, s = rtrim p s ++ ds /\ all_chars p ds = true.
Proof.
  induction s as [|c s (ds & Es & Hds)]; [now exists ""|].
  cbn [rtrim]. destruct (rtrim p s) as [|d r] eqn:E.
  - destruct (p c) eqn:Ec.
    + exists (String c ds). cbn [String.append all_chars] in *.
      now rewrite Ec, Hds, Es.
    + exists ds. cbn [String.append] in *. now rewrite Es at 1.
  - exists ds. cbn [String.append] in *. now rewrite Es at 1.
Qed.

Lemma rtrim_last p (s : string) : last_is p (rtrim p s) = false.
Proof.
  induction s as [|c s IH]; [reflexivity|]. cbn [rtrim].
  destruct (rtrim p s) as [|d r] eqn:E.
  - destruct (p c) eqn:Ec; [reflexivity | exact Ec].
  - now rewrite last_is_cons by discriminate.
Qed.

Lemma rtrim_first p c (s : string) :
  Re.first_is p (String c s) = false -> exists r, rtrim p (String c s) = String c r.
Proof.
  cbn [Re.first_is rtrim]. intros Hc. destruct (rtrim p s) as [|d r].
  - rewrite Hc. now exists "".
  - now exists (String d r).
Qed.

Lemma last_is_not p (s : string) :
  s <> "" -> last_is p s = false -> last_is (fun c => negb (p c)) s = true.
Proof.
  induction s as [|c s IH]; [congruence|]. intros _.
  destruct s as [|d s]; cbn [last_is].
  - now intros ->.
  - intros H. apply IH; [discriminate | exact H].
Qed.

Lemma last_is_all_true (p q : ascii -> bool) (s : string) :
  (forall c, p c = true -> q c = true -> False) ->
  all_chars (fun c => p c || q c) s = true -> s <> "" ->
  last_is q s = false -> last_is p s = true.
Proof.
  intros Hpq. induction s as [|c s IH]; [congruence|].
  cbn [all_chars]. intros H _. apply andb_prop in H as [Hc Hs].
  destruct s as [|d s]; cbn [last_is].
  - intros Hq. rewrite Hq in Hc. now rewrite orb_false_r in Hc.
  - intros H. apply IH; [exact Hs | discriminate | exact H].
Qed.

Section Fallback.
Context {R : Type}.
Implicit Types (k : @Re.cont R) (p : ascii -> bool).

(** A greedy star gives back a run after which its continuation fails
    everywhere. *)
Lemma star_fallback p k (v : string) : forall b rest,
  all_chars p v = true -> Re.first_is p rest = false ->
  (forall v1 v2, v = v1 ++ v2 -> v1 <> "" ->
     k (revapp v1 b) (v2 ++ rest) = None) ->
  Re.star p k b (v ++ rest) = k b (v ++ rest).
Proof.
  induction v as [|c v IH]; intros b rest Hv Hr Hk.
  - cbn [String.append]. destruct rest as [|d rest]; [reflexivity|].
    cbn [Re.first_is] in Hr. cbn [Re.star]. now rewrite Hr.
  - cbn [all_chars] in Hv. apply andb_prop in Hv as [Hc Hv].
    change (String c v ++ rest) with (String c (v ++ rest)).
    cbn [Re.star]. rewrite Hc, IH; [|exact Hv | exact Hr|].
    + pose proof (Hk (String c "") v eq_refl ltac:(discriminate)) as E.
      cbn [revapp] in E. now rewrite E.
    + intros v1 v2 -> H1.
      apply (Hk (String c v1) v2); [reflexivity | discriminate].
Qed.
End Fallback.

Lemma hits_texts {G} (s : string) : Re.hits (@texts G s) = [].
Proof. induction s as [|c s IH]; simpl; auto. Qed.

Lemma first_is_word_hyphens (ds rest : string) :
  all_chars is_hyphen ds = true ->
  Re.first_is Char.is_word_or_hyphen rest = false ->
  Re.first_is Char.is_word (ds ++ rest) = false.
Proof.
  destruct ds as [|d ds]; cbn [String.append all_chars Re.first_is].
  - intros _. destruct rest as [|c rest]; [reflexivity|].
    cbn [Re.first_is]. apply not_word_or_hyphen.
  - intros H _. apply andb_prop in H as [H _]. now apply hyphen_not_word.
Qed.

(** The closing [\b] fails after a hyphen that only hyphens follow in the
    run. *)
Lemma boundary_fails_in_hyphens {R} (k : @Re.cont R) (v1 v2 b rest : string) :
  v1 <> "" -> all_chars is_hyphen (v1 ++ v2) = true ->
  Re.first_is Char.is_word_or_hyphen rest = false ->
  Re.boundary k (revapp v1 b) (v2 ++ rest) = None.
Proof.
  intros H1 Hv Hr. rewrite all_chars_app in Hv. apply andb_prop in Hv as [Hv1 Hv2].
  unfold Re.boundary.
  rewrite (first_is_revapp _ _ _ H1),
    (last_is_all _ is_hyphen v1 hyphen_not_word Hv1),
    (first_is_word_hyphens _ _ Hv2 Hr).
  reflexivity.
Qed.

(** The scan passes the hyphens that no word character precedes. *)
Lemma scan_hyphens (ds rest : string) : forall b,
  all_chars is_hyphen ds = true -> Re.first_is Char.is_word b = false ->
  Re.scan_from word_re 0 b (ds ++ rest)
  = (texts ds ++ Re.scan_from word_re 0 (revapp ds b) rest)%list
  /\ Re.first_is Char.is_word (revapp ds b) = false.
Proof.
  induction ds as [|d ds IH]; intros b Hds Hb; [now split|].
  cbn [all_chars] in Hds. apply andb_prop in Hds as [Hd Hds].
  change (String d ds ++ rest) with (String d (ds ++ rest)).
  cbn [Re.scan_from revapp].
  assert (E : word_re b (String d (ds ++ rest)) = None).
  { unfold word_re, Re.boundary at 1. cbn [Re.first_is].
    now rewrite Hb, (hyphen_not_word _ Hd). }
  rewrite E. destruct (IH (String d b) Hds) as [-> H].
  - cbn [Re.first_is]. now apply hyphen_not_word.
  - now split.
Qed.

(** A word is matched up to its last word character. *)
Lemma word_re_hit (body ds rest b : string) :
  Re.first_is Char.is_word b = false ->
  Re.first_is Char.is_word body = true -> last_is Char.is_word body = true ->
  all_chars Char.is_word_or_hyphen body = true ->
  all_chars is_hyphen ds = true ->
  Re.first_is Char.is_word_or_hyphen rest = false ->
  word_re b (body ++ ds ++ rest) = Some (tt, ds ++ rest).
Proof.
  intros Hb Hf Hl Hbody Hds Hr.
  destruct body as [|c body]; [discriminate Hf|].
  cbn [Re.first_is] in Hf. cbn [all_chars] in Hbody.
  apply andb_prop in Hbody as [Hc Hbody].
  change (String c body ++ ds ++ rest) with (String c (body ++ ds ++ rest)).
  unfold word_re, Re.boundary at 1. cbn [Re.first_is]. rewrite Hb, Hf.
  cbn [xorb]. unfold Re.plus, Re.chr. rewrite Hc.
  apply star_prefix; [exact Hbody|].
  rewrite star_fallback.
  - unfold Re.boundary.
    change (revapp body (String c b)) with (revapp (String c body) b).
    rewrite first_is_revapp by discriminate.
    now rewrite Hl, (first_is_word_hyphens _ _ Hds Hr).
  - apply (all_chars_weaken is_hyphen); [|exact Hds].
    intros e He. rewrite word_or_hyphen, He. apply orb_true_r.
  - exact Hr.
  - intros v1 v2 -> H1. now apply boundary_fails_in_hyphens.
Qed.

(** After a word, the scan passes the hyphens that follow it. *)
Lemma scan_after_word (ds rest b : string) :
  all_chars is_hyphen ds = true ->
  Re.first_is Char.is_word_or_hyphen rest = false ->
  Re.hits (Re.scan_from word_re 0 b (ds ++ rest))
  = Re.hits (Re.scan_from word_re 0 (revapp ds b) rest).
Proof.
  intros Hds Hr. destruct ds as [|d ds]; [reflexivity|].
  pose proof Hds as Hall. cbn [all_chars] in Hds.
  apply andb_prop in Hds as [Hd Hds].
  change (String d ds ++ rest) with (String d (ds ++ rest)).
  cbn [Re.scan_from revapp].
  assert (E : word_re b (String d (ds ++ rest)) = None).
  { unfold word_re, Re.boundary at 1.
    destruct (xorb _ _); [|reflexivity].
    unfold Re.plus, Re.chr. rewrite word_or_hyphen, Hd, orb_true_r.
    rewrite star_fallback.
    - apply (boundary_fails_in_hyphens _ (String d "") ds b rest);
        [discriminate | exact Hall | exact Hr].
    - apply (all_chars_weaken is_hyphen); [|exact Hds].
      intros e He. rewrite word_or_hyphen, He. apply orb_true_r.
    - exact Hr.
    - intros v1 v2 -> H1.
      apply (boundary_fails_in_hyphens _ (String d v1) v2 b rest);
        [discriminate | exact Hall | exact Hr]. }
  rewrite E. cbn [Re.hits].
  destruct (scan_hyphens ds rest (String d b) Hds) as [-> _].
  - cbn [Re.first_is]. now apply hyphen_not_word.
  - now rewrite hits_app, hits_texts.
Qed.

Lemma words_of_skip c (s : string) :
  Char.is_word_or_hyphen c = false -> words_of (String c s) = words_of s.
Proof. intros H. unfold words_of. cbn [runs]. now rewrite H. Qed.

Lemma words_of_run (s : string) :
  Re.first_is Char.is_word_or_hyphen s = true ->
  words_of s
  = (match trim_hyphens (run Char.is_word_or_hyphen s) with
     | "" => []
     | w => [w]
     end ++ words_of (after Char.is_word_or_hyphen s))%list.
Proof.
  intros H. unfold words_of. rewrite (runs_run _ _ H). cbn [map filter].
  now destruct (trim_hyphens _).
Qed.

(** The scan of [word_re] finds the words of the text. *)
Lemma scan_words (n : nat) : forall s b,
  String.length s <= n -> between_words b s ->
  map fst (Re.hits (Re.scan_from word_re 0 b s)) = words_of s.
Proof.
  induction n as [|n IH]; intros s b Hn Hpre.
  - destruct s; [reflexivity | simpl in Hn; lia].
  - destruct s as [|c s]; [reflexivity|].
    destruct (Char.is_word_or_hyphen c) eqn:Ec.
    + (* a run starts here *)
      destruct Hpre as [Hb|Hs]; [|cbn [Re.first_is] in Hs; congruence].
      rewrite words_of_run by exact Ec.
      pose proof (run_after Char.is_word_or_hyphen (String c s)) as Es.
      pose proof (run_all Char.is_word_or_hyphen (String c s)) as Hrun.
      pose proof (after_first Char.is_word_or_hyphen (String c s)) as Hrest.
      assert (Hlen : String.length (after Char.is_word_or_hyphen (String c s)) <= n).
      { cbn [after]. rewrite Ec. cbn [String.length] in Hn.
        rewrite <- (run_after Char.is_word_or_hyphen s), length_append in Hn. lia. }
      revert Es Hrun Hrest Hlen.
      generalize (run Char.is_word_or_hyphen (String c s)) as w.
      generalize (after Char.is_word_or_hyphen (String c s)) as rest.
      intros rest w Es Hrun Hrest Hlen. rewrite <- Es. clear Es.
      (* the hyphens before the word *)
      unfold trim_hyphens.
      pose proof (run_after is_hyphen w) as Ew.
      pose proof (run_all is_hyphen w) as Hd1.
      pose proof (after_first is_hyphen w) as Hcore.
      revert Ew Hd1 Hcore.
      generalize (run is_hyphen w) as ds1. generalize (after is_hyphen w) as core.
      intros core ds1 Ew Hd1 Hcore. subst w.
      rewrite all_chars_app in Hrun. apply andb_prop in Hrun as [_ Hcw].
      rewrite append_assoc.
      destruct (scan_hyphens ds1 (core ++ rest) b Hd1 Hb) as [-> Hb1].
      rewrite hits_app, hits_texts. cbn [app].
      destruct (rtrim_split is_hyphen core) as (ds2 & Ecore & Hd2).
      pose proof (rtrim_last is_hyphen core) as Hlast.
      destruct core as [|c0 core].
      * (* the run is made of hyphens *)
        cbn [rtrim String.append app].
        apply IH; [exact Hlen | now left].
      * (* the word *)
        destruct (rtrim_first is_hyphen c0 core Hcore) as (r & Er).
        rewrite Er in Ecore, Hlast |- *. cbn [app].
        assert (Hbody : all_chars Char.is_word_or_hyphen (String c0 r) = true).
        { rewrite Ecore, all_chars_app in Hcw. now apply andb_prop in Hcw. }
        assert (Hl : last_is Char.is_word (String c0 r) = true).
        { apply (last_is_all_true _ is_hyphen); auto; [|discriminate].
          intros e He1 He2. apply hyphen_not_word in He2. congruence. }
        assert (Hf : Re.first_is Char.is_word (String c0 r) = true).
        { cbn [Re.first_is] in Hcore |- *. cbn [all_chars] in Hbody.
          apply andb_prop in Hbody as [Hbody _].
          rewrite word_or_hyphen, Hcore, orb_false_r in Hbody. exact Hbody. }
        rewrite Ecore, append_assoc.
        rewrite (scan_from_hit word_re _ _ _ tt);
          [|discriminate | now apply word_re_hit].
        cbn [Re.hits map fst]. f_equal.
        rewrite scan_after_word by assumption.
        apply IH; [exact Hlen | now right].
    + (* a character between the words *)
      rewrite (words_of_skip _ _ Ec). cbn [Re.scan_from].
      assert (E : word_re b (String c s) = None).
      { unfold word_re, Re.boundary at 1. destruct (xorb _ _); [|reflexivity].
        unfold Re.plus, Re.chr. now rewrite Ec. }
      rewrite E. cbn [Re.hits]. apply IH; [simpl in Hn; lia|].
      left. cbn [Re.first_is]. now apply not_word_or_hyphen.
Qed.

(** X13.  What counts as a word: the words that [calculate_readability]
    counts are the maximal runs of word characters and hyphens of the
    cleaned text, each without the hyphens at its ends; a run of hyphens
    alone is no word. *)
Theorem X13_words (score : Type) (fre fog smog : string -> score) (t : string) :
  words t = words_of (clean_text t)
  /\ exists m,
       calculate_readability score fre fog smog t = Returns m
       /\ word_count m = List.length (words_of (clean_text t)).
Proof.
  assert (E : words t = words_of (clean_text t)).
  { unfold words, Re.findall, Re.finditer, Re.scan.
    apply (scan_words (String.length (clean_text t))); [lia | now left]. }
  split; [exact E|].
  destruct (calculate_readability_returns score fre fog smog t) as (m & Hm & Hw & _).
  exists m. split; [exact Hm|]. now rewrite Hw, E.
Qed.

(** ** The texts of [statpaper.py] and [download_pdfs.py] *)

Lemma split_on_not_nil sep (s : string) : split_on sep s <> [].
Proof.
  destruct s as [|c s]; cbn [split_on]; [discriminate|].
  destruct (Ascii.eqb c sep); [discriminate|].
  destruct (split_on sep s); discriminate.
Qed.

Lemma split_on_app sep (u y : string) :
  split_on sep (u ++ String sep y) = (split_on sep u ++ split_on sep y)%list.
Proof.
  induction u as [|c u IH]; cbn [String.append split_on].
  - now rewrite Ascii.eqb_refl.
  - rewrite IH. destruct (Ascii.eqb c sep); [reflexivity|].
    pose proof (split_on_not_nil sep u) as Hn.
    destruct (split_on sep u); [congruence | reflexivity].
Qed.

Lemma split_on_plain sep (x : string) :
  count_char sep x = 0 -> split_on sep x = [x].
Proof.
  induction x as [|c x IH]; cbn [count_char split_on]; [reflexivity|].
  destruct (Ascii.eqb c sep); [discriminate|]. intros H. now rewrite IH.
Qed.

(** No text of a split holds the separator. *)
Lemma split_on_no_sep sep (s : string) :
  Forall (fun w => count_char sep w = 0) (split_on sep s).
Proof.
  induction s as [|c s IH]; cbn [split_on].
  - repeat constructor.
  - destruct (Ascii.eqb c sep) eqn:E; [now constructor|].
    destruct (split_on sep s) as [|w ws]; [repeat constructor; simpl; now rewrite E|].
    inversion IH as [|? ? Hw Hws]; subst. constructor; [|exact Hws].
    simpl. now rewrite E.
Qed.

Lemma item_last_app {A} (l l' : list A) :
  l' <> [] -> item_last (l ++ l')%list = item_last l'.
Proof.
  intros H. induction l as [|x l IH]; [reflexivity|].
  cbn [app item_last]. destruct (l ++ l')%list eqn:E; [|exact IH].
  now apply app_eq_nil in E.
Qed.

Lemma item_last_in {A} (l : list A) :
  l <> [] -> exists x, item_last l = Returns x /\ In x l.
Proof.
  induction l as [|x l IH]; [congruence|]. intros _.
  destruct l as [|y l]; [exists x; simpl; auto|].
  destruct IH as (z & Hz & Hin); [discriminate|].
  exists z. split; [exact Hz | now right].
Qed.

Lemma item_first_in {A} (l : list A) :
  l <> [] -> exists x, item_first l = Returns x /\ In x l.
Proof. destruct l as [|x l]; [congruence|]. exists x. simpl. auto. Qed.

(** [s.split(sep)[0]] is what precedes the first separator. *)
Lemma item_first_split_on sep (s : string) :
  item_first (split_on sep s) = Returns (Str.before_first sep s).
Proof.
  induction s as [|c s IH]; cbn [split_on Str.before_first]; [reflexivity|].
  destruct (Ascii.eqb c sep); [reflexivity|].
  destruct (split_on sep s); [discriminate IH|]. cbn in IH |- *. congruence.
Qed.

(** X14.  The name [statpaper.py] gives a paper: the computation never
    raises, and the name holds neither [/] nor [v].  For an entry
    [base/id] or [base/idvN], where [id] holds neither character, it is
    [id]: the versions of a paper share one name, hence one file. *)
Theorem X14_statpaper_paper_id (entry_id : string) :
  (exists id,
     Statpaper.paper_id entry_id = Returns id
     /\ count_char "/" id = 0 /\ count_char "v" id = 0)
  /\ (forall base id n,
        entry_id = base ++ "/" ++ id ++ "v" ++ n \/ entry_id = base ++ "/" ++ id ->
        count_char "/" id = 0 -> count_char "v" id = 0 -> count_char "/" n = 0 ->
        Statpaper.paper_id entry_id = Returns id
        /\ Statpaper.pdf_path id = "./statistics_papers/" ++ id ++ ".pdf").
Proof.
  split.
  - unfold Statpaper.paper_id.
    destruct (item_last_in (split_on "/" entry_id)) as (x & -> & Hx);
      [apply split_on_not_nil|].
    cbn [bind].
    destruct (item_first_in (split_on "v" x)) as (id & -> & Hid);
      [apply split_on_not_nil|].
    exists id. split; [reflexivity|].
    pose proof (split_on_no_sep "/" entry_id) as Hs.
    pose proof (split_on_no_sep "v" x) as Hv.
    rewrite Forall_forall in Hs, Hv. split; [|now apply Hv].
    specialize (Hs _ Hx).
    assert (forall w, In w (split_on "v" x) -> count_char "/" w = 0) as Hsub.
    { clear Hid Hv Hx. induction x as [|c x IH]; cbn [split_on].
      - intros w [<-|[]]. reflexivity.
      - cbn [count_char] in Hs.
        assert (Hc : Ascii.eqb c "/" = false)
          by (destruct (Ascii.eqb c "/"); [discriminate Hs | reflexivity]).
        rewrite Hc in Hs. destruct (Ascii.eqb c "v").
        + intros w [<-|H]; [reflexivity | now apply IH].
        + specialize (IH Hs). destruct (split_on "v" x) as [|w0 ws].
          * intros w [<-|[]]. simpl. now rewrite Hc.
          * intros w [<-|H].
            -- simpl. rewrite Hc. apply IH. now left.
            -- apply IH. now right. }
    now apply Hsub.
  - intros base id n He Hs Hv Hn. split.
    + unfold Statpaper.paper_id. destruct He as [-> | ->].
      * change (base ++ "/" ++ id ++ "v" ++ n)
          with (base ++ String "/" (id ++ "v" ++ n)).
        rewrite split_on_app, item_last_app by apply split_on_not_nil.
        rewrite split_on_plain
          by (rewrite !count_char_app, Hs, Hn; reflexivity).
        cbn [item_last bind].
        change (id ++ "v" ++ n) with (id ++ String "v" n).
        rewrite split_on_app, (split_on_plain "v" id Hv). reflexivity.
      * change (base ++ "/" ++ id) with (base ++ String "/" id).
        rewrite split_on_app, item_last_app by apply split_on_not_nil.
        rewrite (split_on_plain "/" id Hs). cbn [item_last bind].
        now rewrite (split_on_plain "v" id Hv).
    + unfold Statpaper.pdf_path, path_join, Statpaper.download_dir.
      rewrite <- (append_nil_r (id ++ ".pdf")) at 1.
      rewrite startswith_no_char; [reflexivity|].
      now rewrite append_nil_r, count_char_app, Hs.
Qed.

(** X15.  The version [download_pdfs.py] records: the computation never
    raises, and the result is what follows the last [v] of the entry, so
    it holds no [v]; an entry without [v] is its own version. *)
Theorem X15_download_version (entry_id : string) :
  (exists v, Download.version entry_id = Returns v /\ count_char "v" v = 0)
  /\ (forall pre n,
        entry_id = pre ++ "v" ++ n -> count_char "v" n = 0 ->
        Download.version entry_id = Returns n)
  /\ (count_char "v" entry_id = 0 -> Download.version entry_id = Returns entry_id).
Proof.
  unfold Download.version. split; [|split].
  - destruct (item_last_in (split_on "v" entry_id)) as (x & -> & Hx);
      [apply split_on_not_nil|].
    exists x. split; [reflexivity|].
    pose proof (split_on_no_sep "v" entry_id) as Hv.
    rewrite Forall_forall in Hv. now apply Hv.
  - intros pre n -> Hn. change (pre ++ "v" ++ n) with (pre ++ String "v" n).
    rewrite split_on_app, item_last_app by apply split_on_not_nil.
    now rewrite (split_on_plain "v" n Hn).
  - intros H. now rewrite (split_on_plain "v" _ H).
Qed.

Lemma split_not_nil c (s : string) :
  Char.is_space c = false -> Str.split (String c s) <> [].
Proof.
  intros Hc. cbn [Str.split]. rewrite Hc. destruct s as [|d s]; [discriminate|].
  destruct (Char.is_space d); [discriminate|].
  destruct (Str.split (String d s)); discriminate.
Qed.

Lemma split_cons x (s : string) :
  Str.split (String x s)
  = if Char.is_space x then Str.split s
    else
      match s with
      | String d _ =>
          if Char.is_space d then String x "" :: Str.split s
          else
            match Str.split s with
            | w :: ws => String x w :: ws
            | [] => [String x ""]
            end
      | "" => [String x ""]
      end.
Proof. reflexivity. Qed.

(** The words of two texts that whitespace separates. *)
Lemma split_app_space (a b : string) c :
  Char.is_space c = true ->
  Str.split (a ++ String c b) = (Str.split a ++ Str.split b)%list.
Proof.
  intros Hc. induction a as [|x a IH].
  - cbn [String.append]. now rewrite split_cons, Hc.
  - change (String x a ++ String c b) with (String x (a ++ String c b)).
    rewrite (split_cons x (a ++ String c b)), (split_cons x a).
    destruct (Char.is_space x); [exact IH|].
    destruct a as [|d a].
    + cbn [String.append]. now rewrite Hc, split_cons, Hc.
    + rewrite IH. cbn [String.append].
      destruct (Char.is_space d) eqn:Ed; [reflexivity|].
      pose proof (split_not_nil d a Ed) as Hn.
      destruct (Str.split (String d a)); [congruence | reflexivity].
Qed.

Lemma split_join_newline (pages : list string) :
  Str.split (Download.paper_text pages) = flat_map Str.split pages.
Proof.
  unfold Download.paper_text, Str.join.
  induction pages as [|x l IH]; [reflexivity|].
  destruct l as [|y l].
  - cbn [String.concat flat_map]. now rewrite List.app_nil_r.
  - change (String.concat (String Char.newline "") (x :: y :: l))
      with (x ++ String Char.newline
                   (String.concat (String Char.newline "") (y :: l))).
    rewrite split_app_space by reflexivity. now rewrite IH.
Qed.

(** X16.  The word count [download_pdfs.py] records for a paper is the sum
    of the word counts of its pages: joining the pages with line feeds
    neither merges nor splits words. *)
Theorem X16_download_word_count (pages : list string) :
  Download.word_count (Download.paper_text pages)
  = list_sum (map Download.word_count pages).
Proof.
  unfold Download.word_count. rewrite split_join_newline.
  induction pages as [|x l IH]; [reflexivity|].
  cbn [flat_map map list_sum]. now rewrite length_app, IH.
Qed.



(** ** The loop of [download_papers] *)

Section PapersFacts.
Variable World : Type.
Variable path_exists : World -> string -> bool.
Variable open_append : World -> string -> World * outcome unit.
Variable client_results : World -> string -> nat -> list Download.Result.
Variable download_pdf :
  World -> Download.Result -> string -> string -> World * outcome unit.
Variable fitz_texts : World -> string -> outcome (list string).
Variable write_text : World -> string -> string -> World * outcome unit.
Variable writerow : World -> Download.Row -> World * outcome unit.

Let try_result' :=
  Download.try_result World path_exists download_pdf fitz_texts write_text writerow.
Let category_loop' :=
  Download.category_loop World path_exists download_pdf fitz_texts write_text
    writerow.
Let category_pass' :=
  Download.category_pass World path_exists client_results download_pdf
    fitz_texts write_text writerow.
Let download_papers' :=
  Download.download_papers World path_exists open_append client_results
    download_pdf fitz_texts write_text writerow.

(** What [try_result] returns, when it wrote a row. *)
Lemma try_result_inv category w result w' row :
  try_result' category w result = (w', Some row) ->
  Download.row_arxiv_id row = Download.result_short_id result
  /\ Download.row_category row = category
  /\ (path_exists w (Download.pdf_path (Download.result_short_id result))
      && path_exists w (Download.text_path (Download.result_short_id result))
      = false)
  /\ exists w1 w2 pages,
       download_pdf w result Download.PDF_DIR
         (Download.result_short_id result ++ ".pdf") = (w1, Returns tt)
       /\ write_text w1 (Download.text_path (Download.result_short_id result))
            (Download.paper_text pages) = (w2, Returns tt)
       /\ writerow w2 row = (w', Returns tt).
Proof.
  unfold try_result', Download.try_result.
  destruct (path_exists w _ && path_exists w _); [discriminate|].
  destruct (download_pdf w result _ _) as [w1 [[]|]]; [|discriminate].
  destruct (fitz_texts w1 _) as [pages|]; [|discriminate].
  destruct (write_text w1 _ _) as [w2 [[]|]] eqn:Ew; [|discriminate].
  destruct (Download.version _) as [v|]; [|discriminate].
  destruct (writerow w2 _) as [w3 [[]|]] eqn:Er; [|discriminate].
  intros [= <- <-]. cbn [Download.row_arxiv_id Download.row_category].
  repeat split. exists w1, w2, pages. auto.
Qed.

(** One category adds rows of its own, and no more than what is left of
    its target. *)
Lemma category_loop_rows category target (results : list Download.Result) :
  forall w rows count,
  exists new,
    snd (category_loop' category target results w rows count) = (rows ++ new)%list
    /\ List.length new <= target - count
    /\ Forall (fun r => Download.row_category r = category) new.
Proof.
  induction results as [|result results IH]; intros w rows count;
    cbn [category_loop' Download.category_loop].
  - exists []. cbn [snd]. rewrite List.app_nil_r. repeat split; [simpl; lia | constructor].
  - destruct (target <=? count)%nat eqn:E.
    + exists []. cbn [snd]. rewrite List.app_nil_r.
      repeat split; [simpl; lia | constructor].
    + apply Nat.leb_gt in E. fold try_result'.
      destruct (try_result' category w result) as [w' [row|]] eqn:Et.
      * destruct (IH w' (rows ++ [row])%list (S count)) as (new & Hn & Hl & Hc).
        exists (row :: new). fold category_loop' in Hn |- *.
        rewrite Hn, <- List.app_assoc. split; [reflexivity|].
        split; [simpl; lia|]. constructor; [|exact Hc].
        now apply try_result_inv in Et.
      * apply IH.
Qed.

Lemma rows_in_app category (l l' : list Download.Row) :
  rows_in category (l ++ l')%list = (rows_in category l ++ rows_in category l')%list.
Proof. apply filter_app. Qed.

Lemma rows_in_length category (l : list Download.Row) :
  List.length (rows_in category l) <= List.length l.
Proof. apply filter_length_le. Qed.

Lemma rows_in_other category c (l : list Download.Row) :
  Forall (fun r => Download.row_category r = c) l ->
  String.eqb c category = false -> rows_in category l = [].
Proof.
  intros H Hc. induction H as [|r l Hr _ IH]; [reflexivity|].
  unfold rows_in in *. cbn [filter]. now rewrite Hr, Hc.
Qed.

(** The passes over a list of categories. *)
Lemma category_passes_rows (cats : list (string * nat)) : forall st,
  exists new,
    snd (fold_left category_pass' cats st) = (snd st ++ new)%list
    /\ List.length new <= list_sum (map snd cats)
    /\ forall category,
         List.length (rows_in category new) <= budget category cats.
Proof.
  induction cats as [|[c t] cats IH]; intros st; cbn [fold_left].
  - exists []. rewrite List.app_nil_r. repeat split; simpl; lia.
  - destruct (category_loop_rows c t (client_results (fst st) c t) (fst st) (snd st) 0)
      as (new1 & H1 & Hl1 & Hc1).
    destruct (IH (category_pass' st (c, t))) as (new2 & H2 & Hl2 & Hb2).
    exists (new1 ++ new2)%list. rewrite H2.
    unfold category_pass', Download.category_pass. cbn [fst snd].
    fold category_loop'. rewrite H1, <- List.app_assoc.
    split; [reflexivity|]. split.
    + rewrite length_app.
      change (list_sum (map snd ((c, t) :: cats)))
        with (t + list_sum (map snd cats)). lia.
    + intros category. rewrite rows_in_app, length_app.
      unfold budget. cbn [filter fst].
      destruct (String.eqb c category) eqn:E.
      * change (list_sum (map snd ((c, t) :: filter
                  (fun e => String.eqb (fst e) category) cats)))
          with (t + budget category cats).
        pose proof (rows_in_length category new1). specialize (Hb2 category). lia.
      * rewrite (rows_in_other _ _ _ Hc1 E). apply Hb2.
Qed.

(** X18.  [download_papers] honours the targets: a run appends at most
    [target] rows for each category of [CATEGORIES], 2800 rows at most in
    all, and every row it appends belongs to one of these categories. *)
Theorem X18_download_targets (w w' : World) (rows : list Download.Row) :
  download_papers' w = (w', Returns rows) ->
  List.length rows <= 2800
  /\ (forall category target,
        In (category, target) Download.CATEGORIES ->
        List.length (rows_in category rows) <= target)
  /\ (forall category,
        ~ In category (map fst Download.CATEGORIES) -> rows_in category rows = []).
Proof.
  unfold download_papers', Download.download_papers.
  destruct (open_append w Download.METADATA_PATH) as [w0 [[]|]]; [|discriminate].
  intros E.
  assert (Hr : rows = snd (fold_left category_pass' Download.CATEGORIES (w0, [])))
    by now injection E.
  destruct (category_passes_rows Download.CATEGORIES (w0, [])) as (new & Hn & Hl & Hb).
  rewrite Hr, Hn. clear E Hr Hn.
  cbn [snd app]. split; [exact Hl|]. split.
  - intros category target Hin. specialize (Hb category).
    cbn in Hin.
    repeat (destruct Hin as [[= <- <-]|Hin]; [exact Hb|]). destruct Hin.
  - intros category Hc. specialize (Hb category).
    assert (E : budget category Download.CATEGORIES = 0).
    { unfold budget, Download.CATEGORIES. cbn [filter fst].
      repeat match goal with
             | |- context [String.eqb ?c category] =>
                 destruct (String.eqb_spec c category) as [<-|_];
                 [exfalso; apply Hc; cbn; tauto|]
             end.
      reflexivity. }
    rewrite E in Hb. destruct (rows_in category new); [reflexivity|simpl in Hb; lia].
Qed.

Section Files.

(** The file system behaves: a download and a write that return leave
    their file, and no call removes a file. *)
Hypothesis download_creates : forall w r dir name w',
  download_pdf w r dir name = (w', Returns tt) ->
  path_exists w' (path_join dir name) = true.
Hypothesis write_creates : forall w p text w',
  write_text w p text = (w', Returns tt) -> path_exists w' p = true.
Hypothesis download_keeps : forall w r dir name p,
  path_exists w p = true ->
  path_exists (fst (download_pdf w r dir name)) p = true.
Hypothesis write_keeps : forall w q text p,
  path_exists w p = true -> path_exists (fst (write_text w q text)) p = true.
Hypothesis writerow_keeps : forall w row p,
  path_exists w p = true -> path_exists (fst (writerow w row)) p = true.

Lemma try_result_keeps category w result p :
  path_exists w p = true ->
  path_exists (fst (try_result' category w result)) p = true.
Proof.
  intros H. unfold try_result', Download.try_result.
  destruct (path_exists w _ && path_exists w _); [exact H|].
  pose proof (download_keeps w result Download.PDF_DIR
                (Download.result_short_id result ++ ".pdf") p H) as H1.
  destruct (download_pdf w result _ _) as [w1 [[]|]]; [|exact H1].
  cbn [fst] in H1.
  destruct (fitz_texts w1 _) as [pages|]; [|exact H1].
  pose proof (write_keeps w1 (Download.text_path (Download.result_short_id result))
                (Download.paper_text pages) p H1) as H2.
  destruct (write_text w1 _ _) as [w2 [[]|]]; [|exact H2].
  cbn [fst] in H2.
  destruct (Download.version _) as [v|]; [|exact H2].
  match goal with
  | |- context [writerow w2 ?row] =>
      pose proof (writerow_keeps w2 row p H2) as H3;
      destruct (writerow w2 row) as [w3 [[]|]]; exact H3
  end.
Qed.

Lemma try_result_recorded category w rows result :
  recorded path_exists w rows ->
  match try_result' category w result with
  | (w', Some row) => recorded path_exists w' (rows ++ [row])%list
  | (w', None) => recorded path_exists w' rows
  end.
Proof.
  intros [Hd Hf].
  pose proof (fun p => try_result_keeps category w result p) as Hk.
  destruct (try_result' category w result) as [w' [row|]] eqn:Et; cbn [fst] in Hk.
  - apply try_result_inv in Et
      as (Hid & _ & Hnew & w1 & w2 & pages & Hdl & Hw & Hr).
    split.
    + rewrite map_app. cbn [map]. apply NoDup_app; [exact Hd | repeat constructor; auto|].
      intros id Hin [<-|[]]. apply in_map_iff in Hin as (r & Er & Hin).
      destruct (Hf r Hin) as [Hp Ht]. rewrite Er, Hid in Hp, Ht.
      rewrite Hp, Ht in Hnew. discriminate Hnew.
    + intros r [Hin|[<-|[]]]%in_app_or.
      * destruct (Hf r Hin). split; now apply Hk.
      * rewrite Hid. split.
        -- pose proof (download_creates _ _ _ _ _ Hdl) as H1.
           pose proof (write_keeps w1 (Download.text_path (Download.result_short_id result))
                         (Download.paper_text pages) _ H1) as H2.
           rewrite Hw in H2. cbn [fst] in H2.
           pose proof (writerow_keeps w2 row _ H2) as H3.
           rewrite Hr in H3. exact H3.
        -- pose proof (write_creates _ _ _ _ Hw) as H2.
           pose proof (writerow_keeps w2 row _ H2) as H3.
           rewrite Hr in H3. exact H3.
  - split; [exact Hd|]. intros r Hin. destruct (Hf r Hin). split; now apply Hk.
Qed.

Lemma category_loop_recorded category target (results : list Download.Result) :
  forall w rows count,
  recorded path_exists w rows ->
  recorded path_exists
    (fst (category_loop' category target results w rows count))
    (snd (category_loop' category target results w rows count)).
Proof.
  induction results as [|result results IH]; intros w rows count H;
    cbn [category_loop' Download.category_loop]; [exact H|].
  destruct (target <=? count)%nat; [exact H|]. fold try_result'.
  pose proof (try_result_recorded category w rows result H) as Ht.
  destruct (try_result' category w result) as [w' [row|]]; now apply IH.
Qed.

(** X19.  With a file system that behaves, a run of [download_papers]
    records no paper twice: a paper that the searches yield again, in the
    same category or in another, is passed over, since its two files
    exist by then. *)
Theorem X19_download_no_duplicates (w w' : World) (rows : list Download.Row) :
  download_papers' w = (w', Returns rows) ->
  NoDup (map Download.row_arxiv_id rows)
  /\ forall r, In r rows ->
       path_exists w' (Download.pdf_path (Download.row_arxiv_id r)) = true
       /\ path_exists w' (Download.text_path (Download.row_arxiv_id r)) = true.
Proof.
  unfold download_papers', Download.download_papers.
  destruct (open_append w Download.METADATA_PATH) as [w0 [[]|]]; [|discriminate].
  intros E.
  assert (Hw : w' = fst (fold_left category_pass' Download.CATEGORIES (w0, [])))
    by now injection E.
  assert (Hr : rows = snd (fold_left category_pass' Download.CATEGORIES (w0, [])))
    by now injection E.
  rewrite Hw, Hr. clear E Hw Hr.
  assert (H : recorded path_exists (fst (w0, @nil Download.Row))
                (snd (w0, @nil Download.Row))).
  { split; [constructor | intros r []]. }
  revert H. generalize (w0, @nil Download.Row) as st.
  generalize Download.CATEGORIES as cats.
  induction cats as [|[c t] cats IH]; intros st H; [exact H|].
  cbn [fold_left]. apply IH.
  unfold category_pass', Download.category_pass. cbn [fst snd].
  now apply category_loop_recorded.
Qed.
End Files.
End PapersFacts.

Lemma X18_witness :
  let run :=
    Download.download_papers unit (fun _ _ => false) (fun w _ => (w, Returns tt))
      (fun _ category _ => sample_results category)
      (fun w _ _ _ => (w, Returns tt)) (fun _ _ => Returns ["A page."; "One more."])
      (fun w _ _ => (w, Returns tt)) (fun w _ => (w, Returns tt)) in
  exists rows,
    run tt = (tt, Returns rows) /\ List.length rows = 18
    /\ List.length rows <= 2800.
Proof.
  cbv zeta.
  destruct (Download.download_papers unit (fun _ _ => false)
              (fun w _ => (w, Returns tt))
              (fun _ category _ => sample_results category)
              (fun w _ _ _ => (w, Returns tt))
              (fun _ _ => Returns ["A page."; "One more."])
              (fun w _ _ => (w, Returns tt)) (fun w _ => (w, Returns tt)) tt)
    as [[] [rows|]] eqn:E; [|vm_compute in E; discriminate E].
  exists rows. split; [reflexivity|]. split.
  - vm_compute in E. injection E as <-. reflexivity.
  - apply (X18_download_targets _ _ _ _ _ _ _ _ _ _ _ E).
Defined.

Lemma files_exists_cons (w : list string) (p q : string) :
  files_exists w p = true -> files_exists (q :: w) p = true.
Proof. unfold files_exists. cbn [existsb]. intros ->. apply orb_true_r. Qed.

Lemma files_exists_head (w : list string) (p : string) :
  files_exists (p :: w) p = true.
Proof. unfold files_exists. cbn [existsb]. now rewrite String.eqb_refl. Qed.

Lemma X19_witness :
  let run :=
    Download.download_papers (list string) files_exists
      (fun w _ => (w, Returns tt))
      (fun _ category _ => sample_results category)
      files_download (fun _ _ => Returns ["A page."; "One more."])
      files_write (fun w _ => (w, Returns tt)) in
  exists w rows,
    run [] = (w, Returns rows) /\ List.length rows = 7
    /\ NoDup (map Download.row_arxiv_id rows).
Proof.
  cbv zeta.
  destruct (Download.download_papers (list string) files_exists
              (fun w _ => (w, Returns tt))
              (fun _ category _ => sample_results category)
              files_download (fun _ _ => Returns ["A page."; "One more."])
              files_write (fun w _ => (w, Returns tt)) [])
    as [w [rows|]] eqn:E; [|vm_compute in E; discriminate E].
  exists w, rows. split; [reflexivity|]. split.
  - vm_compute in E. injection E as _ <-. reflexivity.
  - apply (X19_download_no_duplicates (list string) files_exists
             (fun w _ => (w, Returns tt))
             (fun _ category _ => sample_results category)
             files_download (fun _ _ => Returns ["A page."; "One more."])
             files_write (fun w _ => (w, Returns tt))) with (w := []) (w' := w).
    + intros w0 r dir name w1. unfold files_download.
      destruct (Download.result_summary r); [discriminate|].
      intros [= <-]. apply files_exists_head.
    + intros w0 p text w1. unfold files_write.
      destruct text; [discriminate|]. intros [= <-]. apply files_exists_head.
    + intros w0 r dir name p H. unfold files_download.
      destruct (Download.result_summary r); [exact H|].
      now apply files_exists_cons.
    + intros w0 q text p H. unfold files_write.
      destruct text; [exact H|]. now apply files_exists_cons.
    + intros w0 row p H. exact H.
    + exact E.
Defined.

(** ** Texts without equations *)

(** Where [re.finditer] finds nothing, [re.search] finds nothing, for a
    pattern that does not match the empty text. *)
Lemma hits_nil_search {G} (m : Re.pattern G) (s : string) : forall b,
  (forall b', m b' "" = None) ->
  Re.hits (Re.scan_from m 0 b s) = [] -> Re.search_from m b s = None.
Proof.
  induction s as [|c s IH]; intros b Hm; cbn [Re.scan_from Re.search_from].
  - now rewrite Hm.
  - destruct (m b (String c s)) as [[g r]|]; [discriminate|].
    cbn [Re.hits]. now apply IH.
Qed.

Lemma delimited_empty c open close b : delimited (String c open) close b "" = None.
Proof. reflexivity. Qed.

Lemma finditer_delimited_nil c open close (t : string) :
  Re.finditer (delimited (String c open) close) t = [] ->
  ~ has_block (String c open) close t.
Proof.
  intros H. apply search_delimited_none.
  apply hits_nil_search; [intros b'; apply delimited_empty | exact H].
Qed.

Lemma repeat_app_nil {A} (x : A) n (l : list A) :
  (repeat x n ++ l)%list = [] -> n = 0 /\ l = [].
Proof. destruct n; simpl; [auto | discriminate]. Qed.

(** X20.  [preserve_equations] finds no equation exactly in the texts
    without raw equation syntax (no [\begin{equation}], [\[] or [$] with
    its closing delimiter after it), and then it returns the text as it
    is. *)
Theorem X20_no_equations_iff (t : string) :
  (snd (preserve_equations t) = [] <-> ~ raw_equation_syntax t)
  /\ (snd (preserve_equations t) = [] -> fst (preserve_equations t) = t).
Proof.
  assert (Hno : ~ raw_equation_syntax t -> preserve_equations t = (t, [])).
  { intros H. now apply preserve_equations_no_match, no_raw_syntax_no_match. }
  assert (Hyes : snd (preserve_equations t) = [] -> ~ raw_equation_syntax t).
  { intros H. apply (f_equal (map eq_type)) in H. revert H.
    unfold preserve_equations, equation_patterns. cbn [snd fold_left].
    rewrite !isolate_pass_types. cbn [fst snd text equations map app].
    intros H. rewrite <- !List.app_assoc in H.
    apply repeat_app_nil in H as [H1 H].
    apply length_zero_iff_nil in H1.
    assert (E1 : isolate_pass {| text := t; equations := []; counter := 1 |}
                   (delimited "\begin{equation}" "\end{equation}", DISPLAY)
                 = {| text := t; equations := []; counter := 1 |}).
    { unfold isolate_pass. cbn [fst snd text]. now rewrite H1. }
    rewrite E1 in H. cbn [text] in H.
    apply repeat_app_nil in H as [H2 H].
    apply length_zero_iff_nil in H2.
    assert (E2 : isolate_pass {| text := t; equations := []; counter := 1 |}
                   (delimited "\[" "\]", DISPLAY)
                 = {| text := t; equations := []; counter := 1 |}).
    { unfold isolate_pass. cbn [fst snd text]. now rewrite H2. }
    rewrite E2 in H. cbn [text] in H.
    rewrite <- (List.app_nil_r (repeat INLINE _)) in H.
    apply repeat_app_nil in H as [H3 _].
    apply length_zero_iff_nil in H3.
    intros [Hb|[Hb|Hb]]; revert Hb; now apply finditer_delimited_nil. }
  split; [split|].
  - exact Hyes.
  - intros H. now rewrite (Hno H).
  - intros H. now rewrite (Hno (Hyes H)).
Qed.

(** ** Display mathematics between double dollars *)

Section PlainScan.
Context {G : Type} (c : ascii) (l : string) (k : Re.pattern G).

(** The scan of a pattern that starts with a literal passes a text
    without the first character of the literal. *)
Lemma scan_from_plain (u rest : string) : forall b,
  count_char c u = 0 ->
  Re.scan_from (Re.lit (String c l) k) 0 b (u ++ rest)
  = (texts u ++ Re.scan_from (Re.lit (String c l) k) 0 (revapp u b) rest)%list.
Proof.
  induction u as [|d u IH]; intros b Hu; [reflexivity|].
  cbn [count_char] in Hu.
  assert (Hd : Ascii.eqb c d = false).
  { rewrite Ascii.eqb_sym. destruct (Ascii.eqb d c); [discriminate Hu | reflexivity]. }
  change (String d u ++ rest) with (String d (u ++ rest)).
  cbn [Re.scan_from].
  assert (E : Re.lit (String c l) k b (String d (u ++ rest)) = None)
    by (cbn [Re.lit]; unfold Re.chr at 1; now rewrite Hd).
  rewrite E. cbn [texts app revapp]. f_equal. apply IH.
  destruct (Ascii.eqb d c); [discriminate Hu | exact Hu].
Qed.

Lemma search_plain (u : string) :
  count_char c u = 0 -> Re.search (Re.lit (String c l) k) u = None.
Proof.
  intros Hu. apply (search_none _ (fun x => Re.first_is (Ascii.eqb c) x = true)).
  - intros b x g r H. cbn [Re.lit] in H. apply chr_inv in H as (d & x' & -> & Hd & _).
    exact Hd.
  - intros pre x -> Hx. apply count_char_suffix in Hu.
    destruct x as [|d x]; [discriminate Hx|].
    cbn [Re.first_is] in Hx. cbn [count_char] in Hu.
    rewrite Ascii.eqb_sym, Hx in Hu. discriminate Hu.
Qed.
End PlainScan.

Lemma dollars_hit b (rest : string) :
  delimited "$" "$" b ("$$" ++ rest) = Some ("", rest).
Proof.
  unfold delimited. cbn [Re.lit String.append]. unfold Re.chr at 1.
  change (Ascii.eqb "$" "$") with true. cbv iota.
  unfold Re.group. destruct rest as [|d rest].
  - cbn. reflexivity.
  - cbn [Re.lazy_star]. unfold Re.chr at 1.
    change (Ascii.eqb "$" "$") with true. cbv iota. unfold Re.accept.
    cbn [String.length]. rewrite Nat.sub_diag. reflexivity.
Qed.

Lemma scan_dollars {G} (m : Re.pattern G) (g : G) (pre body post : string) :
  (forall b u rest, count_char "$" u = 0 ->
     Re.scan_from m 0 b (u ++ rest)
     = (texts u ++ Re.scan_from m 0 (revapp u b) rest)%list) ->
  (forall b rest, m b ("$$" ++ rest) = Some (g, rest)) ->
  count_char "$" pre = 0 -> count_char "$" body = 0 -> count_char "$" post = 0 ->
  Re.scan m (pre ++ "$$" ++ body ++ "$$" ++ post)
  = (texts pre ++ Re.Hit "$$" g :: texts body ++ Re.Hit "$$" g :: texts post)%list.
Proof.
  intros Hplain Hhit Hpre Hbody Hpost. unfold Re.scan.
  rewrite (Hplain _ _ _ Hpre). f_equal.
  rewrite (scan_from_hit m "$$" _ _ g); [|discriminate | apply Hhit]. f_equal.
  rewrite (Hplain _ _ _ Hbody). f_equal.
  rewrite (scan_from_hit m "$$" _ _ g); [|discriminate | apply Hhit]. f_equal.
  rewrite <- (append_nil_r post) at 1.
  rewrite (Hplain _ _ _ Hpost). apply List.app_nil_r.
Qed.

Lemma placeholder_no_dollar n : count_char "$" (placeholder_of INLINE n) = 0.
Proof.
  unfold placeholder_of. rewrite !count_char_app.
  assert (H : count_char "$" (Str.of_nat n) = 0).
  { pose proof (of_nat_digits n) as Hd.
    induction (Str.of_nat n) as [|d s IH]; [reflexivity|].
    cbn [all_chars] in Hd. apply andb_prop in Hd as [Hd Hs].
    cbn [count_char]. rewrite (IH Hs).
    destruct (Ascii.eqb_spec d "$") as [->|]; [discriminate Hd | reflexivity]. }
  now rewrite H.
Qed.

(** X21.  Display mathematics written between double dollars is not
    isolated.  In a text without backslash, [$$ body $$] is read as two
    empty inline equations: each [$$] becomes the first placeholder, the
    body stays in the text, and the second record has a placeholder the
    text does not hold. *)
Theorem X21_double_dollars (pre body post : string) :
  count_char "\" (pre ++ body ++ post) = 0 ->
  count_char "$" (pre ++ body ++ post) = 0 ->
  preserve_equations (pre ++ "$$" ++ body ++ "$$" ++ post)
  = (pre ++ "[EQ_INLINE_1]" ++ body ++ "[EQ_INLINE_1]" ++ post,
     [empty_inline 1; empty_inline 2]).
Proof.
  intros Hb Hd. rewrite !count_char_app in Hb, Hd.
  assert (Hpre : count_char "$" pre = 0) by lia.
  assert (Hbody : count_char "$" body = 0) by lia.
  assert (Hpost : count_char "$" post = 0) by lia.
  set (t := pre ++ "$$" ++ body ++ "$$" ++ post).
  assert (Ht : count_char "\" t = 0).
  { unfold t. rewrite !count_char_app. change (count_char "\" "$$") with 0. lia. }
  unfold preserve_equations, equation_patterns. cbn [fold_left].
  rewrite (isolate_pass_no_match {| text := t; equations := []; counter := 1 |}
             (delimited "\begin{equation}" "\end{equation}", DISPLAY))
    by (cbn [fst text]; unfold delimited; now apply search_plain).
  rewrite (isolate_pass_no_match {| text := t; equations := []; counter := 1 |}
             (delimited "\[" "\]", DISPLAY))
    by (cbn [fst text]; unfold delimited; now apply search_plain).
  unfold isolate_pass. cbn [fst snd text].
  assert (Ef : Re.finditer (delimited "$" "$") t = [("$$", ""); ("$$", "")]).
  { unfold Re.finditer, t.
    rewrite (scan_dollars (delimited "$" "$") "" pre body post);
      [|intros b u rest Hu; unfold delimited; now apply scan_from_plain
       |intros b rest; apply dollars_hit | assumption..].
    now rewrite hits_app, hits_texts; cbn [Re.hits app];
      rewrite hits_app, hits_texts; cbn [Re.hits app]; rewrite hits_texts. }
  rewrite Ef. cbn [fold_left].
  assert (E1 : replace t "$$" (placeholder_of INLINE 1)
               = pre ++ placeholder_of INLINE 1 ++ body
                 ++ placeholder_of INLINE 1 ++ post).
  { unfold replace, Re.sub, t.
    rewrite (scan_dollars (Re.lit "$$" (Re.accept tt)) tt pre body post);
      [|intros b u rest Hu; now apply scan_from_plain
       |intros b rest; apply lit_app | assumption..].
    rewrite subst_app, subst_texts. cbn [Re.subst].
    now rewrite subst_app, subst_texts; cbn [Re.subst]; rewrite subst_texts. }
  unfold isolate_match at 2. cbn [text equations counter fst snd].
  rewrite E1.
  unfold isolate_match. cbn [text equations counter fst snd app].
  assert (E2 : replace (pre ++ placeholder_of INLINE 1 ++ body
                        ++ placeholder_of INLINE 1 ++ post) "$$"
                 (placeholder_of INLINE 2)
               = pre ++ placeholder_of INLINE 1 ++ body
                 ++ placeholder_of INLINE 1 ++ post).
  { unfold replace. apply sub_no_match. apply search_plain.
    rewrite !count_char_app, !placeholder_no_dollar. lia. }
  rewrite E2. reflexivity.
Qed.

Lemma X21_witness :
  preserve_equations "Then $$ E = m c^2 $$ holds."
  = ("Then [EQ_INLINE_1] E = m c^2 [EQ_INLINE_1] holds.",
     [empty_inline 1; empty_inline 2]).
Proof.
  apply (X21_double_dollars "Then " " E = m c^2 " " holds."); reflexivity.
Defined.
